(** * CerebNet/datasets/utils.py: volume geometry helpers

    A shallow embedding of the crop / pad / resize arithmetic, the
    bounding-volume routines and the LTA reader of
    [CerebNet/datasets/utils.py], with the properties stated about them.

    Conventions.
    - Python integers are [Z]; [//] on a positive divisor is [Z.div]
      (floor), [int(x / 2)] is [Z.quot] (truncation towards zero).
    - A [numpy] array of rank [n] is a nested list [nd A n] together with
      its shape tuple; the shape is carried explicitly because a nested list
      forgets the trailing extents of an empty array.
    - A raised Python exception is [Raise e]; a normal return is [Ok v]. *)

From Stdlib Require Import String Ascii.
From Stdlib Require Import List ZArith QArith Qround Qabs Lia Bool Sorted.
Import ListNotations.

Set Implicit Arguments.
Open Scope Z_scope.

(** ** Exceptions *)

Inductive exn : Type :=
| ValueError (msg : string)
| RuntimeError (msg : string)
| TypeError (msg : string)
| IndexError (msg : string)
| KeyError (key : string)
| AttributeError (msg : string)
| AssertionError (msg : string).

Inductive result (A : Type) : Type :=
| Ok (a : A)
| Raise (e : exn).

Arguments Ok {A} a.
Arguments Raise {A} e.

Definition bind {A B : Type} (r : result A) (k : A -> result B) : result B :=
  match r with
  | Ok a => k a
  | Raise e => Raise e
  end.

Declare Scope py_scope.
Notation "x <- c1 ;; c2" := (bind c1 (fun x => c2))
  (at level 61, c1 at next level, right associativity) : py_scope.
Open Scope py_scope.

(** ** Python slices [a:b] on sequences *)

Module PySlice.

Record slice : Type := Slice { start : option Z; stop : option Z }.

(** [slice(None, None)] *)
Definition all : slice := Slice None None.

(** [slice(a, b)] with both bounds given *)
Definition range (a b : Z) : slice := Slice (Some a) (Some b).

(** One bound of [slice.indices(len)]: a negative bound counts from the
    end, and every bound is clipped into [0, len]. *)
Definition clip (len dflt : Z) (v : option Z) : Z :=
  match v with
  | None => dflt
  | Some z => if z <? 0 then Z.max 0 (z + len) else Z.min z len
  end.

Definition indices (s : slice) (len : Z) : Z * Z :=
  (clip len 0 (start s), clip len len (stop s)).

(** Number of elements selected on an axis of extent [len]. *)
Definition length_on (s : slice) (len : Z) : Z :=
  let '(lo, hi) := indices s len in Z.max 0 (hi - lo).

(** [l[s]] *)
Definition get {X : Type} (s : slice) (l : list X) : list X :=
  let '(lo, hi) := indices s (Z.of_nat (length l)) in
  firstn (Z.to_nat (hi - lo)) (skipn (Z.to_nat lo) l).

End PySlice.

Import PySlice.

(** ** N-dimensional arrays *)

Fixpoint nd (A : Type) (n : nat) : Type :=
  match n with
  | O => A
  | S m => list (nd A m)
  end.

Record ndarray (A : Type) (n : nat) : Type :=
  NdArray { shape : list Z; data : nd A n }.

Arguments NdArray {A n} shape data.

Section Arrays.

Variable A : Type.

(** [sh] is the shape of the nested list [x]. *)
Fixpoint has_shape (n : nat) (sh : list Z) : nd A n -> Prop :=
  match n return nd A n -> Prop with
  | O => fun _ => sh = []
  | S m => fun l =>
      match sh with
      | [] => False
      | k :: rest => Z.of_nat (length l) = k /\ Forall (has_shape m rest) l
      end
  end.

(** A well-formed array: one non-negative extent per axis, and data of
    that shape. *)
Definition wf {n : nat} (a : ndarray A n) : Prop :=
  length (shape a) = n
  /\ Forall (fun k => 0 <= k) (shape a)
  /\ has_shape n (shape a) (data a).

(** *** Basic indexing with a tuple of slices: [a[s0, s1, ...]].
    Axes without a slice are kept whole. *)

Fixpoint getitem_shape (idx : list slice) (sh : list Z) : list Z :=
  match idx, sh with
  | s :: idx', k :: rest => length_on s k :: getitem_shape idx' rest
  | _, _ => sh
  end.

Fixpoint getitem_data (n : nat) (idx : list slice) : nd A n -> nd A n :=
  match n return nd A n -> nd A n with
  | O => fun a => a
  | S m => fun l =>
      match idx with
      | [] => l
      | s :: idx' => map (getitem_data m idx') (get s l)
      end
  end.

Definition getitem {n : nat} (a : ndarray A n) (idx : list slice) : ndarray A n :=
  NdArray (getitem_shape idx (shape a)) (getitem_data n idx (data a)).

(** *** [numpy.pad(a, pad_width, mode="constant", constant_values=fill)] *)

Fixpoint full (n : nat) (sh : list Z) (fill : A) : nd A n :=
  match n return nd A n with
  | O => fill
  | S m =>
      match sh with
      | [] => []
      | k :: rest => repeat (full m rest fill) (Z.to_nat k)
      end
  end.

Fixpoint pad_shape (pw : list (Z * Z)) (sh : list Z) : list Z :=
  match pw, sh with
  | (before, after) :: pw', k :: rest => (before + k + after) :: pad_shape pw' rest
  | _, _ => sh
  end.

Fixpoint pad_data (n : nat) (pw : list (Z * Z)) (sh : list Z) (fill : A)
  : nd A n -> nd A n :=
  match n return nd A n -> nd A n with
  | O => fun a => a
  | S m => fun l =>
      match pw, sh with
      | (before, after) :: pw', _ :: rest =>
          let blk := full m (pad_shape pw' rest) fill in
          repeat blk (Z.to_nat before)
            ++ map (pad_data m pw' rest fill) l
            ++ repeat blk (Z.to_nat after)
      | _, _ => l
      end
  end.

(** [pad_width] is broadcast to one pair per axis: a list of [ndim] pairs
    is taken as it is, a single pair is used for every axis, anything else
    is rejected; a negative width is rejected too. *)
Definition as_pairs (pw : list (Z * Z)) (ndim : nat) : result (list (Z * Z)) :=
  let checked (l : list (Z * Z)) :=
    if forallb (fun p => (0 <=? fst p) && (0 <=? snd p)) l
    then Ok l
    else Raise (ValueError "index can't contain negative values") in
  if Nat.eqb (length pw) ndim then checked pw
  else match pw with
       | [p] => checked (repeat p ndim)
       | _ => Raise (ValueError "Unable to create correctly shaped tuple")
       end.

Definition np_pad {n : nat} (a : ndarray A n) (pad_width : list (Z * Z)) (fill : A)
  : result (ndarray A n) :=
  pw <- as_pairs pad_width n ;;
  Ok (NdArray (pad_shape pw (shape a)) (pad_data n pw (shape a) fill (data a))).

End Arrays.

Arguments wf {A n} a.

(** ** [map_size]: resize a volume to a canonical shape *)

Definition list_Z_eqb (a b : list Z) : bool :=
  if list_eq_dec Z.eq_dec a b then true else false.

(** [t[k]] on a tuple *)
Definition tuple_index (t : list Z) (k : nat) : result Z :=
  match nth_error t k with
  | Some v => Ok v
  | None => Raise (IndexError "tuple index out of range")
  end.

Section MapSize.

Variable A : Type.
(** The zero of the element type, the fill value of [np.pad]. *)
Variable zero : A.

(** One turn of the loop over [zip(arr.shape, base_shape)]: the selection,
    the pad widths and the border pair appended for an axis of extent [i]
    mapped to extent [j]. *)
Definition map_size_axis (i j : Z) : slice * (Z * Z) * (Z * Z) :=
  let delta := i - j in
  let left := delta / 2 in
  if 0 <? delta
  then (range left (left + j), (0, 0), (- left, - left + i))
  else (PySlice.all, (- left, left - delta), (- left, - left + i)).

Definition any_nonzero (pads : list (Z * Z)) : bool :=
  existsb (fun p => negb (fst p =? 0) || negb (snd p =? 0)) pads.

Definition map_size {n : nat} (arr : ndarray A n) (base_shape : list Z)
    (return_border : bool) : result (ndarray A n * option (list (Z * Z))) :=
  if list_Z_eqb (shape arr) base_shape then
    if return_border then
      s0 <- tuple_index (shape arr) 0 ;;
      s1 <- tuple_index (shape arr) 1 ;;
      s2 <- tuple_index (shape arr) 2 ;;
      Ok (arr, Some [(0, s0); (0, s1); (0, s2)])
    else Ok (arr, None)
  else
    let plan := map (fun ij => map_size_axis (fst ij) (snd ij))
                    (combine (shape arr) base_shape) in
    let _selection := map (fun p => fst (fst p)) plan in
    let _pad := map (fun p => snd (fst p)) plan in
    let _unpad_borders := map snd plan in
    let out := getitem arr _selection in
    out <- (if any_nonzero _pad then np_pad out _pad zero else Ok out) ;;
    Ok (out, if return_border then Some _unpad_borders else None).

(** What a caller does with the returned borders:
    [out[b[0,0]:b[0,1], b[1,0]:b[1,1], b[2,0]:b[2,1]]]. *)
Definition slice_at_borders {n : nat} (out : ndarray A n) (borders : list (Z * Z))
  : ndarray A n :=
  getitem out (map (fun b => range (fst b) (snd b)) borders).

End MapSize.

(** ** [crop_transform]: the generic crop / pad engine *)

Fixpoint zip3 {X Y W : Type} (xs : list X) (ys : list Y) (ws : list W)
  : list (X * Y * W) :=
  match xs, ys, ws with
  | x :: xs', y :: ys', w :: ws' => (x, y, w) :: zip3 xs' ys' ws'
  | _, _, _ => []
  end.

(** One turn of the loop of [_crop_transform_make_indices]: the clamped crop
    range and the pad widths of one axis. *)
Definition make_indices_axis (offset t_shape i_shape : Z) : slice * (Z * Z) :=
  let crop_end := Z.min (offset + t_shape) i_shape in
  (range (Z.max 0 offset) crop_end,
   (Z.max 0 (- offset), Z.max 0 (offset + t_shape - crop_end))).

Definition _crop_transform_make_indices (image_shape offsets target_shape : list Z)
  : result (option (list (Z * Z)) * list slice) :=
  if negb (Nat.eqb (length offsets) (length target_shape)) then
    Raise (ValueError "offsets and target shape must be same length.")
  else if Nat.ltb (length image_shape) (length offsets) then
    Raise (ValueError "offsets too long for image")
  else
    let batch_dims := (length image_shape - length offsets)%nat in
    let axes := map (fun a => make_indices_axis (fst (fst a)) (snd (fst a)) (snd a))
                    (zip3 offsets target_shape (skipn batch_dims image_shape)) in
    let indices := repeat PySlice.all batch_dims ++ map fst axes in
    let paddings := map snd axes in
    let any_pad := any_nonzero paddings in
    Ok (if any_pad then Some paddings else None, indices).

(** The default offset of an axis of extent [i] cut to [t]:
    [int((i - t) / 2)], which truncates towards zero. *)
Definition default_offset (t i : Z) : Z := Z.quot (i - t) 2.

Section CropTransform.

Variable A : Type.

(** The array branch of [_crop_transform_pad_fn] with a constant fill:
    [None] when no axis pads, else [np.pad] with the pad widths of the
    trailing axes completed by [(0, 0)] for the leading ones. *)
Definition _crop_transform_pad_fn {n : nat} (image : ndarray A n)
    (pad_tuples : list (Z * Z)) (pad : A)
  : option (ndarray A n -> result (ndarray A n)) :=
  if forallb (fun p => (fst p =? 0) && (snd p =? 0)) pad_tuples then None
  else Some (fun x =>
               np_pad x (repeat (0, 0) (n - length pad_tuples) ++ pad_tuples) pad).

(** [out[:] = value] for arrays of one rank: an axis of [value] either has
    the extent of [out] or extent 1, which is repeated. *)
Fixpoint broadcast_data (n : nat) (tsh : list Z) : nd A n -> nd A n :=
  match n return nd A n -> nd A n with
  | O => fun a => a
  | S m => fun l =>
      match tsh with
      | [] => l
      | k :: rest =>
          let l' := map (broadcast_data m rest) l in
          match l' with
          | [x] => repeat x (Z.to_nat k)
          | _ => l'
          end
      end
  end.

Fixpoint broadcastable (vsh tsh : list Z) : bool :=
  match vsh, tsh with
  | [], [] => true
  | v :: vsh', t :: tsh' => ((v =? t) || (v =? 1)) && broadcastable vsh' tsh'
  | _, _ => false
  end.

Definition assign_all {n : nat} (out value : ndarray A n) : result (ndarray A n) :=
  if broadcastable (shape value) (shape out)
  then Ok (NdArray (shape out) (broadcast_data n (shape out) (data value)))
  else Raise (ValueError "could not broadcast input array").

(** [crop_transform(image, offsets, target_shape, out, pad)] on arrays,
    with [pad] a fill value. *)
Definition crop_transform {n : nat} (image : ndarray A n)
    (offsets target_shape : option (list Z)) (out : option (ndarray A n)) (pad : A)
  : result (ndarray A n) :=
  let target_shape :=
    match target_shape, out with
    | None, Some o => Some (shape o)
    | _, _ => target_shape
    end in
  let ishape := shape image in
  r <- match offsets with
       | None =>
           match target_shape with
           | None => Raise (ValueError "Either target_shape or offsets must be defined!")
           | Some ts =>
               let _target_shape :=
                 get (Slice None (Some (- Z.of_nat (length ts)))) ishape ++ ts in
               let offsets := map (fun ti => default_offset (fst ti) (snd ti))
                                  (combine _target_shape ishape) in
               Ok (offsets, _target_shape, length offsets)
           end
       | Some offsets =>
           let len_off := length offsets in
           let lead := get (Slice None (Some (- Z.of_nat len_off))) ishape in
           let trail := get (Slice (Some (- Z.of_nat len_off)) None) ishape in
           match target_shape with
           | None =>
               Ok (offsets,
                   lead ++ map (fun io => fst io - 2 * snd io) (combine trail offsets),
                   len_off)
           | Some ts =>
               if negb (Nat.eqb len_off (length ts)) then
                 Raise (ValueError
                   "Incompatible offset and target_shape dimensionality (at least once).")
               else
                 Ok (offsets,
                     lead ++ map (fun it => if snd it =? -1 then fst it else snd it)
                                 (combine trail ts),
                     len_off)
           end
       end ;;
  let '(offsets, _target_shape, len_off) := r in
  if Nat.ltb n len_off then
    Raise (RuntimeError "shape of offsets is larger than dim of image allows.")
  else
    pi <- _crop_transform_make_indices ishape offsets _target_shape ;;
    let '(pad_tuples, indices) := pi in
    let cropped := getitem image indices in
    value <- match pad_tuples with
             | None => Ok cropped
             | Some pt =>
                 match _crop_transform_pad_fn image pt pad with
                 | Some pad_fn => pad_fn cropped
                 | None => Raise (TypeError "'NoneType' object is not callable")
                 end
             end ;;
    match out with
    | None => Ok value
    | Some o => assign_all o value
    end.

End CropTransform.

(** ** [bounding_volume] and [bounding_volume_offset] *)

(** [np.where(v)[0]] for a boolean vector: the indices holding [True]. *)
Definition np_where (v : list bool) : list Z :=
  map (fun p => Z.of_nat (fst p))
      (filter (fun p => snd p) (combine (seq 0 (length v)) v)).

(** [ix[[0, -1]]]: the first and the last entry. *)
Definition first_last (ix : list Z) : result (Z * Z) :=
  match ix with
  | [] => Raise (IndexError "index 0 is out of bounds for axis 0 with size 0")
  | x :: _ => Ok (x, last ix x)
  end.

(** [round(x)] of a Python float with an exact value [x]: to the nearest
    integer, a tie going to the even neighbour. *)
Definition py_round (x : Q) : Z :=
  let f := Qfloor x in
  match Qcompare (x - inject_Z f) (1 # 2) with
  | Lt => f
  | Gt => f + 1
  | Eq => if Z.even f then f else f + 1
  end.

(** [t[::2]] and [t[1::2]] *)
Fixpoint evens {X : Type} (l : list X) : list X :=
  match l with
  | x :: _ :: l' => x :: evens l'
  | [x] => [x]
  | [] => []
  end.

Definition odds {X : Type} (l : list X) : list X := evens (tl l).

Fixpoint nd_map {X Y : Type} (f : X -> Y) (n : nat) : nd X n -> nd Y n :=
  match n return nd X n -> nd Y n with
  | O => f
  | S m => map (nd_map f m)
  end.

Section Bounding.

Variable A : Type.
(** [v != 0] on the element type. *)
Variable nonzero : A -> bool.

(** [np.any(img != 0, axis=(1, 2))], [axis=(0, 2)] and [axis=(0, 1)]. *)
Definition any_axis0 (img : ndarray A 3) : list bool :=
  map (fun plane => existsb (fun row => existsb nonzero row) plane) (data img).

Definition any_axis1 (img : ndarray A 3) : list bool :=
  map (fun j =>
         existsb (fun plane =>
                    match nth_error plane j with
                    | Some row => existsb nonzero row
                    | None => false
                    end) (data img))
      (seq 0 (Z.to_nat (nth 1 (shape img) 0))).

Definition any_axis2 (img : ndarray A 3) : list bool :=
  map (fun k =>
         existsb (fun plane =>
                    existsb (fun row =>
                               match nth_error row k with
                               | Some v => nonzero v
                               | None => false
                               end) plane) (data img))
      (seq 0 (Z.to_nat (nth 2 (shape img) 0))).

(** One axis of [bounding_volume]: the slack [target - (max - min)] is
    split floor-half low, remainder high, and both ends are clamped. *)
Definition expand_axis (lo hi target extent : Z) : slice :=
  let dx := target - (hi - lo) in
  let dx0 := dx / 2 in
  let dx1 := dx - dx / 2 in
  range (Z.max 0 (lo - dx0)) (Z.min extent (hi + dx1)).

Definition bounding_volume (img : ndarray A 3) (target_img_size : list Z)
  : result (slice * slice * slice) :=
  let x_axis := any_axis0 img in
  let y_axis := any_axis1 img in
  let z_axis := any_axis2 img in
  hh <- first_last (np_where x_axis) ;;
  ww <- first_last (np_where y_axis) ;;
  dd <- first_last (np_where z_axis) ;;
  match shape img with
  | [h; w; d] =>
      t0 <- tuple_index target_img_size 0 ;;
      let sx := expand_axis (fst hh) (snd hh) t0 h in
      t1 <- tuple_index target_img_size 1 ;;
      let sy := expand_axis (fst ww) (snd ww) t1 w in
      t2 <- tuple_index target_img_size 2 ;;
      let sz := expand_axis (fst dd) (snd dd) t2 d in
      Ok (sx, sy, sz)
  | _ => Raise (ValueError "not enough values to unpack")
  end.

(** The first argument of [bounding_volume_offset]: an array, or the
    bounding box given as a sequence. *)
Inductive img_or_bbox (n : nat) : Type :=
| Volume (img : ndarray A n)
| BBox (bbox : list Z).

Arguments Volume {n} img.
Arguments BBox {n} bbox.

Variable n : nat.
(** [FastSurferCNN.data_loader.data_utils.bbox_3d], which this module
    imports from another package: the bounding box of a boolean mask as
    [(min0, max0, min1, max1, ...)]. *)
Variable bbox_3d : ndarray bool n -> result (list Z).

(** [img != 0] *)
Definition mask_of (img : ndarray A n) : ndarray bool n :=
  NdArray (shape img) (nd_map nonzero n (data img)).

(** The offsets before any clamp against the image:
    [max(0, int(round(c - ts / 2)))] with [c = (_max + _min) / 2]. *)
Definition centered_offset (_min _max ts : Z) : Z :=
  let c := (inject_Z (_max + _min) / (2 # 1))%Q in
  Z.max 0 (py_round (c - inject_Z ts / (2 # 1))%Q).

Definition clamp_offset (o ts imgs : Z) : Z := Z.min (Z.max 0 o) (imgs - ts).

(** The bounding box as [(min0, min1, ..., max0, max1, ...)]: computed
    from an array, taken as it is from a sequence. *)
Definition bbox_of (img : img_or_bbox n) : result (list Z) :=
  match img with
  | Volume a => b <- bbox_3d (mask_of a) ;; Ok (evens b ++ odds b)
  | BBox b => Ok b
  end.

(** [image_shape if image_shape is not None else img.shape if
    hasattr(img, "shape") else None] *)
Definition shape_of (img : img_or_bbox n) (image_shape : option (list Z))
  : option (list Z) :=
  match image_shape with
  | Some s => Some s
  | None => match img with
            | Volume a => Some (shape a)
            | BBox _ => None
            end
  end.

(** The first [offset] tuple, from the centers and the target sizes. *)
Definition centered_offsets (bbox target_img_size : list Z) : list Z :=
  let half := (length bbox / 2)%nat in
  let center := combine (firstn half bbox) (skipn half bbox) in
  map (fun cts => centered_offset (fst (fst cts)) (snd (fst cts)) (snd cts))
      (combine center target_img_size).

(** The second [offset] tuple, clamped against the image. *)
Definition clamped_offsets (offset target_img_size img_shape : list Z) : list Z :=
  map (fun t => clamp_offset (fst (fst t)) (snd (fst t)) (snd t))
      (zip3 offset target_img_size img_shape).

Definition bounding_volume_offset (img : img_or_bbox n) (target_img_size : list Z)
    (image_shape : option (list Z)) : result (list Z) :=
  bbox <- bbox_of img ;;
  let offset := centered_offsets bbox target_img_size in
  match shape_of img image_shape with
  | Some img_shape =>
      let offset := clamped_offsets offset target_img_size img_shape in
      if existsb (fun o => o <? 0) offset then
        Raise (RuntimeError "Insufficient image size for target image size")
      else Ok offset
  | None => Ok offset
  end.

End Bounding.

Arguments Volume {A n} img.
Arguments BBox {A n} bbox.

(** ** Text helpers of the LTA reader

    The reader works on the lines of the file with [re.match], [re.sub],
    [re.split], [str.strip], [int] and [float].  Lines are ASCII text. *)

Module Text.

Open Scope char_scope.

Definition is_digit (c : ascii) : bool :=
  (48 <=? nat_of_ascii c)%nat && (nat_of_ascii c <=? 57)%nat.

Definition is_lower (c : ascii) : bool :=
  (97 <=? nat_of_ascii c)%nat && (nat_of_ascii c <=? 122)%nat.

Definition is_upper (c : ascii) : bool :=
  (65 <=? nat_of_ascii c)%nat && (nat_of_ascii c <=? 90)%nat.

(** [\s]: tab, newline, vertical tab, form feed, carriage return, the
    separators 28 to 31 and the space. *)
Definition is_space (c : ascii) : bool :=
  let k := nat_of_ascii c in
  ((9 <=? k)%nat && (k <=? 13)%nat) || ((28 <=? k)%nat && (k <=? 32)%nat).

(** [\w]: letters, digits and the underscore. *)
Definition is_word (c : ascii) : bool :=
  is_digit c || is_lower c || is_upper c || Ascii.eqb c "_".

Definition newline : ascii := ascii_of_nat 10.

(** *** A regular-expression matcher by derivatives, for [re.match] *)

Inductive regex : Type :=
| Void
| Eps
| Class (p : ascii -> bool)
| Cat (r s : regex)
| Alt (r s : regex)
| Star (r : regex).

Definition plus (r : regex) : regex := Cat r (Star r).

Fixpoint nullable (r : regex) : bool :=
  match r with
  | Void => false
  | Eps => true
  | Class _ => false
  | Cat r s => nullable r && nullable s
  | Alt r s => nullable r || nullable s
  | Star _ => true
  end.

Definition cat (r s : regex) : regex :=
  match r, s with
  | Void, _ => Void
  | _, Void => Void
  | Eps, _ => s
  | _, _ => Cat r s
  end.

Definition alt (r s : regex) : regex :=
  match r, s with
  | Void, _ => s
  | _, Void => r
  | _, _ => Alt r s
  end.

Fixpoint deriv (c : ascii) (r : regex) : regex :=
  match r with
  | Void => Void
  | Eps => Void
  | Class p => if p c then Eps else Void
  | Cat r s =>
      if nullable r then alt (cat (deriv c r) s) (deriv c s)
      else cat (deriv c r) s
  | Alt r s => alt (deriv c r) (deriv c s)
  | Star r => cat (deriv c r) (Star r)
  end.

(** [re.match(r, s) is not None]: some prefix of [s] matches [r]. *)
Fixpoint re_match (r : regex) (s : string) : bool :=
  nullable r ||
  match s with
  | EmptyString => false
  | String c s' => re_match (deriv c r) s'
  end.

(** [-*[0-9]\.\S+\W+], one number of a matrix line with what follows it *)
Definition number_re : regex :=
  Cat (Star (Class (Ascii.eqb "-")))
      (Cat (Class is_digit)
           (Cat (Class (Ascii.eqb "."))
                (Cat (plus (Class (fun c => negb (is_space c))))
                     (plus (Class (fun c => negb (is_word c))))))).

(** The pattern that recognises the first line of a matrix block. *)
Definition matrix_line_re : regex :=
  Cat number_re (Cat number_re (Cat number_re number_re)).

(** *** [re.sub] with the patterns of the reader *)

(** [re.sub("#.*", "", s)]: from a [#] to the end of its line. *)
Fixpoint sub_comment_from (in_comment : bool) (s : string) : string :=
  match s with
  | EmptyString => EmptyString
  | String c s' =>
      if Ascii.eqb c newline then String c (sub_comment_from false s')
      else if in_comment then sub_comment_from true s'
      else if Ascii.eqb c "#" then sub_comment_from true s'
      else String c (sub_comment_from false s')
  end.

Definition sub_comment (s : string) : string := sub_comment_from false s.

Fixpoint remove_chars (p : ascii -> bool) (s : string) : string :=
  match s with
  | EmptyString => EmptyString
  | String c s' => if p c then remove_chars p s' else String c (remove_chars p s')
  end.

(** [re.sub("[a-z]+", "", s)] *)
Definition sub_lower (s : string) : string := remove_chars is_lower s.

(** [re.sub("=", "", s)] *)
Definition sub_eq (s : string) : string := remove_chars (Ascii.eqb "=") s.

(** [re.sub(".*=", "", s)]: on every line, all up to its last [=]. *)
Fixpoint sub_upto_eq_from (pending : string) (s : string) : string :=
  match s with
  | EmptyString => pending
  | String c s' =>
      if Ascii.eqb c "=" then sub_upto_eq_from EmptyString s'
      else if Ascii.eqb c newline
           then (pending ++ String c (sub_upto_eq_from EmptyString s'))%string
           else sub_upto_eq_from (pending ++ String c EmptyString)%string s'
  end.

Definition sub_upto_eq (s : string) : string := sub_upto_eq_from EmptyString s.

(** *** [str.strip()] *)

Fixpoint lstrip (s : string) : string :=
  match s with
  | EmptyString => EmptyString
  | String c s' => if is_space c then lstrip s' else s
  end.

Fixpoint rstrip (s : string) : string :=
  match s with
  | EmptyString => EmptyString
  | String c s' =>
      match rstrip s' with
      | EmptyString => if is_space c then EmptyString else String c EmptyString
      | t => String c t
      end
  end.

Definition strip (s : string) : string := rstrip (lstrip s).

(** *** [re.split(" +", s)] *)

Fixpoint split_from (cur : string) (after_space : bool) (s : string) : list string :=
  match s with
  | EmptyString => [cur]
  | String c s' =>
      if Ascii.eqb c " " then
        if after_space then split_from cur true s'
        else cur :: split_from EmptyString true s'
      else split_from (cur ++ String c EmptyString)%string false s'
  end.

Definition split_spaces (s : string) : list string := split_from EmptyString false s.

(** *** [int(s)] and [float(s)] on decimal literals *)

Definition digit_val (c : ascii) : Z := Z.of_nat (nat_of_ascii c - 48).

(** The value of a run of digits, continuing from [acc]. *)
Fixpoint digits_from (acc : Z) (s : string) : option (Z * string) :=
  match s with
  | String c s' =>
      if is_digit c then digits_from (10 * acc + digit_val c) s' else Some (acc, s)
  | EmptyString => Some (acc, s)
  end.

Definition starts_with_digit (s : string) : bool :=
  match s with
  | String c _ => is_digit c
  | EmptyString => false
  end.

(** A leading sign: [true] for [-]. *)
Definition sign_of (s : string) : bool * string :=
  match s with
  | String c s' =>
      if Ascii.eqb c "-" then (true, s')
      else if Ascii.eqb c "+" then (false, s')
      else (false, s)
  | EmptyString => (false, s)
  end.

Definition parse_int (s : string) : option Z :=
  let '(neg, body) := sign_of (strip s) in
  if starts_with_digit body then
    match digits_from 0 body with
    | Some (v, EmptyString) => Some (if neg then - v else v)
    | _ => None
    end
  else None.

(** The exponent part of a float literal, [None] when malformed. *)
Definition parse_exponent (s : string) : option Z :=
  match s with
  | EmptyString => Some 0%Z
  | String c s' =>
      if Ascii.eqb c "e" || Ascii.eqb c "E" then
        let '(neg, body) := sign_of s' in
        if starts_with_digit body then
          match digits_from 0 body with
          | Some (v, EmptyString) => Some (if neg then - v else v)%Z
          | _ => None
          end
        else None
      else None
  end.

(** [float(s)] for a decimal literal
    [[sign] digits [. digits] [e [sign] digits]]: the exact value it
    denotes, in lowest terms.  The spellings of infinities and NaNs and
    digit separators are not literals of this reader. *)
Definition parse_float (s : string) : option Q :=
  let '(neg, body) := sign_of (strip s) in
  match digits_from 0 body with
  | None => None
  | Some (ip, rest) =>
      let int_digits := (String.length body - String.length rest)%nat in
      let '(mant, frac_digits, rest') :=
        match rest with
        | String c r =>
            if Ascii.eqb c "." then
              match digits_from ip r with
              | Some (m, r') => (m, (String.length r - String.length r')%nat, r')
              | None => (ip, O, rest)
              end
            else (ip, O, rest)
        | EmptyString => (ip, O, rest)
        end in
      if Nat.eqb (int_digits + frac_digits) 0 then None
      else
        match parse_exponent rest' with
        | None => None
        | Some e =>
            let scale := (e - Z.of_nat frac_digits)%Z in
            let v := (inject_Z mant * Qpower (10 # 1) scale)%Q in
            Some (Qred (if neg then - v else v)%Q)
        end
  end.

End Text.

(** ** [readLTA]: the reader of linear-transform-array files *)

(** Float values are exact rationals: [float] of a literal is the number it
    denotes and arithmetic is exact.  Binary64 agrees with this on every
    value met in the statements below (integers far below [2^53]). *)
Definition matrix : Type := ndarray Q 2.

(** The entries of one volume-info block, the keys [src_*] or [dst_*]. *)
Record volinfo : Type := VolInfo {
  valid : option Z;
  filename : option (list string);
  volume : option (list Z);
  voxelsize : option (list Q);
  xras : option (list Q);
  yras : option (list Q);
  zras : option (list Q);
  cras : option (list Q)
}.

Definition no_info : volinfo := VolInfo None None None None None None None None.

(** The dictionary [d] while the file is scanned. *)
Record lta_fields : Type := LtaFields {
  type : option Z;
  nxforms : option Z;
  mean : option (list Q);
  sigma : option Q;
  lta : option matrix;
  src_info : volinfo;
  dst_info : volinfo
}.

Definition no_fields : lta_fields := LtaFields None None None None None no_info no_info.

(** The returned dictionary: the scanned entries and the two assembled
    matrices [d["src"]] and [d["dst"]]. *)
Record lta_dict : Type := LtaDict {
  fields : lta_fields;
  src : matrix;
  dst : matrix
}.

Section Reader.

Import Text.

Definition invalid_literal : exn := ValueError "invalid literal".

Definition py_int (s : string) : result Z :=
  match parse_int s with
  | Some v => Ok v
  | None => Raise invalid_literal
  end.

Definition py_float (s : string) : result Q :=
  match parse_float s with
  | Some v => Ok v
  | None => Raise invalid_literal
  end.

(** [[f(x) for x in xs]] *)
Fixpoint for_each {X Y : Type} (f : X -> result Y) (xs : list X) : result (list Y) :=
  match xs with
  | [] => Ok []
  | x :: xs' => y <- f x ;; ys <- for_each f xs' ;; Ok (y :: ys)
  end.

(** The right-hand side of a top-level [key value] line:
    [re.sub("=", "", re.sub("[a-z]+", "", re.sub("#.*", "", l))).strip()] *)
Definition top_value (l : string) : string :=
  strip (sub_eq (sub_lower (sub_comment l))).

(** The right-hand side inside a volume-info block:
    [re.sub(".*=", "", re.sub("#.*", "", l)).strip()] *)
Definition info_value (l : string) : string :=
  strip (sub_upto_eq (sub_comment l)).

Definition floats_of (s : string) : result (list Q) :=
  for_each py_float (split_spaces s).

Definition ints_of (s : string) : result (list Z) :=
  for_each py_int (split_spaces s).

(** One row of a matrix block: the line must match the pattern, and the
    whole stripped line is split into floats. *)
Definition matrix_row (l : string) : result (list Q) :=
  if re_match matrix_line_re l then floats_of (strip l)
  else Raise (AttributeError "'NoneType' object has no attribute 'string'").

(** [np.array(rows)] for a list of rows of floats. *)
Definition np_array2 (rows : list (list Q)) : result matrix :=
  match rows with
  | [] => Ok (NdArray [0%Z] (rows : nd Q 2))
  | r :: _ =>
      if forallb (fun r' => Nat.eqb (length r') (length r)) rows
      then Ok (NdArray [Z.of_nat (length rows); Z.of_nat (length r)] (rows : nd Q 2))
      else Raise (ValueError "inhomogeneous shape")
  end.

(** The body of the loop over a volume-info block, for one line. *)
Definition info_line (v : volinfo) (l : string) : result volinfo :=
  if prefix "valid" l then
    x <- py_int (info_value l) ;;
    Ok (VolInfo (Some x) (filename v) (volume v) (voxelsize v)
                (xras v) (yras v) (zras v) (cras v))
  else if prefix "filename" l then
    Ok (VolInfo (valid v) (Some (split_spaces (info_value l))) (volume v) (voxelsize v)
                (xras v) (yras v) (zras v) (cras v))
  else if prefix "volume" l then
    x <- ints_of (info_value l) ;;
    Ok (VolInfo (valid v) (filename v) (Some x) (voxelsize v)
                (xras v) (yras v) (zras v) (cras v))
  else if prefix "voxelsize" l then
    x <- floats_of (info_value l) ;;
    Ok (VolInfo (valid v) (filename v) (volume v) (Some x)
                (xras v) (yras v) (zras v) (cras v))
  else if prefix "xras" l then
    x <- floats_of (info_value l) ;;
    Ok (VolInfo (valid v) (filename v) (volume v) (voxelsize v)
                (Some x) (yras v) (zras v) (cras v))
  else if prefix "yras" l then
    x <- floats_of (info_value l) ;;
    Ok (VolInfo (valid v) (filename v) (volume v) (voxelsize v)
                (xras v) (Some x) (zras v) (cras v))
  else if prefix "zras" l then
    x <- floats_of (info_value l) ;;
    Ok (VolInfo (valid v) (filename v) (volume v) (voxelsize v)
                (xras v) (yras v) (Some x) (cras v))
  else if prefix "cras" l then
    x <- floats_of (info_value l) ;;
    Ok (VolInfo (valid v) (filename v) (volume v) (voxelsize v)
                (xras v) (yras v) (zras v) (Some x))
  else Ok v.

Definition set_src (d : lta_fields) (v : volinfo) : lta_fields :=
  LtaFields (type d) (nxforms d) (mean d) (sigma d) (lta d) v (dst_info d).

Definition set_dst (d : lta_fields) (v : volinfo) : lta_fields :=
  LtaFields (type d) (nxforms d) (mean d) (sigma d) (lta d) (src_info d) v.

(** The scanning loop [while i < len(lta)], on the lines from index [i]
    on.  The two inner loops run over a volume-info block up to the header
    of the other block, where the outer loop takes over again. *)
Fixpoint scan (lines : list string) (d : lta_fields) {struct lines}
  : result lta_fields :=
  match lines with
  | [] => Ok d
  | l :: rest =>
      if prefix "type" l then
        x <- py_int (top_value l) ;;
        scan rest (LtaFields (Some x) (nxforms d) (mean d) (sigma d) (lta d)
                             (src_info d) (dst_info d))
      else if prefix "nxforms" l then
        x <- py_int (top_value l) ;;
        scan rest (LtaFields (type d) (Some x) (mean d) (sigma d) (lta d)
                             (src_info d) (dst_info d))
      else if prefix "mean" l then
        x <- floats_of (top_value l) ;;
        scan rest (LtaFields (type d) (nxforms d) (Some x) (sigma d) (lta d)
                             (src_info d) (dst_info d))
      else if prefix "sigma" l then
        x <- py_float (top_value l) ;;
        scan rest (LtaFields (type d) (nxforms d) (mean d) (Some x) (lta d)
                             (src_info d) (dst_info d))
      else if re_match matrix_line_re l then
        r0 <- floats_of (strip l) ;;
        match rest with
        | l1 :: l2 :: l3 :: rest' =>
            r1 <- matrix_row l1 ;;
            r2 <- matrix_row l2 ;;
            r3 <- matrix_row l3 ;;
            m <- np_array2 [r0; r1; r2; r3] ;;
            scan rest' (LtaFields (type d) (nxforms d) (mean d) (sigma d) (Some m)
                                  (src_info d) (dst_info d))
        | _ => Raise (IndexError "list index out of range")
        end
      else if prefix "src volume info" l then
        v <- info_line (src_info d) l ;;
        (fix src_block (ls : list string) (v : volinfo) {struct ls}
           : result lta_fields :=
           match ls with
           | [] => Ok (set_src d v)
           | x :: ls' =>
               if prefix "dst volume info" x then scan ls (set_src d v)
               else v' <- info_line v x ;; src_block ls' v'
           end) rest v
      else if prefix "dst volume info" l then
        v <- info_line (dst_info d) l ;;
        (fix dst_block (ls : list string) (v : volinfo) {struct ls}
           : result lta_fields :=
           match ls with
           | [] => Ok (set_dst d v)
           | x :: ls' =>
               if prefix "src volume info" x then scan ls (set_dst d v)
               else v' <- info_line v x ;; dst_block ls' v'
           end) rest v
      else scan rest d
  end.

(** [d[key]] *)
Definition lookup {X : Type} (key : string) (o : option X) : result X :=
  match o with
  | Some x => Ok x
  | None => Raise (KeyError key)
  end.

(** [np.concatenate((np.c_[x], np.c_[y], np.c_[z], np.c_[c]), axis=1)]
    followed by the row [[0, 0, 0, 1]]: the four vectors become the
    columns of the matrix. *)
Definition vox2ras_of (x y z c : list Q) : result matrix :=
  let k := length x in
  if Nat.eqb (length y) k && Nat.eqb (length z) k && Nat.eqb (length c) k then
    let rows := map (fun i => [nth i x 0%Q; nth i y 0%Q; nth i z 0%Q; nth i c 0%Q])
                    (seq 0 k) in
    Ok (NdArray [Z.of_nat k + 1; 4%Z]
                ((rows ++ [[0%Q; 0%Q; 0%Q; 1%Q]]) : nd Q 2))
  else Raise (ValueError "all the input array dimensions must match exactly").

Definition assemble (prefix_ : string) (v : volinfo) : result matrix :=
  x <- lookup (prefix_ ++ "_xras") (xras v) ;;
  y <- lookup (prefix_ ++ "_yras") (yras v) ;;
  z <- lookup (prefix_ ++ "_zras") (zras v) ;;
  c <- lookup (prefix_ ++ "_cras") (cras v) ;;
  vox2ras_of x y z c.

(** [readLTA], from the lines given by [f.readlines()]. *)
Definition readLTA (lta_lines : list string) : result lta_dict :=
  d <- scan lta_lines no_fields ;;
  s <- assemble "src" (src_info d) ;;
  t <- assemble "dst" (dst_info d) ;;
  Ok (LtaDict d s t).

End Reader.

(** ** [load_talairach_coordinates]: the coordinate field of a volume *)

(** *** Matrices *)

Definition dot (u v : list Q) : Q :=
  fold_left Qplus (map (fun p => fst p * snd p)%Q (combine u v)) 0%Q.

Definition column (j : nat) (rows : list (list Q)) : list Q :=
  map (fun row => nth j row 0%Q) rows.

(** [a.transpose()] *)
Definition transpose (a : matrix) : matrix :=
  match shape a with
  | [r; c] => NdArray [c; r] (map (fun j => column j (data a)) (seq 0 (Z.to_nat c)) : nd Q 2)
  | _ => a
  end.

(** [np.matmul(a, b)] *)
Definition matmul (a b : matrix) : result matrix :=
  match shape a, shape b with
  | [r; k], [k'; c] =>
      if k =? k' then
        Ok (NdArray [r; c]
              (map (fun row => map (fun j => dot row (column j (data b)))
                                   (seq 0 (Z.to_nat c)))
                   (data a) : nd Q 2))
      else Raise (ValueError "matmul: mismatch in its core dimension")
  | _, _ => Raise (ValueError "matmul: input operand is not a matrix")
  end.

(** [np.arange(k)] *)
Definition arange (k : Z) : list Z := map Z.of_nat (seq 0 (Z.to_nat k)).

(** [x.flatten()], [y.flatten()] and [z.flatten()] for
    [x, y, z = np.meshgrid(a, b, c, indexing="ij")] *)
Definition meshgrid_flat (a b c : list Z) : list Z * list Z * list Z :=
  (flat_map (fun i => flat_map (fun j => map (fun k => i) c) b) a,
   flat_map (fun i => flat_map (fun j => map (fun k => j) c) b) a,
   flat_map (fun i => flat_map (fun j => map (fun k => k) c) b) a).

(** [np.concatenate((p, np.ones((p.shape[0], 1))), axis=1)] *)
Definition append_ones (p : matrix) : matrix :=
  match shape p with
  | [r; c] => NdArray [r; c + 1] (map (fun row => row ++ [1%Q]) (data p) : nd Q 2)
  | _ => p
  end.

(** *** [reshape]: a flat list of values cut to a shape, in C order *)

Fixpoint chunks {X : Type} (k size : nat) (l : list X) : list (list X) :=
  match k with
  | O => []
  | S k' => firstn size l :: chunks k' size (skipn size l)
  end.

Definition prod_shape (sh : list Z) : Z := fold_right Z.mul 1 sh.

Fixpoint unflatten {X : Type} (n : nat) (sh : list Z) (dflt : X) (flat : list X)
  : nd X n :=
  match n return nd X n with
  | O => hd dflt flat
  | S m =>
      match sh with
      | [] => []
      | k :: rest =>
          map (unflatten m rest dflt)
              (chunks (Z.to_nat k) (Z.to_nat (prod_shape rest)) flat)
      end
  end.

(** *** [astype(np.float16)] *)

(** A binary16 value: a finite number, or an infinity. *)
Inductive float16 : Type :=
| F16 (v : Q)
| F16inf (negative : bool).

(** [floor(log2(a))] for a positive rational. *)
Definition floor_log2 (a : Q) : Z :=
  let k := Z.log2 (Qnum a) - Z.log2 (Zpos (Qden a)) in
  if Qle_bool (Qpower (2 # 1) k) a then k else k - 1.

(** Round to the nearest binary16 number, a tie going to the even
    significand: 11 significant bits, least exponent -14, and an overflow
    from 65520 on. *)
Definition to_float16 (x : Q) : float16 :=
  let x := Qred x in
  if Qeq_bool x 0 then F16 0%Q
  else
    let negative := Qnum x <? 0 in
    let a := Qabs x in
    let e := Z.max (-14) (floor_log2 a) in
    let ulp := Qpower (2 # 1) (e - 10) in
    let r := (inject_Z (py_round (a / ulp)) * ulp)%Q in
    if Qle_bool 65520%Q r then F16inf negative
    else F16 (Qred (if negative then - r else r)%Q).

(** *** The coordinate field

    [img_shape] is a shape of three non-negative extents. *)

Definition load_talairach_coordinates (tala_lines : list string)
    (img_shape : Z * Z * Z) (vox2ras : matrix) : result (ndarray float16 4) :=
  let '(s0, s1, s2) := img_shape in
  tala_lta <- readLTA tala_lines ;;
  let '(x, y, z) := meshgrid_flat (arange s0) (arange s1) (arange s2) in
  let npoints := Z.of_nat (length x) in
  let p := transpose (NdArray [3; npoints]
                        ([map inject_Z x; map inject_Z y; map inject_Z z] : nd Q 2)) in
  let p1 := append_ones p in
  ty <- lookup "type" (type (fields tala_lta)) ;;
  if negb (ty =? 1) then Raise (AssertionError "talairach not in ras2ras")
  else
    l <- lookup "lta" (lta (fields tala_lta)) ;;
    m <- matmul l vox2ras ;;
    mp <- matmul m (transpose p1) ;;
    let tala_coordinates := transpose mp in
    let tala_coordinates := getitem tala_coordinates [PySlice.all; Slice None (Some (-1))] in
    let target := [s0; s1; s2; 3] in
    if forallb (fun k => 0 <=? k) target
       && (prod_shape (shape tala_coordinates) =? prod_shape target)
    then
      Ok (NdArray target
            (nd_map to_float16 4
               (unflatten 4 target 0%Q (concat (data tala_coordinates)))))
    else Raise (ValueError "cannot reshape array").

(** [field[x, y, z]]: the three coordinates stored for a voxel. *)
Definition field_at (field : ndarray float16 4) (x y z : nat) : list float16 :=
  nth z (nth y (nth x (data field) []) []) [].

(** ** Vocabulary of the statements *)

(** An axis described by its extent and the widths padded before and after
    it, with the pad pair and the border pair that go with it. *)
Definition ax_extent (t : Z * Z * Z) : Z := fst (fst t).
Definition ax_pad (t : Z * Z * Z) : Z * Z := (snd (fst t), snd t).
Definition ax_border (t : Z * Z * Z) : Z * Z :=
  (snd (fst t), snd (fst t) + fst (fst t)).
Definition border_slice (b : Z * Z) : slice := range (fst b) (snd b).

(** The axes of [map_size] when nothing is cropped. *)
Definition pad_axis (ij : Z * Z) : Z * Z * Z :=
  let delta := fst ij - snd ij in
  (fst ij, - (delta / 2), delta / 2 - delta).

(** The value stored at a voxel of a volume. *)
Definition voxel {A : Type} (img : ndarray A 3) (x y z : nat) : option A :=
  match nth_error (data img) x with
  | Some plane =>
      match nth_error plane y with
      | Some row => nth_error row z
      | None => None
      end
  | None => None
  end.

(** ** Example inputs *)

Definition int_nonzero (v : Z) : bool := negb (v =? 0).

Definition vol_2x1x1 : ndarray Z 3 := @NdArray Z 3 [2; 1; 1] [[[7]]; [[9]]].

Definition vol_4x1x1 : ndarray Z 3 := @NdArray Z 3 [4; 1; 1] [[[1]]; [[2]]; [[3]]; [[4]]].

Definition vol_3x1x1_ends : ndarray Z 3 := @NdArray Z 3 [3; 1; 1] [[[1]]; [[0]]; [[1]]].

Definition vol_2x2x2 : ndarray Z 3 :=
  @NdArray Z 3 [2; 2; 2] [[[1; 2]; [3; 4]]; [[5; 6]; [7; 8]]].

(** Cropping by one slice per axis and then padding where a width is not
    zero: the shared last step of [map_size] and [crop_transform]. *)
Definition apply_plan {A : Type} {n : nat} (image : ndarray A n)
    (plan : list (slice * (Z * Z))) (pad : A) : result (ndarray A n) :=
  let cropped := getitem image (map fst plan) in
  if any_nonzero (map snd plan) then np_pad cropped (map snd plan) pad
  else Ok cropped.

(** The plan of [crop_transform] with its default offsets, for target
    extents [ts] on axes of extents [sh]. *)
Definition centered_plan (ts sh : list Z) : list (slice * (Z * Z)) :=
  map (fun ti => make_indices_axis (default_offset (fst ti) (snd ti)) (fst ti) (snd ti))
      (combine ts sh).

(** The plan of [map_size]. *)
Definition map_size_plan (sh base_shape : list Z) : list (slice * (Z * Z)) :=
  map (fun ij => fst (map_size_axis (fst ij) (snd ij))) (combine sh base_shape).

(** The shape left by a plan on axes of extents [sh]. *)
Definition plan_shape (plan : list (slice * (Z * Z))) (sh : list Z) : list Z :=
  pad_shape (map snd plan) (getitem_shape (map fst plan) sh).

(** Two slices that select the same range of an axis of extent [k], and
    two index tuples that do so on every axis of a shape. *)
Definition same_on (k : Z) (s s' : slice) : Prop := indices s k = indices s' k.

Inductive same_selection : list Z -> list slice -> list slice -> Prop :=
| same_nil : forall sh, same_selection sh [] []
| same_cons : forall k sh s s' idx idx',
    same_on k s s' -> same_selection sh idx idx' ->
    same_selection (k :: sh) (s :: idx) (s' :: idx').

(** A voxel holding a non-zero value. *)
Definition occupied {A : Type} (nonzero : A -> bool) (img : ndarray A 3)
    (x y z : nat) : Prop :=
  exists v, voxel img x y z = Some v /\ nonzero v = true.

(** [round(s / 2)] for an integer [s], a tie going to the even integer. *)
Definition round_half (s : Z) : Z :=
  if Z.even s then s / 2 else if Z.even (s / 2) then s / 2 else s / 2 + 1.

(** [m[i, j]] *)
Definition mat_entry (m : matrix) (i j : nat) : option Q :=
  match nth_error (data m) i with
  | Some row => nth_error row j
  | None => None
  end.

(** The 4x4 identity matrix. *)
Definition identity4 : matrix :=
  @NdArray Q 2 [4; 4]
    [[1%Q; 0%Q; 0%Q; 0%Q]; [0%Q; 1%Q; 0%Q; 0%Q];
     [0%Q; 0%Q; 1%Q; 0%Q]; [0%Q; 0%Q; 0%Q; 1%Q]].

(** The reading "orientation block scaled by the voxel size": entry
    [(i, j)] of the upper-left 3x3 block is component [i] of the [j]-th
    orientation vector times the [j]-th voxel size. *)
Definition scaled_by_voxelsize (m : matrix) (v : volinfo) : Prop :=
  exists vs x y z,
    voxelsize v = Some vs /\ xras v = Some x /\ yras v = Some y /\ zras v = Some z
    /\ forall i j : nat,
        (i < 3)%nat -> (j < 3)%nat ->
        exists e, mat_entry m i j = Some e
                  /\ (e == nth j vs 0 * nth i (nth j [x; y; z] []) 0)%Q.

(** A transform file of type 1 with one identity matrix block, axis-aligned
    orientation vectors and zero centers; the source voxels are 2 mm wide. *)
Definition lta_identity_file : list string :=
  map (fun s => (s ++ String Text.newline EmptyString)%string)
    ["type      = 1 # LINEAR_RAS_TO_RAS";
     "nxforms   = 1";
     "mean      = 0.0000 0.0000 0.0000";
     "sigma     = 1.0000";
     "1 4 4";
     "1.000000000000000e+00 0.000000000000000e+00 0.000000000000000e+00 0.000000000000000e+00 ";
     "0.000000000000000e+00 1.000000000000000e+00 0.000000000000000e+00 0.000000000000000e+00 ";
     "0.000000000000000e+00 0.000000000000000e+00 1.000000000000000e+00 0.000000000000000e+00 ";
     "0.000000000000000e+00 0.000000000000000e+00 0.000000000000000e+00 1.000000000000000e+00 ";
     "src volume info";
     "valid = 1  # volume info valid";
     "filename = orig.mgz";
     "volume = 256 256 256";
     "voxelsize = 2.000000000000000e+00 2.000000000000000e+00 2.000000000000000e+00";
     "xras   = 1.000000000000000e+00 0.000000000000000e+00 0.000000000000000e+00";
     "yras   = 0.000000000000000e+00 1.000000000000000e+00 0.000000000000000e+00";
     "zras   = 0.000000000000000e+00 0.000000000000000e+00 1.000000000000000e+00";
     "cras   = 0.000000000000000e+00 0.000000000000000e+00 0.000000000000000e+00";
     "dst volume info";
     "valid = 1  # volume info valid";
     "filename = talairach.mgz";
     "volume = 256 256 256";
     "voxelsize = 1.000000000000000e+00 1.000000000000000e+00 1.000000000000000e+00";
     "xras   = 1.000000000000000e+00 0.000000000000000e+00 0.000000000000000e+00";
     "yras   = 0.000000000000000e+00 1.000000000000000e+00 0.000000000000000e+00";
     "zras   = 0.000000000000000e+00 0.000000000000000e+00 1.000000000000000e+00";
     "cras   = 0.000000000000000e+00 0.000000000000000e+00 0.000000000000000e+00";
     "subject fsaverage";
     "fscale 0.100000"]%string.

(** [m] has the vectors [x], [y], [z] and [c] as its four columns, over
    the row [[0, 0, 0, 1]]. *)
Definition columns_over_bottom_row (m : matrix) (x y z c : list Q) : Prop :=
  length y = length x /\ length z = length x /\ length c = length x
  /\ shape m = [Z.of_nat (length x) + 1; 4]
  /\ (forall i : nat,
         (i < length x)%nat ->
         mat_entry m i 0 = nth_error x i /\ mat_entry m i 1 = nth_error y i
         /\ mat_entry m i 2 = nth_error z i /\ mat_entry m i 3 = nth_error c i)
  /\ nth_error (data m) (length x) = Some [0%Q; 0%Q; 0%Q; 1%Q].

(** The matrix assembled for a volume-info block is made of the block's
    own orientation and center vectors. *)
Definition assembled_from (m : matrix) (v : volinfo) : Prop :=
  exists x y z c,
    xras v = Some x /\ yras v = Some y /\ zras v = Some z /\ cras v = Some c
    /\ columns_over_bottom_row m x y z c.

(** The voxel index grid in C order, and a voxel index as a homogeneous
    coordinate vector. *)
Definition grid (a b c : list Z) : list (Z * Z * Z) :=
  flat_map (fun i => flat_map (fun j => map (fun k => (i, j, k)) c) b) a.

Definition homogeneous (p : Z * Z * Z) : list Q :=
  [inject_Z (fst (fst p)); inject_Z (snd (fst p)); inject_Z (snd p); 1%Q].

(** The mapped coordinates of a voxel under the 4x4 matrix [m]: the first
    three components of [m] applied to the homogeneous index. *)
Definition mapped (m : matrix) (p : Z * Z * Z) : list Q :=
  map (fun row => dot row (homogeneous p)) (firstn 3 (data m)).

(** The error of [crop_transform] for missing arguments. *)
Definition invalid_arguments : exn :=
  ValueError "Either target_shape or offsets must be defined!".

(** Modelled from the spec: [bbox_3d] of
    [FastSurferCNN.data_loader.data_utils] is not part of this module.  The
    bounding box of the non-zero region holds, per axis, the least and the
    greatest index at which any value of the mask is set, here in the order
    [(min0, max0, min1, max1, min2, max2)]. *)
Definition bbox_3d_of_mask (mask : ndarray bool 3) : result (list Z) :=
  r <- first_last (np_where (any_axis0 (fun b : bool => b) mask)) ;;
  c <- first_last (np_where (any_axis1 (fun b : bool => b) mask)) ;;
  z <- first_last (np_where (any_axis2 (fun b : bool => b) mask)) ;;
  Ok [fst r; snd r; fst c; snd c; fst z; snd z].

(** ** Label look-up tables: [map_label2subseg] and [map_subseg2label] *)

(** [CLASS_NAMES], in the order the dictionary is written. *)
Definition CLASS_NAMES : list (string * Z) :=
  [("Background", 0); ("Left_I_IV", 1); ("Right_I_IV", 2); ("Left_V", 3);
   ("Right_V", 4); ("Left_VI", 5); ("Vermis_VI", 6); ("Right_VI", 7);
   ("Left_CrusI", 8); ("Right_CrusI", 10); ("Left_CrusII", 11);
   ("Right_CrusII", 13); ("Left_VIIb", 14); ("Right_VIIb", 16);
   ("Vermis_VII", 12); ("Left_VIIIa", 17); ("Right_VIIIa", 19);
   ("Left_VIIIb", 20); ("Right_VIIIb", 22); ("Vermis_VIII", 18);
   ("Left_IX", 23); ("Vermis_IX", 24); ("Right_IX", 25); ("Left_X", 26);
   ("Vermis_X", 27); ("Right_X", 28); ("Left_Corpus_Medullare", 37);
   ("Right_Corpus_Medullare", 38)]%string.

(** [subseg_labels[label_type]]: the one entry is [cereb_subseg], the array
    of the values of [CLASS_NAMES]. *)
Definition subseg_labels (label_type : string) : result (list Z) :=
  if String.eqb label_type "cereb_subseg" then Ok (map snd CLASS_NAMES)
  else Raise (KeyError label_type).

(** An index into an axis of [len] entries: a negative index counts from
    the end, an index outside [-len, len) is an error. *)
Definition np_index (len : nat) (i : Z) : result nat :=
  if (0 <=? i) && (i <? Z.of_nat len) then Ok (Z.to_nat i)
  else if (- Z.of_nat len <=? i) && (i <? 0) then Ok (Z.to_nat (i + Z.of_nat len))
  else Raise (IndexError "index is out of bounds").

(** [table[i]] for one integer index. *)
Definition np_take (table : list Z) (i : Z) : result Z :=
  k <- np_index (length table) i ;;
  Ok (nth k table 0).

(** [l[k] = v] on a list, for a position inside it. *)
Fixpoint list_set {X : Type} (l : list X) (k : nat) (v : X) : list X :=
  match l, k with
  | [], _ => []
  | _ :: l', O => v :: l'
  | x :: l', S k' => x :: list_set l' k' v
  end.

(** [table[i] = v] *)
Definition np_put (table : list Z) (i v : Z) : result (list Z) :=
  k <- np_index (length table) i ;;
  Ok (list_set table k v).

(** [max(lbls)] *)
Definition py_max (l : list Z) : result Z :=
  match l with
  | [] => Raise (ValueError "max() arg is an empty sequence")
  | x :: l' => Ok (fold_left Z.max l' x)
  end.

(** The inverse table of [map_subseg2label]: zeros of length
    [max(lbls) + 1], then [lut_subseg[value] = idx] for every label in
    turn. *)
Fixpoint fill_lut (lut : list Z) (idx : Z) (lbls : list Z) : result (list Z) :=
  match lbls with
  | [] => Ok lut
  | value :: rest =>
      lut' <- np_put lut value idx ;;
      fill_lut lut' (idx + 1) rest
  end.

Definition lut_of (lbls : list Z) : result (list Z) :=
  m <- py_max lbls ;;
  fill_lut (repeat 0 (Z.to_nat (m + 1))) 0 lbls.

(** [a.ravel()] of a volume. *)
Definition ravel {X : Type} (a : ndarray X 3) : list X := concat (concat (data a)).

(** [table[a.ravel()].reshape((h, w, d))] with [h, w, d = a.shape]. *)
Definition take_volume (table : list Z) (a : ndarray Z 3) : result (ndarray Z 3) :=
  match shape a with
  | [h; w; d] =>
      flat <- for_each (np_take table) (ravel a) ;;
      if Z.of_nat (length flat) =? h * w * d
      then Ok (@NdArray Z 3 [h; w; d] (unflatten 3 [h; w; d] 0 flat))
      else Raise (ValueError "cannot reshape array")
  | _ => Raise (ValueError "not enough values to unpack")
  end.

Definition map_label2subseg (mapped_subseg : ndarray Z 3) (label_type : string)
  : result (ndarray Z 3) :=
  labels <- subseg_labels label_type ;;
  take_volume labels mapped_subseg.

Definition map_subseg2label (subseg : ndarray Z 3) (label_type : string)
  : result (ndarray Z 3) :=
  match shape subseg with
  | [_; _; _] =>
      lbls <- subseg_labels label_type ;;
      lut_subseg <- lut_of lbls ;;
      take_volume lut_subseg subseg
  | _ => Raise (ValueError "not enough values to unpack")
  end.

(** The values of [CLASS_NAMES], and the class of a label value: its
    position among them, or 0 when it is none of them. *)
Definition label_values : list Z := map snd CLASS_NAMES.

Fixpoint position_of (v : Z) (l : list Z) : option Z :=
  match l with
  | [] => None
  | x :: l' => if v =? x then Some 0
               else match position_of v l' with
                    | Some k => Some (k + 1)
                    | None => None
                    end
  end.

Definition class_of (v : Z) : Z :=
  match position_of v label_values with
  | Some k => k
  | None => 0
  end.

(** [labels[i]] for a class [i]. *)
Definition label_at (i : Z) : Z := nth (Z.to_nat i) label_values 0.

(** Every voxel value of a volume satisfies [P]; some voxel value does. *)
Definition all_voxels {X : Type} (P : X -> Prop) (a : ndarray X 3) : Prop :=
  Forall P (ravel a).

Definition some_voxel {X : Type} (P : X -> Prop) (a : ndarray X 3) : Prop :=
  Exists P (ravel a).

Definition vol_labels : ndarray Z 3 := @NdArray Z 3 [2; 1; 2] [[[0; 38]]; [[10; 12]]].
Definition vol_classes : ndarray Z 3 := @NdArray Z 3 [2; 1; 2] [[[0; 27]]; [[9; 14]]].
Definition vol_label_39 : ndarray Z 3 := @NdArray Z 3 [1; 1; 2] [[[0; 39]]].

(** The table [lut_subseg] that [map_subseg2label] builds from
    [CLASS_NAMES]. *)
Definition lut_subseg : list Z :=
  [0; 1; 2; 3; 4; 5; 6; 7; 8; 0; 9; 10; 14; 11; 12; 0; 13; 15; 19; 16; 17; 0; 18;
   20; 21; 22; 23; 24; 25; 0; 0; 0; 0; 0; 0; 0; 0; 26; 27].


(** ** Voxelwise reading of a crop / pad plan *)

(** [img[x, y, z]] for integer indices, and [pad] outside the volume. *)
Definition voxel_or {A : Type} (img : ndarray A 3) (pad : A) (x y z : Z) : A :=
  if (0 <=? x) && (0 <=? y) && (0 <=? z) then
    match voxel img (Z.to_nat x) (Z.to_nat y) (Z.to_nat z) with
    | Some v => v
    | None => pad
    end
  else pad.

(** One axis of a plan, on an axis of extent [i]: the selection [lo, hi)
    and the pad widths [(b, a)] leave [t] entries, entry [k] of which is
    entry [k + o] of the input where that exists. *)
Definition axis_shift (p : slice * (Z * Z)) (i t o : Z) : Prop :=
  let lo := fst (indices (fst p) i) in
  let hi := snd (indices (fst p) i) in
  let b := fst (snd p) in
  let a := snd (snd p) in
  0 <= lo <= hi /\ hi <= i /\ 0 <= b /\ 0 <= a
  /\ b + (hi - lo) + a = t /\ lo - b = o
  /\ (b = 0 \/ lo = 0) /\ (a = 0 \/ hi = i).

(** The axes of [crop_transform] with default offsets when nothing is
    cropped: the extent and the widths padded before and after it. *)
Definition centered_pad_axis (it : Z * Z) : Z * Z * Z :=
  let o := default_offset (snd it) (fst it) in
  (fst it, - o, o + snd it - fst it).

Definition vol_blank : ndarray Z 3 := @NdArray Z 3 [2; 1; 2] [[[0; 0]]; [[0; 0]]].

(** A transform file with a matrix block and a destination block only. *)
Definition lta_file_without_src : list string :=
  map (fun s => (s ++ String Text.newline EmptyString)%string)
    ["type      = 1";
     "dst volume info";
     "xras   = 1.0 0.0 0.0";
     "yras   = 0.0 1.0 0.0";
     "zras   = 0.0 0.0 1.0";
     "cras   = 0.0 0.0 0.0"]%string.

(** ** [filter_blank_slices_thick]: dropping the blank slices

    The dictionary maps names to volumes.  A volume is a 3-D array, or a
    4-D array such as the thick-slice images stored under ["orig"] and
    ["native_img"]; values are integers, so that the sums are exact.  The
    dictionary keeps the order of its keys; the function updates it in place
    and returns it, which is modelled by returning the updated dictionary. *)

Inductive dict_volume : Type :=
| Vol3 (a : ndarray Z 3)
| Vol4 (a : ndarray Z 4).

Definition data_dict : Type := list (string * dict_volume).

(** [data_dict[key]] *)
Fixpoint dict_get (d : data_dict) (key : string) : result dict_volume :=
  match d with
  | [] => Raise (KeyError key)
  | (k, v) :: d' => if String.eqb k key then Ok v else dict_get d' key
  end.

Definition zsum (l : list Z) : Z := fold_right Z.add 0 l.

(** A boolean index array of rank 1, or of rank 2 with its shape. *)
Inductive mask : Type :=
| Mask1 (m : list bool)
| Mask2 (d c : Z) (m : list (list bool)).

(** [np.sum(vol, axis=(0, 1))]: one sum per index of axis 2 for a 3-D
    array, one per pair of indices of axes 2 and 3 for a 4-D array. *)
Definition sum_axes01_3 (a : ndarray Z 3) : list Z :=
  map (fun k => zsum (map (fun plane => zsum (map (fun row => nth k row 0) plane))
                          (data a)))
      (seq 0 (Z.to_nat (nth 2 (shape a) 0))).

Definition sum_axes01_4 (a : ndarray Z 4) : list (list Z) :=
  map (fun k =>
         map (fun c =>
                zsum (map (fun plane =>
                             zsum (map (fun row => nth c (nth k row []) 0) plane))
                          (data a)))
             (seq 0 (Z.to_nat (nth 3 (shape a) 0))))
      (seq 0 (Z.to_nat (nth 2 (shape a) 0))).

(** [np.sum(vol, axis=(0, 1)) > threshold] *)
Definition select_slices_of (vol : dict_volume) (threshold : Z) : mask :=
  match vol with
  | Vol3 a => Mask1 (map (fun s => threshold <? s) (sum_axes01_3 a))
  | Vol4 a => Mask2 (nth 2 (shape a) 0) (nth 3 (shape a) 0)
                    (map (map (fun s => threshold <? s)) (sum_axes01_4 a))
  end.

(** The entries of [l] at which [m] holds [True]. *)
Fixpoint select {X : Type} (m : list bool) (l : list X) : list X :=
  match m, l with
  | b :: m', x :: l' => if b then x :: select m' l' else select m' l'
  | _, _ => []
  end.

Definition count_true (m : list bool) : Z :=
  Z.of_nat (length (filter (fun b : bool => b) m)).

Definition too_many_indices : exn := IndexError "too many indices for array".
Definition mask_mismatch : exn :=
  IndexError "boolean index did not match indexed array".

(** [vol[:, :, select_slices]], and with [trailing] the index
    [vol[:, :, select_slices, :]]: the mask takes as many axes from axis 2
    on as it has, and must have their extents. *)
Definition take_slices (vol : dict_volume) (m : mask) (trailing : bool) : result dict_volume :=
  match vol, m with
  | Vol3 a, Mask1 m1 =>
      if trailing then Raise too_many_indices
      else match shape a with
           | [h; w; d] =>
               if Z.of_nat (length m1) =? d
               then Ok (Vol3 (@NdArray Z 3 [h; w; count_true m1]
                                (map (map (select m1)) (data a))))
               else Raise mask_mismatch
           | _ => Raise mask_mismatch
           end
  | Vol3 _, Mask2 _ _ _ => Raise too_many_indices
  | Vol4 a, Mask1 m1 =>
      match shape a with
      | [h; w; d; c] =>
          if Z.of_nat (length m1) =? d
          then Ok (Vol4 (@NdArray Z 4 [h; w; count_true m1; c]
                           (map (map (select m1)) (data a))))
          else Raise mask_mismatch
      | _ => Raise mask_mismatch
      end
  | Vol4 a, Mask2 md mc m2 =>
      if trailing then Raise too_many_indices
      else match shape a with
           | [h; w; d; c] =>
               if (md =? d) && (mc =? c)
               then Ok (Vol3 (@NdArray Z 3 [h; w; count_true (concat m2)]
                                (map (map (fun row => select (concat m2) (concat row)))
                                     (data a))))
               else Raise mask_mismatch
           | _ => Raise mask_mismatch
           end
  end.

(** The loop over [data_dict.items()]. *)
Fixpoint filter_items (items : data_dict) (m : mask) : result data_dict :=
  match items with
  | [] => Ok []
  | (name, vol) :: rest =>
      vol' <- take_slices vol m (String.eqb name "orig" || String.eqb name "native_img") ;;
      rest' <- filter_items rest m ;;
      Ok ((name, vol') :: rest')
  end.

Definition filter_blank_slices_thick (d : data_dict) (threshold : Z) : result data_dict :=
  subseg <- dict_get d "cereb_subseg" ;;
  filter_items d (select_slices_of subseg threshold).

(** [np.take(vol, idx, axis=2)]: the slices of [vol] at the indices [idx]
    of axis 2. *)
Definition take_axis2 (idx : list nat) (vol : dict_volume) : dict_volume :=
  match vol with
  | Vol3 a =>
      Vol3 (@NdArray Z 3 [nth 0 (shape a) 0; nth 1 (shape a) 0; Z.of_nat (length idx)]
              (map (map (fun row => map (fun k => nth k row 0) idx)) (data a)))
  | Vol4 a =>
      Vol4 (@NdArray Z 4 [nth 0 (shape a) 0; nth 1 (shape a) 0; Z.of_nat (length idx);
                          nth 3 (shape a) 0]
              (map (map (fun row => map (fun k => nth k row []) idx)) (data a)))
  end.

(** The sum of slice [k] of a 3-D volume, and the indices of the slices
    whose sum exceeds the threshold, in ascending order. *)
Definition slice_sum (a : ndarray Z 3) (k : nat) : Z :=
  zsum (map (fun plane => zsum (map (fun row => nth k row 0) plane)) (data a)).

Definition kept_slices (a : ndarray Z 3) (threshold : Z) : list nat :=
  filter (fun k => threshold <? slice_sum a k) (seq 0 (Z.to_nat (nth 2 (shape a) 0))).

(** An entry of a dictionary of the usual kind for a label volume of
    depth [d]: a well-formed 4-D array of depth [d], or a well-formed 3-D
    array of depth [d] under a name other than ["orig"] and
    ["native_img"]. *)
Definition usual_entry (d : Z) (e : string * dict_volume) : Prop :=
  match snd e with
  | Vol3 a => wf a /\ nth 2 (shape a) 0 = d
              /\ String.eqb (fst e) "orig" || String.eqb (fst e) "native_img" = false
  | Vol4 a => wf a /\ nth 2 (shape a) 0 = d
  end.

(** ** [define_size] and [map_size_leg]: the earlier resize routine *)

(** [define_size(mov_dim, ref_dim)]: per axis, the extent of a scratch
    array twice as large as the larger of the two extents, and the range
    at which the moving volume is put into it.  [ref_dim[i]] raises when
    [ref_dim] is shorter than [mov_dim]. *)
Definition define_size (mov_dim ref_dim : list Z) : result (list Z * list (Z * Z)) :=
  axes <- for_each
            (fun i =>
               match nth_error ref_dim i with
               | Some r =>
                   let m := nth i mov_dim 0 in
                   let new_dim := Z.max (2 * m) (2 * r) in
                   let b0 := new_dim / 2 - m / 2 in
                   Ok (new_dim, (b0, b0 + m))
               | None => Raise (IndexError "index is out of bounds for axis 0")
               end)
            (seq 0 (length mov_dim)) ;;
  Ok (map fst axes, map snd axes).

Section MapSizeLeg.

Variable A : Type.
(** The zero of the element type, and [==] on elements. *)
Variable zero : A.
Variable elt_eqb : A -> A -> bool.

(** [target[s0, s1, ...] = value] for arrays of one rank, the value
    already broadcast to the shape of the selection. *)
Fixpoint setitem_data (n : nat) (idx : list slice) : nd A n -> nd A n -> nd A n :=
  match n return nd A n -> nd A n -> nd A n with
  | O => fun _ v => v
  | S m => fun l v =>
      match idx with
      | [] => v
      | s :: idx' =>
          let lo := fst (indices s (Z.of_nat (length l))) in
          let hi := snd (indices s (Z.of_nat (length l))) in
          let k := Z.to_nat (hi - lo) in
          firstn (Z.to_nat lo) l
            ++ map (fun p => setitem_data m idx' (fst p) (snd p))
                   (combine (firstn k (skipn (Z.to_nat lo) l)) v)
            ++ skipn (Z.to_nat lo + k) l
      end
  end.

Definition setitem {n : nat} (target : ndarray A n) (idx : list slice)
    (value : ndarray A n) : result (ndarray A n) :=
  let sel := getitem_shape idx (shape target) in
  if broadcastable (shape value) sel
  then Ok (NdArray (shape target)
             (setitem_data n idx (data target) (broadcast_data A n sel (data value))))
  else Raise (ValueError "could not broadcast input array").

(** The shape two shapes of one rank broadcast to. *)
Fixpoint broadcast_shapes (s t : list Z) : option (list Z) :=
  match s, t with
  | [], [] => Some []
  | a :: s', b :: t' =>
      match broadcast_shapes s' t' with
      | Some r =>
          if a =? b then Some (a :: r)
          else if a =? 1 then Some (b :: r)
          else if b =? 1 then Some (a :: r)
          else None
      | None => None
      end
  | _, _ => None
  end.

Fixpoint nd_all2 (n : nat) : nd A n -> nd A n -> bool :=
  match n return nd A n -> nd A n -> bool with
  | O => elt_eqb
  | S m => fun x y => forallb (fun p => nd_all2 m (fst p) (snd p)) (combine x y)
  end.

(** [np.all(x == y)]; shapes that do not broadcast raise (NumPy 1.25 and
    later). *)
Definition all_equal {n : nat} (x y : ndarray A n) : result bool :=
  match broadcast_shapes (shape x) (shape y) with
  | Some sh =>
      Ok (nd_all2 n (broadcast_data A n sh (data x)) (broadcast_data A n sh (data y)))
  | None => Raise (ValueError "operands could not be broadcast together")
  end.

(** A row of [borders], and an entry of a shape tuple or list. *)
Definition border_row (borders : list (Z * Z)) (k : nat) : result (Z * Z) :=
  match nth_error borders k with
  | Some b => Ok b
  | None => Raise (IndexError "index is out of bounds for axis 0")
  end.

Definition map_size_leg (arr : ndarray A 3) (base_shape : list Z)
    (return_border : bool) : result (ndarray A 3 * option (list (Z * Z))) :=
  if list_Z_eqb (shape arr) base_shape then
    if return_border then
      s0 <- tuple_index (shape arr) 0 ;;
      s1 <- tuple_index (shape arr) 1 ;;
      s2 <- tuple_index (shape arr) 2 ;;
      Ok (arr, Some [(0, s0); (0, s1); (0, s2)])
    else Ok (arr, None)
  else
    sb <- define_size (shape arr) base_shape ;;
    let new_shape := fst sb in
    let borders := snd sb in
    let new_arr := @NdArray A 3 new_shape (full 3 new_shape zero) in
    (* final_arr = np.zeros(base_shape, dtype=arr.dtype) *)
    if existsb (fun k => k <? 0) base_shape then
      Raise (ValueError "negative dimensions are not allowed")
    else
      b0 <- border_row borders 0 ;;
      b1 <- border_row borders 1 ;;
      b2 <- border_row borders 2 ;;
      new_arr <- setitem new_arr
                   [range (fst b0) (snd b0); range (fst b1) (snd b1);
                    range (fst b2) (snd b2)] arr ;;
      n0 <- tuple_index (shape new_arr) 0 ;;
      n1 <- tuple_index (shape new_arr) 1 ;;
      n2 <- tuple_index (shape new_arr) 2 ;;
      r0 <- tuple_index base_shape 0 ;;
      r1 <- tuple_index base_shape 1 ;;
      r2 <- tuple_index base_shape 2 ;;
      let low0 := n0 / 2 - Z.quot r0 2 in
      let low1 := n1 / 2 - Z.quot r1 2 in
      let low2 := n2 / 2 - Z.quot r2 2 in
      (* high_border = low_border + np.array(base_shape) *)
      if negb (Nat.eqb (length base_shape) 3) then
        Raise (ValueError "operands could not be broadcast together")
      else
        let final_arr := getitem new_arr
                           [range low0 (low0 + r0); range low1 (low1 + r1);
                            range low2 (low2 + r2)] in
        if return_border then
          a0 <- tuple_index (shape arr) 0 ;;
          a1 <- tuple_index (shape arr) 1 ;;
          a2 <- tuple_index (shape arr) 2 ;;
          let back_borders :=
            [(fst b0 - low0, fst b0 - low0 + a0);
             (fst b1 - low1, fst b1 - low1 + a1);
             (fst b2 - low2, fst b2 - low2 + a2)] in
          let back_arr := getitem final_arr
                            (map (fun b => range (fst b) (snd b)) back_borders) in
          ok <- all_equal back_arr arr ;;
          if ok then Ok (final_arr, Some back_borders)
          else Raise (AssertionError "Borders for unpadding are not correct")
        else Ok (final_arr, None).

End MapSizeLeg.

(** One axis of the scratch array of [map_size_leg]: the input of extent
    [i] sits behind [b] and before [a] fill entries, and the window of [t]
    entries starts at [low]; entry [k] of the window is entry [k + o] of
    the input where that exists. *)
Definition axis_window (b i a low t o : Z) : Prop :=
  0 <= b /\ 0 <= i /\ 0 <= a /\ 0 <= low /\ 0 <= t /\ low + t <= b + i + a
  /\ o = low - b.

(** The axes of [map_size_leg] for an extent [i] mapped to [j]: the triple
    of [define_size] and the start of the window. *)
Definition leg_axis (ij : Z * Z) : Z * Z * Z :=
  let n := Z.max (2 * fst ij) (2 * snd ij) in
  let b := n / 2 - fst ij / 2 in
  (fst ij, b, n - b - fst ij).

Definition leg_low (ij : Z * Z) : Z :=
  Z.max (2 * fst ij) (2 * snd ij) / 2 - Z.quot (snd ij) 2.

(** The border pairs [map_size_leg] returns for extents [i] mapped to [j]. *)
Definition leg_border (ij : Z * Z) : Z * Z :=
  let lb := snd (fst (leg_axis ij)) - leg_low ij in
  (lb, lb + fst ij).

(** A dictionary with a label volume of depth 3, whose slice sums are 12,
    1 and 12, and a thick-slice image with two channels. *)
Definition subseg_1x2x3 : ndarray Z 3 := @NdArray Z 3 [1; 2; 3] [[[5; 0; 9]; [7; 1; 3]]].

Definition orig_1x1x3x2 : ndarray Z 4 :=
  @NdArray Z 4 [1; 1; 3; 2] [[[[1; 2]; [3; 4]; [5; 6]]]].

Definition dict_example : data_dict :=
  [("cereb_subseg", Vol3 subseg_1x2x3); ("orig", Vol4 orig_1x1x3x2)]%string.

(** The same label volume with an image of depth 2. *)
Definition dict_other_depth : data_dict :=
  [("cereb_subseg", Vol3 subseg_1x2x3); ("weight", Vol3 vol_2x2x2)]%string.

(** * Properties *)


Section ArrayFacts.
Variable A : Type.

Lemma get_all (X : Type) (l : list X) : get PySlice.all l = l.
Proof.
  unfold get, indices, clip; simpl.
  rewrite Z.sub_0_r, Nat2Z.id. apply firstn_all.
Qed.

Lemma get_range_middle (X : Type) (pre l post : list X) :
  get (range (Z.of_nat (length pre)) (Z.of_nat (length pre) + Z.of_nat (length l)))
      (pre ++ l ++ post) = l.
Proof.
  unfold get, indices, clip, range; simpl.
  rewrite !length_app.
  destruct (Z.ltb_spec (Z.of_nat (length pre)) 0); [lia|].
  destruct (Z.ltb_spec (Z.of_nat (length pre) + Z.of_nat (length l)) 0); [lia|].
  rewrite !Z.min_l by lia.
  replace (Z.of_nat (length pre) + Z.of_nat (length l) - Z.of_nat (length pre))
    with (Z.of_nat (length l)) by lia.
  rewrite !Nat2Z.id.
  rewrite skipn_app, skipn_all, Nat.sub_diag. simpl.
  rewrite firstn_app, firstn_all, Nat.sub_diag. simpl. apply app_nil_r.
Qed.

Lemma get_range_inner (X : Type) (pre l post : list X) (b k : Z) :
  b = Z.of_nat (length pre) -> k = Z.of_nat (length l) ->
  get (range b (b + k)) (pre ++ l ++ post) = l.
Proof. intros -> ->. apply get_range_middle. Qed.

Lemma get_range_whole (X : Type) (l : list X) :
  get (range 0 (Z.of_nat (length l))) l = l.
Proof.
  pose proof (get_range_middle [] l []) as H. simpl in H.
  rewrite app_nil_r in H. exact H.
Qed.

Lemma map_id_in (X : Type) (f : X -> X) (l : list X) :
  Forall (fun x => f x = x) l -> map f l = l.
Proof.
  induction 1; simpl; congruence.
Qed.

Lemma getitem_data_all (n : nat) :
  forall (idx : list slice) (x : nd A n),
    Forall (eq PySlice.all) idx -> getitem_data A n idx x = x.
Proof.
  induction n as [|m IH]; intros idx x Hidx; simpl; [reflexivity|].
  destruct Hidx as [|s idx' <- Hidx']; [reflexivity|].
  rewrite get_all. apply map_id_in.
  apply Forall_forall. intros y _. now apply IH.
Qed.


Lemma repeat_zero_nil (X : Type) (x : X) (k : Z) : k = 0 -> repeat x (Z.to_nat k) = [].
Proof. intros ->. reflexivity. Qed.

(** Padding by nothing changes nothing. *)
Lemma pad_data_zero (fill : A) (n : nat) :
  forall (pw : list (Z * Z)) (sh : list Z) (x : nd A n),
    Forall (fun p => p = (0, 0)) pw -> pad_data n pw sh fill x = x.
Proof.
  induction n as [|m IH]; intros pw sh x Hpw; simpl; [reflexivity|].
  destruct Hpw as [|p pw' -> Hpw']; [reflexivity|].
  destruct sh as [|k rest]; [reflexivity|]. simpl.
  rewrite app_nil_r. apply map_id_in.
  apply Forall_forall. intros y _. now apply IH.
Qed.

Lemma pad_shape_zero :
  forall (pw : list (Z * Z)) (sh : list Z),
    Forall (fun p => p = (0, 0)) pw -> pad_shape pw sh = sh.
Proof.
  induction pw as [|p pw IH]; intros sh H; [reflexivity|].
  inversion H as [|? ? -> H']; subst. destruct sh as [|k rest]; [reflexivity|].
  simpl. rewrite IH by assumption. f_equal. lia.
Qed.

(** Cutting a padded array at the borders of the original gives the
    original back. *)
Lemma unpad_pad_data (fill : A) (n : nat) :
  forall (axes : list (Z * Z * Z)) (x : nd A n),
    Forall (fun t => 0 <= snd (fst t) /\ 0 <= snd t) axes ->
    has_shape A n (map ax_extent axes) x ->
    getitem_data A n (map border_slice (map ax_border axes))
      (pad_data n (map ax_pad axes) (map ax_extent axes) fill x) = x.
Proof.
  induction n as [|m IH]; intros axes x Hax Hsh; simpl; [reflexivity|].
  destruct axes as [|[[k b] a] axes']; simpl in *; [contradiction|].
  destruct Hsh as [Hk Hall]. inversion Hax as [|? ? [Hb Ha] Hax']; subst. simpl in *.
  set (blk := full m _ fill).
  change (border_slice (ax_border (k, b, a))) with (range b (b + k)).
  change (map (fun b0 : Z * Z => range (fst b0) (snd b0))
            (map (fun t : Z * Z * Z => (snd (fst t), snd (fst t) + fst (fst t))) axes'))
    with (map border_slice (map ax_border axes')).
  unfold ax_extent in Hk; simpl in Hk.
  rewrite get_range_inner; [rewrite map_map | | ].
  2:{ rewrite repeat_length. lia. }
  2:{ rewrite length_map. symmetry. exact Hk. }
  apply map_id_in. rewrite Forall_forall in *. intros y Hy. apply IH; auto.
  now apply Forall_forall.
Qed.

Lemma unpad_pad_shape :
  forall (axes : list (Z * Z * Z)),
    Forall (fun t => 0 <= fst (fst t) /\ 0 <= snd (fst t) /\ 0 <= snd t) axes ->
    getitem_shape (map border_slice (map ax_border axes))
      (pad_shape (map ax_pad axes) (map ax_extent axes)) = map ax_extent axes.
Proof.
  induction 1 as [|[[k b] a] axes' (Hk & Hb & Ha) _ IH]; [reflexivity|].
  simpl in *. rewrite IH. f_equal.
  unfold length_on, indices, clip, border_slice, ax_border; simpl.
  unfold ax_extent; simpl fst.
  destruct (Z.ltb_spec b 0); [lia|]. destruct (Z.ltb_spec (b + k) 0); lia.
Qed.

Lemma getitem_shape_all :
  forall (idx : list slice) (sh : list Z),
    Forall (fun k => 0 <= k) sh -> Forall (eq PySlice.all) idx ->
    getitem_shape idx sh = sh.
Proof.
  induction idx as [|s idx IH]; intros sh Hsh Hidx; [now destruct sh|].
  inversion Hidx as [|? ? <- Hidx']; subst.
  destruct Hsh as [|k sh Hk Hsh]; [reflexivity|]. simpl.
  rewrite IH by assumption. f_equal.
  unfold length_on, indices, clip. simpl. lia.
Qed.

Lemma getitem_all (n : nat) (a : ndarray A n) (idx : list slice) :
  Forall (fun k => 0 <= k) (shape a) -> Forall (eq PySlice.all) idx ->
  getitem a idx = a.
Proof.
  intros Hpos Hidx. destruct a as [sh dat]. unfold getitem. simpl in *.
  now rewrite getitem_shape_all, getitem_data_all.
Qed.

End ArrayFacts.

Section MapSizeFacts.
Variable A : Type.
Variable zero : A.

Lemma map_size_axis_pad (i j : Z) :
  i <= j ->
  map_size_axis i j = (PySlice.all, ax_pad (pad_axis (i, j)), ax_border (pad_axis (i, j))).
Proof.
  intros H. unfold map_size_axis, pad_axis, ax_pad, ax_border. simpl.
  destruct (Z.ltb_spec 0 (i - j)); [lia|]. reflexivity.
Qed.

Lemma pad_axis_nonneg (i j : Z) :
  i <= j -> 0 <= snd (fst (pad_axis (i, j))) /\ 0 <= snd (pad_axis (i, j)).
Proof.
  intros H. unfold pad_axis. simpl.
  pose proof (Z.div_mod (i - j) 2 ltac:(lia)).
  pose proof (Z.mod_pos_bound (i - j) 2 ltac:(lia)). lia.
Qed.

Lemma any_nonzero_false (pads : list (Z * Z)) :
  any_nonzero pads = false -> Forall (fun p => p = (0, 0)) pads.
Proof.
  unfold any_nonzero. induction pads as [|[b a] pads IH]; simpl; intros H; [constructor|].
  apply orb_false_elim in H. destruct H as [H1 H2].
  apply orb_false_elim in H1. destruct H1 as [Hb Ha].
  apply negb_false_iff in Hb, Ha. apply Z.eqb_eq in Hb, Ha. subst.
  constructor; auto.
Qed.

Lemma map_fst_combine (X Y : Type) (l : list X) (l' : list Y) :
  length l = length l' -> map fst (combine l l') = l.
Proof.
  revert l'. induction l as [|x l IH]; intros [|y l'] H; simpl in *; try discriminate; auto.
  f_equal. apply IH. lia.
Qed.

Lemma Forall2_combine (X Y : Type) (R : X -> Y -> Prop) (l : list X) (l' : list Y) :
  Forall2 R l l' -> Forall (fun p => R (fst p) (snd p)) (combine l l').
Proof. induction 1; simpl; constructor; auto. Qed.

(** The general branch of [map_size] when no axis is cropped. *)
Lemma map_size_pad_branch (n : nat) (arr : ndarray A n) (base_shape : list Z) :
  wf arr -> Forall2 Z.le (shape arr) base_shape ->
  list_Z_eqb (shape arr) base_shape = false ->
  let axes := map pad_axis (combine (shape arr) base_shape) in
  map_size zero arr base_shape true
  = Ok (NdArray (pad_shape (map ax_pad axes) (shape arr))
                (pad_data n (map ax_pad axes) (shape arr) zero (data arr)),
        Some (map ax_border axes)).
Proof.
  intros (Hlen & Hpos & Hsh) Hle Hne axes. unfold map_size. rewrite Hne.
  pose proof (Forall2_combine Hle) as Hc.
  set (plan := map _ (combine (shape arr) base_shape)).
  assert (Hplan : plan = map (fun t => (PySlice.all, ax_pad t, ax_border t)) axes).
  { unfold plan, axes. rewrite map_map. apply map_ext_in. intros [i j] Hin.
    rewrite Forall_forall in Hc. specialize (Hc _ Hin). simpl in *.
    now apply map_size_axis_pad. }
  rewrite Hplan, !map_map. simpl.
  assert (Hall : Forall (eq PySlice.all) (map (fun _ : Z * Z * Z => PySlice.all) axes)).
  { apply Forall_forall. intros s Hs. apply in_map_iff in Hs.
    destruct Hs as (? & <- & _). reflexivity. }
  rewrite (getitem_all arr Hpos Hall).
  change (map (fun x : Z * Z * Z => ax_pad x) axes) with (map ax_pad axes).
  change (map (fun x : Z * Z * Z => ax_border x) axes) with (map ax_border axes).
  assert (Hlen' : length (map ax_pad axes) = n).
  { unfold axes. rewrite !length_map, length_combine.
    rewrite <- (Forall2_length Hle), Nat.min_id. exact Hlen. }
  assert (Hnn : forallb (fun p => (0 <=? fst p) && (0 <=? snd p)) (map ax_pad axes) = true).
  { apply forallb_forall. intros p Hp. apply in_map_iff in Hp.
    destruct Hp as (t & <- & Ht). unfold axes in Ht. apply in_map_iff in Ht.
    destruct Ht as ([i j] & <- & Hij). rewrite Forall_forall in Hc.
    specialize (Hc _ Hij). simpl in Hc.
    destruct (pad_axis_nonneg Hc) as [H1 H2]. unfold ax_pad. simpl fst. simpl snd.
    apply andb_true_intro. split; apply Z.leb_le; assumption. }
  destruct (any_nonzero (map ax_pad axes)) eqn:Hany.
  - unfold np_pad, as_pairs. rewrite Hlen', Nat.eqb_refl, Hnn. reflexivity.
  - apply any_nonzero_false in Hany.
    rewrite pad_data_zero, pad_shape_zero by assumption.
    destruct arr; reflexivity.
Qed.

Lemma slice_pad_roundtrip (n : nat) (arr : ndarray A n) (axes : list (Z * Z * Z)) :
  wf arr -> map ax_extent axes = shape arr ->
  Forall (fun t => 0 <= snd (fst t) /\ 0 <= snd t) axes ->
  slice_at_borders
    (NdArray (pad_shape (map ax_pad axes) (shape arr))
             (pad_data n (map ax_pad axes) (shape arr) zero (data arr)))
    (map ax_border axes) = arr.
Proof.
  intros (Hlen & Hpos & Hsh) Hext Hpad. destruct arr as [sh dat]. simpl in *. subst sh.
  unfold slice_at_borders, getitem. simpl.
  change (map (fun b : Z * Z => range (fst b) (snd b)) (map ax_border axes))
    with (map border_slice (map ax_border axes)).
  rewrite unpad_pad_data by assumption.
  rewrite unpad_pad_shape; [reflexivity|].
  rewrite Forall_forall in *. intros t Ht. specialize (Hpad _ Ht).
  split; [|exact Hpad]. apply Hpos. apply in_map_iff. now exists t.
Qed.

(** C1 (amended).  For every well-formed 3-D volume [arr] and every
    canonical shape [base_shape] that is at least as large as the volume on
    every axis (nothing is cropped), [map_size arr base_shape true] returns
    an output and borders such that slicing the output at the borders gives
    [arr] back, shape and values alike, whatever the element type. *)
Theorem map_size_roundtrip_when_padding (arr : ndarray A 3) (base_shape : list Z) :
  wf arr ->
  Forall2 Z.le (shape arr) base_shape ->
  exists out borders,
    map_size zero arr base_shape true = Ok (out, Some borders)
    /\ slice_at_borders out borders = arr.
Proof.
  intros Hwf Hle.
  destruct (list_Z_eqb (shape arr) base_shape) eqn:Heq.
  - unfold map_size. rewrite Heq.
    destruct Hwf as (Hlen & Hpos & Hsh).
    destruct arr as [sh dat]. cbn [shape data] in *.
    destruct sh as [|s0 [|s1 [|s2 [|? ?]]]]; try discriminate. cbn [tuple_index nth_error bind].
    exists (@NdArray A 3 [s0; s1; s2] dat), [(0, s0); (0, s1); (0, s2)].
    split; [reflexivity|].
    pose (axes := [(s0, 0, 0); (s1, 0, 0); (s2, 0, 0)]).
    assert (Hz : Forall (fun p : Z * Z => p = (0, 0)) (map ax_pad axes))
      by (repeat constructor).
    pose proof (@slice_pad_roundtrip 3 (@NdArray A 3 [s0; s1; s2] dat) axes) as H.
    cbn [shape data] in H.
    rewrite (pad_data_zero zero 3 [s0; s1; s2] dat Hz) in H.
    rewrite (pad_shape_zero [s0; s1; s2] Hz) in H.
    apply H.
    + unfold wf. cbn [shape data]. auto.
    + reflexivity.
    + repeat constructor; simpl; lia.
  - eexists. eexists. split; [apply map_size_pad_branch; assumption|].
    apply slice_pad_roundtrip; [assumption| |].
    + rewrite map_map.
      change (map (fun x : Z * Z => ax_extent (pad_axis x)) (combine (shape arr) base_shape))
        with (map fst (combine (shape arr) base_shape)).
      apply map_fst_combine. exact (Forall2_length Hle).
    + pose proof (Forall2_combine Hle) as Hc. rewrite Forall_forall in *.
      intros t Ht. apply in_map_iff in Ht. destruct Ht as ([i j] & <- & Hij).
      apply pad_axis_nonneg. exact (Hc _ Hij).
Qed.

End MapSizeFacts.


Section WellFormed.
Variable A : Type.

Lemma clip_bounds (len dflt : Z) (v : option Z) :
  0 <= len -> 0 <= dflt <= len -> 0 <= clip len dflt v <= len.
Proof.
  intros Hlen Hd. unfold clip. destruct v as [z|]; [|assumption].
  destruct (Z.ltb_spec z 0); lia.
Qed.

Lemma length_on_nonneg (s : slice) (len : Z) : 0 <= length_on s len.
Proof. unfold length_on, indices. lia. Qed.

Lemma length_get (X : Type) (s : slice) (l : list X) :
  Z.of_nat (length (get s l)) = length_on s (Z.of_nat (length l)).
Proof.
  unfold get, length_on, indices.
  pose proof (@clip_bounds (Z.of_nat (length l)) 0 (start s) ltac:(lia) ltac:(lia)).
  pose proof (@clip_bounds (Z.of_nat (length l)) (Z.of_nat (length l)) (stop s)
                ltac:(lia) ltac:(lia)).
  rewrite length_firstn, length_skipn. lia.
Qed.

Lemma in_get (X : Type) (s : slice) (l : list X) (y : X) :
  In y (get s l) -> In y l.
Proof.
  unfold get. destruct (indices s (Z.of_nat (length l))) as [lo hi]. intros H.
  rewrite <- (firstn_skipn (Z.to_nat lo) l). apply in_or_app. right.
  rewrite <- (firstn_skipn (Z.to_nat (hi - lo)) (skipn (Z.to_nat lo) l)).
  apply in_or_app. now left.
Qed.

Lemma getitem_shape_length (idx : list slice) (sh : list Z) :
  length (getitem_shape idx sh) = length sh.
Proof.
  revert sh. induction idx as [|s idx IH]; intros [|k sh]; simpl; auto.
Qed.

Lemma getitem_shape_nonneg (idx : list slice) (sh : list Z) :
  Forall (fun k => 0 <= k) sh -> Forall (fun k => 0 <= k) (getitem_shape idx sh).
Proof.
  revert sh. induction idx as [|s idx IH]; intros sh H; [now destruct sh|].
  destruct H as [|k sh Hk H]; simpl; constructor; auto using length_on_nonneg.
Qed.

Lemma has_shape_getitem (n : nat) :
  forall (idx : list slice) (sh : list Z) (x : nd A n),
    has_shape A n sh x ->
    has_shape A n (getitem_shape idx sh) (getitem_data A n idx x).
Proof.
  induction n as [|m IH]; intros idx sh x H.
  - simpl in *. subst. now destruct idx.
  - destruct sh as [|k rest]; [destruct H|]. destruct H as [Hk Hall].
    destruct idx as [|s idx']; [split; assumption|].
    cbn [getitem_shape getitem_data has_shape]. split.
    + rewrite length_map, length_get. now rewrite Hk.
    + apply Forall_map. rewrite Forall_forall in *. intros y Hy.
      apply IH. apply Hall. eapply in_get; eassumption.
Qed.

(** Indexing with slices keeps an array well formed. *)
Lemma getitem_wf (n : nat) (a : ndarray A n) (idx : list slice) :
  wf a -> wf (getitem a idx).
Proof.
  intros (Hlen & Hpos & Hsh). unfold wf, getitem. cbn [shape data].
  split; [|split].
  - now rewrite getitem_shape_length.
  - now apply getitem_shape_nonneg.
  - now apply has_shape_getitem.
Qed.

Lemma has_shape_full (fill : A) (n : nat) :
  forall sh : list Z,
    length sh = n -> Forall (fun k => 0 <= k) sh -> has_shape A n sh (full n sh fill).
Proof.
  induction n as [|m IH]; intros sh Hlen Hpos.
  - destruct sh; [reflexivity|discriminate].
  - destruct sh as [|k rest]; [discriminate|]. inversion Hpos; subst.
    cbn [full has_shape]. split.
    + rewrite repeat_length. lia.
    + apply Forall_forall. intros y Hy. apply repeat_spec in Hy. subst y.
      apply IH; [simpl in Hlen; lia|assumption].
Qed.

Lemma pad_shape_length (pw : list (Z * Z)) (sh : list Z) :
  length (pad_shape pw sh) = length sh.
Proof.
  revert sh. induction pw as [|[b a] pw IH]; intros [|k sh]; simpl; auto.
Qed.

Lemma pad_shape_nonneg (pw : list (Z * Z)) (sh : list Z) :
  Forall (fun p => 0 <= fst p /\ 0 <= snd p) pw ->
  Forall (fun k => 0 <= k) sh -> Forall (fun k => 0 <= k) (pad_shape pw sh).
Proof.
  intros Hpw. revert sh. induction Hpw as [|[b a] pw [Hb Ha] Hpw IH]; intros sh H;
    [now destruct sh|].
  destruct H as [|k sh Hk H]; simpl in *; constructor; auto. lia.
Qed.

Lemma has_shape_pad (fill : A) (n : nat) :
  forall (pw : list (Z * Z)) (sh : list Z) (x : nd A n),
    length pw = n -> length sh = n ->
    Forall (fun p => 0 <= fst p /\ 0 <= snd p) pw ->
    Forall (fun k => 0 <= k) sh ->
    has_shape A n sh x ->
    has_shape A n (pad_shape pw sh) (pad_data n pw sh fill x).
Proof.
  induction n as [|m IH]; intros pw sh x Hpw Hsh Hnn Hpos H.
  - destruct pw; [|discriminate]. destruct sh; [|discriminate]. exact H.
  - destruct pw as [|[b a] pw']; [discriminate|].
    destruct sh as [|k rest]; [discriminate|].
    inversion Hnn as [|? ? [Hb Ha] Hnn']; subst. inversion Hpos; subst.
    destruct H as [Hk Hall]. simpl in Hpw, Hsh, Hb, Ha.
    cbn [pad_shape pad_data has_shape]. split.
    + rewrite !length_app, !repeat_length, length_map.
      rewrite !Nat2Z.inj_add, !Z2Nat.id by assumption.
      rewrite <- Hk. apply Z.add_assoc.
    + assert (Hblk : has_shape A m (pad_shape pw' rest)
                       (full m (pad_shape pw' rest) fill)).
      { apply has_shape_full; [rewrite pad_shape_length; lia|].
        now apply pad_shape_nonneg. }
      apply Forall_app. split; [|apply Forall_app; split].
      * apply Forall_forall. intros y Hy. apply repeat_spec in Hy. now subst.
      * apply Forall_map. apply Forall_forall. intros y Hy.
        apply IH; [lia|lia|assumption|assumption|].
        rewrite Forall_forall in Hall. now apply Hall.
      * apply Forall_forall. intros y Hy. apply repeat_spec in Hy. now subst.
Qed.

Lemma as_pairs_ok (pw : list (Z * Z)) (n : nat) :
  length pw = n -> Forall (fun p => 0 <= fst p /\ 0 <= snd p) pw ->
  as_pairs pw n = Ok pw.
Proof.
  intros Hlen Hnn. unfold as_pairs. rewrite Hlen, Nat.eqb_refl.
  replace (forallb _ pw) with true; [reflexivity|].
  symmetry. apply forallb_forall. rewrite Forall_forall in Hnn.
  intros p Hp. destruct (Hnn _ Hp). apply andb_true_intro. split; now apply Z.leb_le.
Qed.

(** Padding by non-negative widths, one pair per axis, succeeds and
    gives a well-formed array of the padded shape. *)
Lemma np_pad_wf (n : nat) (a : ndarray A n) (pw : list (Z * Z)) (fill : A) :
  wf a -> length pw = n -> Forall (fun p => 0 <= fst p /\ 0 <= snd p) pw ->
  exists b, np_pad a pw fill = Ok b /\ shape b = pad_shape pw (shape a) /\ wf b.
Proof.
  intros (Hlen & Hpos & Hsh) Hpw Hnn. unfold np_pad.
  rewrite as_pairs_ok by assumption. cbn [bind].
  eexists. split; [reflexivity|]. split; [reflexivity|].
  unfold wf. cbn [shape data]. split; [|split].
  - now rewrite pad_shape_length.
  - now apply pad_shape_nonneg.
  - now apply has_shape_pad.
Qed.

End WellFormed.


Lemma bind_ret (X : Type) (r : result X) : bind r (fun x => Ok x) = r.
Proof. now destruct r. Qed.

Section Plans.
Variable A : Type.

Lemma any_nonzero_true_not_all_zero (pads : list (Z * Z)) :
  any_nonzero pads = true ->
  forallb (fun p => (fst p =? 0) && (snd p =? 0)) pads = false.
Proof.
  unfold any_nonzero. induction pads as [|[b a] pads IH]; simpl; [discriminate|].
  intros H. apply orb_true_iff in H. destruct H as [H|H].
  - destruct (b =? 0), (a =? 0); simpl in *; try reflexivity; discriminate.
  - rewrite IH by assumption. apply andb_false_r.
Qed.

Lemma apply_plan_ok (n : nat) (image : ndarray A n)
    (plan : list (slice * (Z * Z))) (pad : A) :
  wf image -> length plan = n ->
  Forall (fun p => 0 <= fst (snd p) /\ 0 <= snd (snd p)) plan ->
  exists out, apply_plan image plan pad = Ok out
              /\ shape out = plan_shape plan (shape image) /\ wf out.
Proof.
  intros Hwf Hlen Hnn. unfold apply_plan, plan_shape.
  pose proof (getitem_wf (map fst plan) Hwf) as Hwf'.
  destruct (any_nonzero (map snd plan)) eqn:Hany.
  - destruct (@np_pad_wf A n (getitem image (map fst plan)) (map snd plan) pad Hwf')
      as (b & Hb & Hs & Hw).
    + now rewrite length_map.
    + apply Forall_map. exact Hnn.
    + exists b. split; [exact Hb|]. split; [exact Hs|exact Hw].
  - apply any_nonzero_false in Hany. eexists. split; [reflexivity|]. split; [|assumption].
    cbn [getitem shape]. now rewrite pad_shape_zero.
Qed.

Lemma zip3_map_combine (X Y W V : Type) (f : X * Y -> W) (g : W * X * Y -> V)
    (xs : list X) (ys : list Y) :
  map g (zip3 (map f (combine xs ys)) xs ys)
  = map (fun p => g (f p, fst p, snd p)) (combine xs ys).
Proof.
  revert ys. induction xs as [|x xs IH]; intros [|y ys]; simpl; auto.
  now rewrite IH.
Qed.

Lemma get_lead (X : Type) (l : list X) (k : nat) :
  (1 <= k)%nat ->
  get (Slice None (Some (- Z.of_nat k))) l = firstn (length l - k) l.
Proof.
  intros Hk. unfold get, indices, clip. cbn [start stop].
  destruct (Z.ltb_spec (- Z.of_nat k) 0); [|lia].
  rewrite Z.sub_0_r. simpl skipn. f_equal. lia.
Qed.

(** [crop_transform] with default offsets and a target of [k] trailing
    extents runs the centered plan of the whole shape. *)
Lemma crop_transform_default (n : nat) (image : ndarray A n) (ts : list Z) (pad : A) :
  length (shape image) = n -> (1 <= length ts <= n)%nat ->
  crop_transform image None (Some ts) None pad
  = apply_plan image
      (centered_plan (firstn (n - length ts) (shape image) ++ ts) (shape image)) pad.
Proof.
  intros Hlen Hk. unfold crop_transform. cbn [bind].
  rewrite get_lead by lia. rewrite Hlen.
  set (T := firstn (n - length ts) (shape image) ++ ts).
  assert (HT : length T = n).
  { unfold T. rewrite length_app, length_firstn. lia. }
  set (offsets := map _ (combine T (shape image))).
  assert (Hoff : length offsets = n).
  { unfold offsets. rewrite length_map, length_combine. lia. }
  rewrite Hoff, Nat.ltb_irrefl.
  unfold _crop_transform_make_indices.
  rewrite Hoff, HT, Nat.eqb_refl, Hlen, Nat.ltb_irrefl, Nat.sub_diag.
  cbn [negb skipn repeat app bind].
  assert (Hplan : map (fun a => make_indices_axis (fst (fst a)) (snd (fst a)) (snd a))
                      (zip3 offsets T (shape image))
                  = centered_plan T (shape image)).
  { unfold offsets, centered_plan. apply zip3_map_combine. }
  rewrite Hplan. unfold apply_plan.
  destruct (any_nonzero (map snd (centered_plan T (shape image)))) eqn:Hany.
  - unfold _crop_transform_pad_fn.
    rewrite any_nonzero_true_not_all_zero by assumption.
    assert (Hl : length (map snd (centered_plan T (shape image))) = n).
    { unfold centered_plan. rewrite !length_map, length_combine. lia. }
    rewrite Hl, Nat.sub_diag. cbn [repeat app]. apply bind_ret.
  - reflexivity.
Qed.

Lemma plan_shape_cons (p : slice * (Z * Z)) (ps : list (slice * (Z * Z)))
    (i : Z) (rest : list Z) :
  plan_shape (p :: ps) (i :: rest)
  = (fst (snd p) + length_on (fst p) i + snd (snd p)) :: plan_shape ps rest.
Proof. destruct p as [s [b a]]. reflexivity. Qed.

(** In range, the clamped crop and the pads of an axis add up to the
    target extent. *)
Lemma make_indices_axis_extent (o t i : Z) :
  0 <= i -> 0 <= t -> - t <= o <= i ->
  let p := make_indices_axis o t i in
  fst (snd p) + length_on (fst p) i + snd (snd p) = t.
Proof.
  intros Hi Ht Ho. unfold make_indices_axis, length_on, indices, clip, range.
  cbn [fst snd start stop].
  destruct (Z.ltb_spec (Z.max 0 o) 0); [lia|].
  destruct (Z.ltb_spec (Z.min (o + t) i) 0); lia.
Qed.

Lemma make_indices_axis_pads_nonneg (o t i : Z) :
  let p := make_indices_axis o t i in 0 <= fst (snd p) /\ 0 <= snd (snd p).
Proof. unfold make_indices_axis. cbn [fst snd]. lia. Qed.

Lemma default_offset_range (t i : Z) :
  0 <= i -> 0 <= t -> - t <= default_offset t i <= i.
Proof.
  intros Hi Ht. unfold default_offset.
  destruct (Z.le_gt_cases t i) as [H|H].
  - rewrite Z.quot_div_nonneg by lia.
    pose proof (Z.div_pos (i - t) 2 ltac:(lia) ltac:(lia)).
    pose proof (Z.div_mod (i - t) 2 ltac:(lia)).
    pose proof (Z.mod_pos_bound (i - t) 2 ltac:(lia)). lia.
  - replace (i - t) with (- (t - i)) by lia.
    rewrite Z.quot_opp_l by lia. rewrite Z.quot_div_nonneg by lia.
    pose proof (Z.div_pos (t - i) 2 ltac:(lia) ltac:(lia)).
    pose proof (Z.div_mod (t - i) 2 ltac:(lia)).
    pose proof (Z.mod_pos_bound (t - i) 2 ltac:(lia)). lia.
Qed.

Lemma centered_plan_shape :
  forall ts sh : list Z,
    length ts = length sh ->
    Forall (fun k => 0 <= k) ts -> Forall (fun k => 0 <= k) sh ->
    plan_shape (centered_plan ts sh) sh = ts.
Proof.
  induction ts as [|t ts IH]; intros [|i sh] Hlen Ht Hs; try discriminate; [reflexivity|].
  inversion Ht; inversion Hs; subst.
  unfold centered_plan. cbn [combine map]. rewrite plan_shape_cons.
  fold (centered_plan ts sh). rewrite IH by (auto; simpl in Hlen; lia).
  f_equal. cbn [fst snd].
  apply make_indices_axis_extent; auto using default_offset_range.
Qed.

Lemma centered_plan_pads_nonneg (ts sh : list Z) :
  Forall (fun p : slice * (Z * Z) => 0 <= fst (snd p) /\ 0 <= snd (snd p))
         (centered_plan ts sh).
Proof.
  unfold centered_plan. apply Forall_map. apply Forall_forall. intros p _.
  apply make_indices_axis_pads_nonneg.
Qed.

(** With default offsets the result has the requested trailing extents. *)
Theorem crop_transform_default_shape (n : nat) (image : ndarray A n)
    (ts : list Z) (pad : A) :
  wf image -> (1 <= length ts <= n)%nat -> Forall (fun k => 0 <= k) ts ->
  exists out,
    crop_transform image None (Some ts) None pad = Ok out
    /\ shape out = firstn (n - length ts) (shape image) ++ ts
    /\ wf out.
Proof.
  intros Hwf Hk Hts. pose proof Hwf as (Hlen & Hpos & _).
  rewrite crop_transform_default by assumption.
  set (T := firstn (n - length ts) (shape image) ++ ts).
  assert (HT : length T = n).
  { unfold T. rewrite length_app, length_firstn. lia. }
  destruct (@apply_plan_ok n image (centered_plan T (shape image)) pad Hwf)
    as (out & Hout & Hs & Hw).
  - unfold centered_plan. rewrite length_map, length_combine. lia.
  - apply centered_plan_pads_nonneg.
  - exists out. split; [exact Hout|]. split; [|exact Hw].
    rewrite Hs. apply centered_plan_shape; [lia| |assumption].
    unfold T. apply Forall_app. split; [|assumption].
    rewrite Forall_forall in *. intros k Hin. apply Hpos.
    rewrite <- (firstn_skipn (n - length ts) (shape image)).
    apply in_or_app. now left.
Qed.

End Plans.


Section PlanEquivalence.
Variable A : Type.
Variable zero : A.

Lemma getitem_shape_same (sh : list Z) (idx idx' : list slice) :
  same_selection sh idx idx' -> getitem_shape idx sh = getitem_shape idx' sh.
Proof.
  induction 1 as [|k sh s s' idx idx' Hs _ IH]; [reflexivity|].
  simpl. rewrite IH. f_equal. unfold length_on. now rewrite Hs.
Qed.

Lemma getitem_data_same (n : nat) :
  forall (sh : list Z) (idx idx' : list slice) (x : nd A n),
    same_selection sh idx idx' -> has_shape A n sh x ->
    getitem_data A n idx x = getitem_data A n idx' x.
Proof.
  induction n as [|m IH]; intros sh idx idx' x Hsame Hx; [reflexivity|].
  destruct Hsame as [|k sh s s' idx idx' Hs Hsame]; [reflexivity|].
  destruct Hx as [Hk Hall]. cbn [getitem_data].
  assert (Hget : get s x = get s' x).
  { unfold get. unfold same_on in Hs. rewrite <- Hk in Hs. now rewrite Hs. }
  rewrite Hget. apply map_ext_in. intros y Hy.
  apply IH with (sh := sh); [assumption|].
  rewrite Forall_forall in Hall. apply Hall. eapply in_get; eassumption.
Qed.

Lemma getitem_same (n : nat) (a : ndarray A n) (idx idx' : list slice) :
  wf a -> same_selection (shape a) idx idx' -> getitem a idx = getitem a idx'.
Proof.
  intros (_ & _ & Hsh) Hsame. unfold getitem.
  rewrite (getitem_shape_same Hsame), (@getitem_data_same n _ _ _ _ Hsame Hsh). reflexivity.
Qed.

Lemma apply_plan_same (n : nat) (a : ndarray A n) (p p' : list (slice * (Z * Z))) :
  wf a -> map snd p = map snd p' ->
  same_selection (shape a) (map fst p) (map fst p') ->
  apply_plan a p zero = apply_plan a p' zero.
Proof.
  intros Hwf Hpad Hsel. unfold apply_plan.
  now rewrite Hpad, (getitem_same Hwf Hsel).
Qed.

Lemma list_Z_eqb_true (a b : list Z) : list_Z_eqb a b = true -> a = b.
Proof. unfold list_Z_eqb. now destruct (list_eq_dec Z.eq_dec a b). Qed.

(** Without the borders, [map_size] runs its plan; the early return for
    equal shapes gives what the plan gives. *)
Lemma map_size_as_plan (n : nat) (arr : ndarray A n) (base_shape : list Z) :
  wf arr ->
  map_size zero arr base_shape false
  = bind (apply_plan arr (map_size_plan (shape arr) base_shape) zero)
         (fun out => Ok (out, None)).
Proof.
  intros Hwf. unfold map_size.
  destruct (list_Z_eqb (shape arr) base_shape) eqn:Heq.
  - apply list_Z_eqb_true in Heq. rewrite <- Heq.
    destruct Hwf as (_ & Hpos & _).
    assert (Hplan : map_size_plan (shape arr) (shape arr)
                    = map (fun _ => (PySlice.all, (0, 0))) (shape arr)).
    { unfold map_size_plan. generalize (shape arr) as l.
      induction l as [|i l IH]; [reflexivity|]. cbn [combine map]. rewrite IH. f_equal.
      unfold map_size_axis. cbn [fst snd]. rewrite Z.sub_diag. reflexivity. }
    rewrite Hplan. unfold apply_plan. rewrite !map_map. cbn [fst snd].
    replace (any_nonzero (map (fun _ : Z => (0, 0)) (shape arr))) with false.
    + rewrite getitem_all; [reflexivity|assumption|].
      apply Forall_forall. intros s Hs. apply in_map_iff in Hs.
      now destruct Hs as (? & <- & _).
    + symmetry. unfold any_nonzero. generalize (shape arr) as l.
      induction l; simpl; auto.
  - unfold apply_plan, map_size_plan. rewrite !map_map. cbn [fst snd].
    match goal with
    | |- bind ?x _ = bind ?y _ => replace y with x; [destruct x; reflexivity|]
    end.
    reflexivity.
Qed.

(** On an axis that is cropped, kept, or padded by an even amount, the
    two routines select the same range and pad alike. *)
Lemma axis_plans_agree (i j : Z) :
  0 <= i -> 0 <= j -> (i < j -> Z.even (j - i) = true) ->
  let p := fst (map_size_axis i j) in
  let q := make_indices_axis (default_offset j i) j i in
  same_on i (fst p) (fst q) /\ snd p = snd q.
Proof.
  intros Hi Hj Hev. unfold map_size_axis, make_indices_axis, default_offset, same_on.
  destruct (Z.ltb_spec 0 (i - j)) as [Hd|Hd]; cbn [fst snd].
  - rewrite Z.quot_div_nonneg by lia.
    pose proof (Z.div_pos (i - j) 2 ltac:(lia) ltac:(lia)).
    pose proof (Z.div_mod (i - j) 2 ltac:(lia)).
    pose proof (Z.mod_pos_bound (i - j) 2 ltac:(lia)).
    split.
    + unfold indices, clip, range. cbn [start stop]. f_equal.
      * destruct (Z.ltb_spec ((i - j) / 2) 0);
          destruct (Z.ltb_spec (Z.max 0 ((i - j) / 2)) 0); lia.
      * destruct (Z.ltb_spec ((i - j) / 2 + j) 0);
          destruct (Z.ltb_spec (Z.min ((i - j) / 2 + j) i) 0); lia.
    + f_equal; lia.
  - assert (He : exists m, j - i = 2 * m /\ 0 <= m).
    { destruct (Z.eq_dec i j) as [->|Hne].
      - exists 0. lia.
      - specialize (Hev ltac:(lia)). apply Z.even_spec in Hev.
        destruct Hev as [m Hm]. exists m. lia. }
    destruct He as (m & Hm & Hm0).
    replace (i - j) with (- (2 * m)) by lia.
    rewrite Z.quot_opp_l by lia. rewrite Z.quot_div_nonneg by lia.
    replace (- (2 * m) / 2) with (- m)
      by (replace (- (2 * m)) with ((- m) * 2) by lia; now rewrite Z.div_mul by lia).
    replace (2 * m / 2) with m
      by (rewrite (Z.mul_comm 2 m); now rewrite Z.div_mul by lia).
    split.
    + unfold indices, clip, range, PySlice.all. cbn [start stop]. f_equal.
      * destruct (Z.ltb_spec (Z.max 0 (- m)) 0); lia.
      * destruct (Z.ltb_spec (Z.min (- m + j) i) 0); lia.
    + f_equal; lia.
Qed.

Lemma plans_agree :
  forall sh base_shape : list Z,
    Forall (fun k => 0 <= k) sh -> Forall (fun k => 0 <= k) base_shape ->
    Forall2 (fun i j => i < j -> Z.even (j - i) = true) sh base_shape ->
    map snd (map_size_plan sh base_shape) = map snd (centered_plan base_shape sh)
    /\ same_selection sh (map fst (map_size_plan sh base_shape))
                         (map fst (centered_plan base_shape sh)).
Proof.
  intros sh base_shape Hs Hb H. revert Hs Hb.
  induction H as [|i j sh base_shape Hij H IH]; intros Hs Hb.
  - split; [reflexivity|constructor].
  - inversion Hs; inversion Hb; subst.
    destruct IH as [IH1 IH2]; [assumption..|].
    destruct (@axis_plans_agree i j) as [Ha Hp]; [assumption..|].
    unfold map_size_plan, centered_plan in *. cbn [combine map fst snd] in *.
    split.
    + now rewrite Hp, IH1.
    + constructor; assumption.
Qed.

(** On an axis padded by an odd amount the two routines split the pad
    in opposite ways. *)
Lemma odd_pad_is_mirrored (i j : Z) :
  0 <= i < j -> Z.odd (j - i) = true ->
  snd (fst (map_size_axis i j)) = ((j - i) / 2 + 1, (j - i) / 2)
  /\ snd (make_indices_axis (default_offset j i) j i) = ((j - i) / 2, (j - i) / 2 + 1).
Proof.
  intros Hij Ho. apply Z.odd_spec in Ho. destruct Ho as [m Hm].
  unfold map_size_axis, make_indices_axis, default_offset.
  destruct (Z.ltb_spec 0 (i - j)) as [Hd|Hd]; [lia|]. cbn [fst snd].
  replace (i - j) with (- (2 * m + 1)) by lia.
  rewrite Z.quot_opp_l by lia. rewrite Z.quot_div_nonneg by lia.
  rewrite Hm.
  replace ((2 * m + 1) / 2) with m
    by (replace (2 * m + 1) with (1 + m * 2) by lia; rewrite Z.div_add by lia;
        change (1 / 2) with 0; lia).
  replace (- (2 * m + 1) / 2) with (- m - 1)
    by (replace (- (2 * m + 1)) with (1 + (- m - 1) * 2) by lia;
        rewrite Z.div_add by lia; change (1 / 2) with 0; lia).
  split; f_equal; lia.
Qed.

(** C5 (amended).  For a well-formed 3-D volume and a target shape,
    [map_size] and [crop_transform] with its default offsets return the same
    array whenever every axis is cropped, kept, or padded by an even amount.
    On an axis padded by an odd amount [2 m + 1] the two differ: [map_size]
    pads [m + 1] before and [m] after the data, [crop_transform] pads [m]
    before and [m + 1] after. *)
Theorem map_size_agrees_with_centered_crop_transform :
  (forall (arr : ndarray A 3) (base_shape : list Z),
      wf arr -> Forall (fun k => 0 <= k) base_shape ->
      Forall2 (fun i j => i < j -> Z.even (j - i) = true) (shape arr) base_shape ->
      exists out,
        map_size zero arr base_shape false = Ok (out, None)
        /\ crop_transform arr None (Some base_shape) None zero = Ok out)
  /\ (forall i j : Z,
        0 <= i < j -> Z.odd (j - i) = true ->
        snd (fst (map_size_axis i j)) = ((j - i) / 2 + 1, (j - i) / 2)
        /\ snd (make_indices_axis (default_offset j i) j i)
           = ((j - i) / 2, (j - i) / 2 + 1)).
Proof.
  split; [|exact odd_pad_is_mirrored].
  intros arr base_shape Hwf Hb Hev.
  pose proof Hwf as (Hlen & Hpos & _).
  pose proof (Forall2_length Hev) as Hl.
  rewrite map_size_as_plan by assumption.
  rewrite crop_transform_default by (try assumption; lia).
  replace (3 - length base_shape)%nat with 0%nat by lia. cbn [firstn app].
  destruct (plans_agree Hpos Hb Hev) as [Hp Hsel].
  rewrite (@apply_plan_same 3 arr _ _ Hwf Hp Hsel).
  destruct (@apply_plan_ok A 3 arr (centered_plan base_shape (shape arr)) zero Hwf)
    as (out & Hout & _ & _).
  - unfold centered_plan. rewrite length_map, length_combine. lia.
  - apply centered_plan_pads_nonneg.
  - exists out. rewrite Hout. split; reflexivity.
Qed.

End PlanEquivalence.

(** C5, refuted as stated: padding a volume of extent 2 to extent 3,
    [map_size] puts the zero plane first and [crop_transform] puts it
    last. *)
Lemma map_size_and_crop_transform_differ_on_odd_pad :
  exists out out',
    map_size 0 vol_2x1x1 [3; 1; 1] false = Ok (out, None)
    /\ crop_transform vol_2x1x1 None (Some [3; 1; 1]) None 0 = Ok out'
    /\ out <> out'.
Proof.
  eexists. eexists. split; [vm_compute; reflexivity|].
  split; [vm_compute; reflexivity|]. discriminate.
Qed.


Section Shapes.
Variable A : Type.
Variable zero : A.

Lemma map_size_axis_extent (i j : Z) :
  0 <= i -> 0 <= j ->
  let p := fst (map_size_axis i j) in
  0 <= fst (snd p) /\ 0 <= snd (snd p)
  /\ fst (snd p) + length_on (fst p) i + snd (snd p) = j.
Proof.
  intros Hi Hj. unfold map_size_axis.
  pose proof (Z.div_mod (i - j) 2 ltac:(lia)).
  pose proof (Z.mod_pos_bound (i - j) 2 ltac:(lia)).
  destruct (Z.ltb_spec 0 (i - j)) as [Hd|Hd]; cbn [fst snd].
  - unfold length_on, indices, clip, range. cbn [start stop].
    destruct (Z.ltb_spec ((i - j) / 2) 0);
      destruct (Z.ltb_spec ((i - j) / 2 + j) 0); lia.
  - unfold length_on, indices, clip, PySlice.all. cbn [start stop]. lia.
Qed.

Lemma map_size_plan_shape :
  forall sh base_shape : list Z,
    length sh = length base_shape ->
    Forall (fun k => 0 <= k) sh -> Forall (fun k => 0 <= k) base_shape ->
    plan_shape (map_size_plan sh base_shape) sh = base_shape
    /\ Forall (fun p : slice * (Z * Z) => 0 <= fst (snd p) /\ 0 <= snd (snd p))
              (map_size_plan sh base_shape).
Proof.
  induction sh as [|i sh IH]; intros [|j base_shape] Hlen Hs Hb; try discriminate.
  - split; [reflexivity|constructor].
  - inversion Hs; inversion Hb; subst.
    destruct (IH base_shape) as [IH1 IH2]; [simpl in Hlen; lia|assumption..|].
    destruct (@map_size_axis_extent i j) as (Ha & Hb' & Hc); [assumption..|].
    unfold map_size_plan in *. cbn [combine map fst snd]. rewrite plan_shape_cons.
    split.
    + now rewrite IH1, Hc.
    + constructor; [split|]; assumption.
Qed.

Lemma map_size_borders (arr : ndarray A 3) (base_shape : list Z) :
  wf arr ->
  map_size zero arr base_shape true
  = bind (apply_plan arr (map_size_plan (shape arr) base_shape) zero)
         (fun out => Ok (out, Some (map (fun ij => snd (map_size_axis (fst ij) (snd ij)))
                                        (combine (shape arr) base_shape)))).
Proof.
  intros Hwf. pose proof (map_size_as_plan zero base_shape Hwf) as Hp.
  unfold map_size in *.
  destruct (list_Z_eqb (shape arr) base_shape) eqn:Heq.
  - destruct (apply_plan arr (map_size_plan (shape arr) base_shape) zero) as [out|e];
      [|discriminate].
    cbn [bind] in *. injection Hp as <-.
    apply list_Z_eqb_true in Heq. subst base_shape.
    destruct Hwf as (Hlen & _ & _).
    destruct (shape arr) as [|s0 [|s1 [|s2 [|? ?]]]]; try discriminate.
    cbn [tuple_index nth_error bind combine map fst snd]. unfold map_size_axis.
    rewrite !Z.sub_diag. reflexivity.
  - rewrite !map_map in *. cbn [fst snd] in *.
    unfold apply_plan, map_size_plan. rewrite !map_map. cbn [fst snd].
    match goal with
    | |- bind ?x _ = bind ?y _ => replace y with x; [destruct x; reflexivity|]
    end.
    reflexivity.
Qed.

(** [map_size] always returns an array of the canonical shape. *)
Theorem map_size_shape (arr : ndarray A 3) (base_shape : list Z) (return_border : bool) :
  wf arr -> length base_shape = 3%nat -> Forall (fun k => 0 <= k) base_shape ->
  exists out borders,
    map_size zero arr base_shape return_border = Ok (out, borders)
    /\ shape out = base_shape /\ wf out.
Proof.
  intros Hwf Hlen Hb. pose proof Hwf as (Hl & Hpos & _).
  destruct (@map_size_plan_shape (shape arr) base_shape) as [Hs Hnn];
    [lia|assumption..|].
  destruct (@apply_plan_ok A 3 arr (map_size_plan (shape arr) base_shape) zero Hwf)
    as (out & Hout & Hsh & Hw).
  - unfold map_size_plan. rewrite length_map, length_combine. lia.
  - exact Hnn.
  - exists out. destruct return_border.
    + eexists. rewrite map_size_borders, Hout by assumption. cbn [bind].
      split; [reflexivity|]. split; [congruence|assumption].
    + eexists. rewrite map_size_as_plan, Hout by assumption. cbn [bind].
      split; [reflexivity|]. split; [congruence|assumption].
Qed.

Lemma get_trail (X : Type) (l : list X) :
  get (Slice (Some (- Z.of_nat (length l))) None) l = l.
Proof.
  unfold get, indices, clip. cbn [start stop].
  destruct (Z.ltb_spec (- Z.of_nat (length l)) 0).
  - replace (Z.max 0 (- Z.of_nat (length l) + Z.of_nat (length l))) with 0 by lia.
    rewrite Z.sub_0_r, Nat2Z.id. apply firstn_all.
  - replace (Z.min (- Z.of_nat (length l)) (Z.of_nat (length l))) with 0 by lia.
    rewrite Z.sub_0_r, Nat2Z.id. apply firstn_all.
Qed.

Lemma zip3_length (X Y W : Type) (xs : list X) (ys : list Y) (ws : list W) :
  length xs = length ys -> length ys = length ws -> length (zip3 xs ys ws) = length xs.
Proof.
  revert ys ws. induction xs as [|x xs IH]; intros [|y ys] [|w ws] H1 H2;
    simpl in *; try discriminate; auto.
Qed.

Lemma no_sentinel (sh ts : list Z) :
  length sh = length ts -> Forall (fun k => 0 <= k) ts ->
  map (fun it : Z * Z => if snd it =? -1 then fst it else snd it) (combine sh ts) = ts.
Proof.
  revert ts. induction sh as [|i sh IH]; intros [|t ts] Hlen Ht; try discriminate;
    [reflexivity|].
  inversion Ht; subst. cbn [combine map fst snd].
  rewrite IH by (auto; simpl in Hlen; lia).
  destruct (Z.eqb_spec t (-1)); [lia|reflexivity].
Qed.

(** With one offset and one target extent per axis, [crop_transform]
    runs the plan of its offsets. *)
Lemma crop_transform_offsets (n : nat) (image : ndarray A n)
    (offsets ts : list Z) (pad : A) :
  length (shape image) = n -> length offsets = n -> length ts = n ->
  Forall (fun k => 0 <= k) ts ->
  crop_transform image (Some offsets) (Some ts) None pad
  = apply_plan image
      (map (fun a => make_indices_axis (fst (fst a)) (snd (fst a)) (snd a))
           (zip3 offsets ts (shape image))) pad.
Proof.
  intros Hlen Hoff Hts Hpos. unfold crop_transform.
  rewrite Hoff, Hts, Nat.eqb_refl. cbn [negb bind].
  assert (Htrail : get (Slice (Some (- Z.of_nat n)) None) (shape image) = shape image)
    by (generalize (get_trail (shape image)); now rewrite Hlen).
  rewrite Htrail.
  assert (Hlead : get (Slice None (Some (- Z.of_nat n))) (shape image) = []).
  { unfold get, indices, clip. cbn [start stop].
    destruct (Z.ltb_spec (- Z.of_nat n) 0).
    - replace (Z.max 0 (- Z.of_nat n + Z.of_nat (length (shape image)))) with 0 by lia.
      reflexivity.
    - replace (Z.min (- Z.of_nat n) (Z.of_nat (length (shape image)))) with 0 by lia.
      reflexivity. }
  rewrite Hlead, no_sentinel by (auto; lia). cbn [app].
  rewrite Nat.ltb_irrefl. unfold _crop_transform_make_indices.
  rewrite Hoff, Hts, Nat.eqb_refl, Hlen, Nat.ltb_irrefl, Nat.sub_diag.
  cbn [negb skipn repeat app bind]. unfold apply_plan.
  set (plan := map _ (zip3 offsets ts (shape image))).
  destruct (any_nonzero (map snd plan)) eqn:Hany; [|reflexivity].
  unfold _crop_transform_pad_fn.
  rewrite any_nonzero_true_not_all_zero by assumption.
  assert (Hl : length (map snd plan) = n).
  { unfold plan. rewrite !length_map, zip3_length; lia. }
  rewrite Hl, Nat.sub_diag. cbn [repeat app]. apply bind_ret.
Qed.

Lemma offsets_plan_shape :
  forall offsets ts sh : list Z,
    length offsets = length ts -> length ts = length sh ->
    Forall (fun k => 0 <= k) ts -> Forall (fun k => 0 <= k) sh ->
    Forall (fun a => - snd (fst a) <= fst (fst a) <= snd a) (zip3 offsets ts sh) ->
    plan_shape (map (fun a => make_indices_axis (fst (fst a)) (snd (fst a)) (snd a))
                    (zip3 offsets ts sh)) sh = ts.
Proof.
  induction offsets as [|o offsets IH]; intros [|t ts] [|i sh] H1 H2 Ht Hs Hr;
    try discriminate; [reflexivity|].
  inversion Ht; inversion Hs; inversion Hr; subst.
  cbn [zip3 map fst snd] in *. rewrite plan_shape_cons.
  rewrite IH by (auto; simpl in *; lia). f_equal.
  apply make_indices_axis_extent; assumption.
Qed.

(** When every window [offset, offset + target) starts no earlier than
    [- target] and no later than the extent of its axis, the result has
    the target shape. *)
Theorem crop_transform_offsets_shape (n : nat) (image : ndarray A n)
    (offsets ts : list Z) (pad : A) :
  wf image -> length offsets = n -> length ts = n ->
  Forall (fun k => 0 <= k) ts ->
  Forall (fun a => - snd (fst a) <= fst (fst a) <= snd a)
         (zip3 offsets ts (shape image)) ->
  exists out,
    crop_transform image (Some offsets) (Some ts) None pad = Ok out
    /\ shape out = ts /\ wf out.
Proof.
  intros Hwf Hoff Hts Hpos Hr. pose proof Hwf as (Hlen & Hsh & _).
  rewrite crop_transform_offsets by assumption.
  destruct (@apply_plan_ok A n image
              (map (fun a => make_indices_axis (fst (fst a)) (snd (fst a)) (snd a))
                   (zip3 offsets ts (shape image))) pad Hwf) as (out & Hout & Hs & Hw).
  - rewrite length_map, zip3_length; lia.
  - apply Forall_map. apply Forall_forall. intros a _.
    apply make_indices_axis_pads_nonneg.
  - exists out. split; [exact Hout|]. split; [|exact Hw].
    rewrite Hs. apply offsets_plan_shape; auto; lia.
Qed.

End Shapes.


(** C1, refuted as stated: when [map_size] crops an axis from 4 to 2, the
    returned borders [(-1, 3)] select one plane of the output, not the
    volume that went in. *)
Lemma map_size_roundtrip_fails_when_cropping :
  exists out borders,
    map_size 0 vol_4x1x1 [2; 1; 1] true = Ok (out, Some borders)
    /\ slice_at_borders out borders <> vol_4x1x1.
Proof.
  eexists. eexists. split; [vm_compute; reflexivity|].
  vm_compute. discriminate.
Qed.

(** C2, the code at two failing inputs.  An offset past the end of an axis
    of extent 2 (offset 3, target 1) gives extent 2, and a negative offset
    whose window ends before the axis starts (offset -3, target 1, extent 4)
    gives extent 5: in neither case is the result of the target shape
    [1; 1; 1]. *)
Theorem crop_transform_shape_differs_outside_image :
  (exists out, crop_transform vol_2x1x1 (Some [3; 0; 0]) (Some [1; 1; 1]) None 0 = Ok out
               /\ shape out = [2; 1; 1])
  /\ (exists out, crop_transform vol_4x1x1 (Some [-3; 0; 0]) (Some [1; 1; 1]) None 0 = Ok out
                  /\ shape out = [5; 1; 1]).
Proof.
  split; eexists; (split; [vm_compute; reflexivity|reflexivity]).
Qed.

(** C6, the code at a failing input.  Offsets and a target shape of the
    same length 2, shorter than the 3 axes of the image, are rejected with
    the length-mismatch error of [_crop_transform_make_indices]. *)
Theorem crop_transform_rejects_offsets_shorter_than_image :
  crop_transform vol_2x2x2 (Some [0; 0]) (Some [1; 1]) None 0
  = Raise (ValueError "offsets and target shape must be same length.").
Proof. vm_compute. reflexivity. Qed.

Section Centering.

(** C4.  On an axis of extent [i] cut to [t] with the default offset,
    let [d = |i - t|].  When [t <= i] the crop removes [d / 2] voxels on the
    low side and [d - d / 2] on the high side and pads nothing; when
    [i <= t] the whole axis is kept and the pad is [d / 2] before and
    [d - d / 2] after.  For an even [d] both sides get exactly half, for an
    odd [d] the high side gets one more than the low side. *)
Theorem default_offset_centering (i t : Z) :
  0 <= i -> 0 <= t ->
  let plan := make_indices_axis (default_offset t i) t i in
  let lo := fst (indices (fst plan) i) in
  let hi := snd (indices (fst plan) i) in
  let d := Z.abs (i - t) in
  (t <= i -> lo = d / 2 /\ i - hi = d - d / 2 /\ snd plan = (0, 0))
  /\ (i <= t -> lo = 0 /\ hi = i /\ snd plan = (d / 2, d - d / 2))
  /\ (Z.even d = true -> d / 2 = d - d / 2)
  /\ (Z.odd d = true -> d - d / 2 = d / 2 + 1).
Proof.
  intros Hi Ht. cbv zeta.
  unfold make_indices_axis, default_offset, indices, clip, range. cbn [fst snd start stop].
  pose proof (Z.quot_div_nonneg (i - t) 2) as Hq.
  pose proof (Z.quot_opp_l (t - i) 2 ltac:(lia)) as Hq'.
  replace (- (t - i)) with (i - t) in Hq' by lia.
  pose proof (Z.quot_div_nonneg (t - i) 2) as Hq''.
  split; [|split; [|split]].
  - intros Hle. rewrite Z.abs_eq by lia. rewrite Hq by lia.
    pose proof (Z.div_pos (i - t) 2 ltac:(lia) ltac:(lia)).
    pose proof (Z.div_mod (i - t) 2 ltac:(lia)).
    pose proof (Z.mod_pos_bound (i - t) 2 ltac:(lia)).
    clear Hq Hq' Hq''.
    destruct (Z.ltb_spec (Z.max 0 ((i - t) / 2)) 0);
      destruct (Z.ltb_spec (Z.min ((i - t) / 2 + t) i) 0);
      (split; [lia|split; [lia|f_equal; lia]]).
  - intros Hle. rewrite Hq', Hq'' by lia.
    replace (Z.abs (i - t)) with (t - i) by lia.
    pose proof (Z.div_pos (t - i) 2 ltac:(lia) ltac:(lia)).
    pose proof (Z.div_mod (t - i) 2 ltac:(lia)).
    pose proof (Z.mod_pos_bound (t - i) 2 ltac:(lia)).
    clear Hq Hq' Hq''.
    destruct (Z.ltb_spec (Z.max 0 (- ((t - i) / 2))) 0);
      destruct (Z.ltb_spec (Z.min (- ((t - i) / 2) + t) i) 0);
      (split; [lia|split; [lia|f_equal; lia]]).
  - intros He. apply Z.even_spec in He. destruct He as [k Hk]. rewrite Hk.
    rewrite (Z.mul_comm 2 k), Z.div_mul by lia. lia.
  - intros Ho. apply Z.odd_spec in Ho. destruct Ho as [k Hk]. rewrite Hk.
    replace (2 * k + 1) with (1 + k * 2) by lia.
    rewrite Z.div_add by lia. change (1 / 2) with 0. lia.
Qed.

Lemma default_offset_centering_witness :
  let plan := make_indices_axis (default_offset 4 9) 4 9 in
  fst (indices (fst plan) 9) = 2 /\ 9 - snd (indices (fst plan) 9) = 3.
Proof.
  destruct (@default_offset_centering 9 4 ltac:(lia) ltac:(lia)) as (H & _).
  destruct (H ltac:(lia)) as (H1 & H2 & _). split; [exact H1 | exact H2].
Defined.

End Centering.


Section Validation.
Variable A : Type.

Lemma make_indices_not_invalid_arguments (sh offs ts : list Z) :
  _crop_transform_make_indices sh offs ts <> Raise invalid_arguments.
Proof.
  unfold _crop_transform_make_indices.
  destruct (negb _); [discriminate|]. destruct (Nat.ltb _ _); discriminate.
Qed.

Lemma np_pad_not_invalid_arguments (n : nat) (a : ndarray A n) (pw : list (Z * Z)) (v : A) :
  np_pad a pw v <> Raise invalid_arguments.
Proof.
  unfold np_pad, as_pairs.
  destruct (Nat.eqb _ _).
  - destruct (forallb _ pw); discriminate.
  - destruct pw as [|p [|? ?]]; try discriminate.
    destruct (forallb _ _); discriminate.
Qed.

Lemma assign_all_not_invalid_arguments (n : nat) (o v : ndarray A n) :
  assign_all o v <> Raise invalid_arguments.
Proof. unfold assign_all. destruct (broadcastable _ _); discriminate. Qed.

Lemma crop_transform_tail_not_invalid (n : nat) (image : ndarray A n)
    (offsets ts : list Z) (len_off : nat) (out : option (ndarray A n)) (pad : A) :
  (if Nat.ltb n len_off then
     Raise (RuntimeError "shape of offsets is larger than dim of image allows.")
   else
     bind (_crop_transform_make_indices (shape image) offsets ts)
          (fun pi =>
             let '(pad_tuples, indices) := pi in
             let cropped := getitem image indices in
             bind (match pad_tuples with
                   | None => Ok cropped
                   | Some pt =>
                       match _crop_transform_pad_fn image pt pad with
                       | Some pad_fn => pad_fn cropped
                       | None => Raise (TypeError "'NoneType' object is not callable")
                       end
                   end)
                  (fun value => match out with
                                | None => Ok value
                                | Some o => assign_all o value
                                end)))
  <> Raise invalid_arguments.
Proof.
  destruct (Nat.ltb n len_off); [discriminate|].
  pose proof (make_indices_not_invalid_arguments (shape image) offsets ts) as Hmi.
  destruct (_crop_transform_make_indices (shape image) offsets ts) as [[pt idx]|e];
    [|cbn [bind]; intros He; injection He as ->; now apply Hmi].
  cbn [bind].
  destruct pt as [pt|]; cbn [bind].
  - unfold _crop_transform_pad_fn. destruct (forallb _ pt); [discriminate|].
    pose proof (@np_pad_not_invalid_arguments n (getitem image idx)
                  (repeat (0, 0) (n - length pt) ++ pt) pad) as Hp.
    destruct (np_pad _ _ _) as [v|e];
      [|cbn [bind]; intros He; injection He as ->; now apply Hp].
    cbn [bind].
    destruct out; [apply assign_all_not_invalid_arguments|discriminate].
  - destruct out; [apply assign_all_not_invalid_arguments|discriminate].
Qed.

(** The error for missing arguments is raised exactly when [offsets],
    [target_shape] and [out] are all omitted. *)
Theorem crop_transform_invalid_arguments (n : nat) (image : ndarray A n)
    (offsets target_shape : option (list Z)) (out : option (ndarray A n)) (pad : A) :
  crop_transform image offsets target_shape out pad = Raise invalid_arguments
  <-> offsets = None /\ target_shape = None /\ out = None.
Proof.
  split.
  - intros H.
    destruct offsets as [offs|], target_shape as [ts|], out as [o|];
      try (split; [reflexivity|split; reflexivity]); exfalso; revert H;
      unfold crop_transform; cbn [bind];
      try (destruct (negb _); [discriminate|]; cbn [bind]);
      match goal with
      | |- (if Nat.ltb _ ?len then _
            else bind (_crop_transform_make_indices _ ?offs' ?T) _) = _ -> False =>
          first [ exact (@crop_transform_tail_not_invalid n image offs' T len None pad)
                | exact (@crop_transform_tail_not_invalid n image offs' T len (Some o) pad) ]
      end.
  - intros (-> & -> & ->). reflexivity.
Qed.

(** Offsets and a target of different lengths, and offsets longer than
    the image has axes, are rejected. *)
Theorem crop_transform_rejects_mismatch (n : nat) (image : ndarray A n)
    (offsets ts : list Z) (out : option (ndarray A n)) (pad : A) :
  (length offsets <> length ts ->
   crop_transform image (Some offsets) (Some ts) out pad
   = Raise (ValueError
              "Incompatible offset and target_shape dimensionality (at least once)."))
  /\ (length offsets = length ts -> (n < length offsets)%nat ->
      crop_transform image (Some offsets) (Some ts) out pad
      = Raise (RuntimeError "shape of offsets is larger than dim of image allows.")).
Proof.
  split.
  - intros H. unfold crop_transform.
    destruct (Nat.eqb_spec (length offsets) (length ts)); [contradiction|]. reflexivity.
  - intros H Hn. unfold crop_transform. rewrite H, Nat.eqb_refl. cbn [negb bind].
    rewrite <- H. destruct (Nat.ltb_spec n (length offsets)); [reflexivity|lia].
Qed.

End Validation.


Section Where.

Lemma where_from_spec (v : list bool) :
  forall (s : nat) (k : Z),
    In k (map (fun p : nat * bool => Z.of_nat (fst p))
              (filter (fun p => snd p) (combine (seq s (length v)) v)))
    <-> exists i, nth_error v i = Some true /\ k = Z.of_nat (s + i).
Proof.
  induction v as [|b v IH]; intros s k; cbn [length seq combine filter map].
  - split; [intros []|]. intros (i & Hi & _). now destruct i.
  - cbn [snd]. split.
    + intros H.
      assert (Hcase : (b = true /\ k = Z.of_nat s)
                      \/ In k (map (fun p : nat * bool => Z.of_nat (fst p))
                                 (filter (fun p => snd p) (combine (seq (S s) (length v)) v)))).
      { destruct b; cbn [map fst In] in H; [destruct H as [H|H]|]; auto. }
      destruct Hcase as [[-> ->]|Hin].
      * exists 0%nat. split; [reflexivity|]. f_equal. lia.
      * apply IH in Hin. destruct Hin as (i & Hi & ->).
        exists (S i). split; [exact Hi|]. f_equal. lia.
    + intros (i & Hi & ->). destruct i as [|i].
      * cbn [nth_error] in Hi. injection Hi as ->. cbn [map fst In]. left. f_equal. lia.
      * cbn [nth_error] in Hi.
        assert (Hin : In (Z.of_nat (s + S i))
                        (map (fun p : nat * bool => Z.of_nat (fst p))
                           (filter (fun p => snd p) (combine (seq (S s) (length v)) v)))).
        { apply IH. exists i. split; [exact Hi|]. f_equal. lia. }
        destruct b; cbn [map In]; auto.
Qed.

Lemma where_from_sorted (v : list bool) :
  forall s : nat,
    StronglySorted Z.lt
      (map (fun p : nat * bool => Z.of_nat (fst p))
           (filter (fun p => snd p) (combine (seq s (length v)) v))).
Proof.
  induction v as [|b v IH]; intros s; cbn [length seq combine filter map].
  - constructor.
  - cbn [snd]. destruct b; [|apply IH]. cbn [map fst]. constructor; [apply IH|].
    apply Forall_forall. intros k Hk. apply where_from_spec in Hk.
    destruct Hk as (i & _ & ->). lia.
Qed.

Lemma np_where_spec (v : list bool) (k : Z) :
  In k (np_where v) <-> exists i, nth_error v i = Some true /\ k = Z.of_nat i.
Proof. unfold np_where. apply where_from_spec. Qed.

Lemma last_nonempty (X : Type) (l : list X) :
  forall y d d' : X, last (y :: l) d = last (y :: l) d'.
Proof.
  induction l as [|z l IH]; intros y d d'; [reflexivity|].
  change (last (z :: l) d = last (z :: l) d'). apply IH.
Qed.

Lemma sorted_first_last (x : Z) (l : list Z) :
  StronglySorted Z.lt (x :: l) ->
  In (last (x :: l) x) (x :: l)
  /\ forall k, In k (x :: l) -> x <= k <= last (x :: l) x.
Proof.
  revert x. induction l as [|y l IH]; intros x Hs.
  - split; [now left|]. intros k [<-|[]]. simpl. lia.
  - inversion Hs as [|? ? Hs' Hall]; subst.
    destruct (IH y Hs') as [Hin Hb].
    assert (Hlast : last (x :: y :: l) x = last (y :: l) y).
    { change (last (x :: y :: l) x) with (last (y :: l) x). apply last_nonempty. }
    rewrite Hlast. split; [now right|].
    inversion Hall as [|? ? Hxy Hall']; subst.
    intros k [<-|Hk].
    + specialize (Hb (last (y :: l) y) Hin). lia.
    + specialize (Hb k Hk). lia.
Qed.

(** The first and last index of [np.where]: the least and the greatest
    position holding [True]. *)
Lemma first_last_np_where (v : list bool) :
  (exists i, nth_error v i = Some true) ->
  exists lo hi : nat,
    first_last (np_where v) = Ok (Z.of_nat lo, Z.of_nat hi)
    /\ nth_error v lo = Some true /\ nth_error v hi = Some true
    /\ forall i, nth_error v i = Some true -> (lo <= i <= hi)%nat.
Proof.
  intros (i0 & Hi0).
  assert (Hin0 : In (Z.of_nat i0) (np_where v)).
  { apply np_where_spec. now exists i0. }
  pose proof (where_from_sorted v 0) as Hs. fold (np_where v) in Hs.
  destruct (np_where v) as [|x l] eqn:Hw; [destruct Hin0|].
  destruct (sorted_first_last Hs) as [Hlast Hb].
  assert (Hx : exists lo, nth_error v lo = Some true /\ x = Z.of_nat lo).
  { apply np_where_spec. rewrite Hw. now left. }
  assert (Hl : exists hi, nth_error v hi = Some true /\ last (x :: l) x = Z.of_nat hi).
  { apply np_where_spec. rewrite Hw. exact Hlast. }
  destruct Hx as (lo & Hlo & ->). destruct Hl as (hi & Hhi & Hxhi).
  exists lo, hi. unfold first_last. rewrite Hxhi.
  split; [reflexivity|]. split; [assumption|]. split; [assumption|].
  intros i Hi.
  assert (Hin : In (Z.of_nat i) (Z.of_nat lo :: l)).
  { rewrite <- Hw. apply np_where_spec. now exists i. }
  specialize (Hb _ Hin). rewrite Hxhi in Hb. lia.
Qed.

End Where.

Section BoundingFacts.
Variable A : Type.
Variable nonzero : A -> bool.

Lemma existsb_nth_error (X : Type) (p : X -> bool) (l : list X) :
  existsb p l = true <-> exists i x, nth_error l i = Some x /\ p x = true.
Proof.
  rewrite existsb_exists. split.
  - intros (x & Hin & Hp). apply In_nth_error in Hin. destruct Hin as [i Hi].
    now exists i, x.
  - intros (i & x & Hi & Hp). exists x. split; [|assumption].
    eapply nth_error_In; eassumption.
Qed.

Lemma nth_error_map_seq (X : Type) (f : nat -> X) (k i : nat) (x : X) :
  nth_error (map f (seq 0 k)) i = Some x <-> (i < k)%nat /\ f i = x.
Proof.
  rewrite nth_error_map. split.
  - intros H. destruct (nth_error (seq 0 k) i) as [j|] eqn:Hj; [|discriminate].
    assert (Hlt : (i < k)%nat).
    { rewrite <- (length_seq k 0). apply nth_error_Some. congruence. }
    rewrite nth_error_seq in Hj.
    destruct (Nat.ltb_spec i k); [|lia]. injection Hj as <-. cbn in H.
    injection H as <-. auto.
  - intros [Hlt <-]. rewrite nth_error_seq.
    destruct (Nat.ltb_spec i k); [reflexivity|lia].
Qed.

Lemma any_axis0_spec (img : ndarray A 3) (x : nat) :
  nth_error (any_axis0 nonzero img) x = Some true <-> exists y z, occupied nonzero img x y z.
Proof.
  unfold any_axis0, occupied, voxel. rewrite nth_error_map.
  destruct (nth_error (data img) x) as [plane|]; cbn [option_map].
  - split.
    + intros H. injection H as H. apply existsb_nth_error in H.
      destruct H as (y & row & Hrow & H). apply existsb_nth_error in H.
      destruct H as (z & v & Hv & Hnz). exists y, z, v. now rewrite Hrow.
    + intros (y & z & v & H & Hnz). f_equal. apply existsb_nth_error.
      destruct (nth_error plane y) as [row|] eqn:Hrow; [|discriminate].
      exists y, row. split; [assumption|]. apply existsb_nth_error. now exists z, v.
  - split; [discriminate|]. intros (y & z & v & H & _). discriminate.
Qed.

Lemma any_axis1_spec (img : ndarray A 3) (y : nat) :
  wf img ->
  nth_error (any_axis1 nonzero img) y = Some true <-> exists x z, occupied nonzero img x y z.
Proof.
  intros (Hlen & Hpos & Hsh). unfold any_axis1, occupied, voxel.
  rewrite nth_error_map_seq. split.
  - intros [Hlt H]. apply existsb_nth_error in H.
    destruct H as (x & plane & Hplane & H).
    destruct (nth_error plane y) as [row|] eqn:Hrow; [|discriminate].
    apply existsb_nth_error in H. destruct H as (z & v & Hv & Hnz).
    exists x, z, v. now rewrite Hplane, Hrow.
  - intros (x & z & v & H & Hnz).
    destruct (nth_error (data img) x) as [plane|] eqn:Hplane; [|discriminate].
    destruct (nth_error plane y) as [row|] eqn:Hrow; [|discriminate].
    split.
    + destruct img as [sh dat]. cbn [shape data] in *.
      destruct sh as [|s0 [|s1 [|s2 [|? ?]]]]; try discriminate.
      destruct Hsh as [_ Hall]. rewrite Forall_forall in Hall.
      destruct (Hall plane (nth_error_In _ _ Hplane)) as [Hw _].
      cbn [nth]. rewrite <- Hw, Nat2Z.id.
      apply nth_error_Some. congruence.
    + apply existsb_nth_error. exists x, plane. split; [assumption|].
      rewrite Hrow. apply existsb_nth_error. now exists z, v.
Qed.

Lemma any_axis2_spec (img : ndarray A 3) (z : nat) :
  wf img ->
  nth_error (any_axis2 nonzero img) z = Some true <-> exists x y, occupied nonzero img x y z.
Proof.
  intros (Hlen & Hpos & Hsh). unfold any_axis2, occupied, voxel.
  rewrite nth_error_map_seq. split.
  - intros [Hlt H]. apply existsb_nth_error in H.
    destruct H as (x & plane & Hplane & H).
    apply existsb_nth_error in H. destruct H as (y & row & Hrow & H).
    destruct (nth_error row z) as [v|] eqn:Hv; [|discriminate].
    exists x, y, v. now rewrite Hplane, Hrow.
  - intros (x & y & v & H & Hnz).
    destruct (nth_error (data img) x) as [plane|] eqn:Hplane; [|discriminate].
    destruct (nth_error plane y) as [row|] eqn:Hrow; [|discriminate].
    split.
    + destruct img as [sh dat]. cbn [shape data] in *.
      destruct sh as [|s0 [|s1 [|s2 [|? ?]]]]; try discriminate.
      destruct Hsh as [_ Hall]. rewrite Forall_forall in Hall.
      destruct (Hall plane (nth_error_In _ _ Hplane)) as [_ Hrows].
      rewrite Forall_forall in Hrows.
      destruct (Hrows row (nth_error_In _ _ Hrow)) as [Hd _].
      cbn [nth]. rewrite <- Hd, Nat2Z.id.
      apply nth_error_Some. congruence.
    + apply existsb_nth_error. exists x, plane. split; [assumption|].
      apply existsb_nth_error. exists y, row. split; [assumption|]. now rewrite H.
Qed.

Lemma expand_axis_bounds (lo hi tgt ext x : Z) :
  0 <= lo -> lo <= x <= hi -> hi < ext -> hi - lo < tgt ->
  exists a b, expand_axis lo hi tgt ext = range a b /\ 0 <= a <= x /\ x < b <= ext.
Proof.
  intros Hlo Hx Hhi Ht. unfold expand_axis. eexists. eexists. split; [reflexivity|].
  pose proof (Z.div_mod (tgt - (hi - lo)) 2 ltac:(lia)).
  pose proof (Z.mod_pos_bound (tgt - (hi - lo)) 2 ltac:(lia)).
  lia.
Qed.

(** C7 (amended).  For a well-formed 3-D volume with a non-zero voxel and
    a target size that, on every axis, exceeds the distance between any two
    non-zero voxels (it is at least the tight extent), [bounding_volume]
    returns three ranges that lie within [0, extent] and contain the index
    of every non-zero voxel. *)
Theorem bounding_volume_contains_nonzero_extent
    (img : ndarray A 3) (t0 t1 t2 : Z) :
  wf img ->
  (exists x y z, occupied nonzero img x y z) ->
  (forall x y z x' y' z',
      occupied nonzero img x y z -> occupied nonzero img x' y' z' ->
      Z.of_nat x' - Z.of_nat x < t0
      /\ Z.of_nat y' - Z.of_nat y < t1
      /\ Z.of_nat z' - Z.of_nat z < t2) ->
  exists h w d a0 b0 a1 b1 a2 b2,
    shape img = [h; w; d]
    /\ bounding_volume nonzero img [t0; t1; t2]
       = Ok (range a0 b0, range a1 b1, range a2 b2)
    /\ (0 <= a0 /\ b0 <= h) /\ (0 <= a1 /\ b1 <= w) /\ (0 <= a2 /\ b2 <= d)
    /\ forall x y z,
        occupied nonzero img x y z ->
        a0 <= Z.of_nat x < b0 /\ a1 <= Z.of_nat y < b1 /\ a2 <= Z.of_nat z < b2.
Proof.
  intros Hwf (x0 & y0 & z0 & Hocc) Htight.
  destruct (@first_last_np_where (any_axis0 nonzero img)) as (lo0 & hi0 & E0 & L0 & H0 & B0).
  { exists x0. apply any_axis0_spec. eauto. }
  destruct (@first_last_np_where (any_axis1 nonzero img)) as (lo1 & hi1 & E1 & L1 & H1 & B1).
  { exists y0. apply any_axis1_spec; eauto. }
  destruct (@first_last_np_where (any_axis2 nonzero img)) as (lo2 & hi2 & E2 & L2 & H2 & B2).
  { exists z0. apply any_axis2_spec; eauto. }
  unfold bounding_volume. rewrite E0, E1, E2. cbn [bind fst snd].
  (* the extents *)
  assert (Hh : Z.of_nat hi0 < Z.of_nat (length (any_axis0 nonzero img))).
  { apply Nat2Z.inj_lt. apply nth_error_Some. congruence. }
  assert (Hw : Z.of_nat hi1 < Z.of_nat (length (any_axis1 nonzero img))).
  { apply Nat2Z.inj_lt. apply nth_error_Some. congruence. }
  assert (Hd : Z.of_nat hi2 < Z.of_nat (length (any_axis2 nonzero img))).
  { apply Nat2Z.inj_lt. apply nth_error_Some. congruence. }
  unfold any_axis0 in Hh. unfold any_axis1 in Hw. unfold any_axis2 in Hd.
  rewrite length_map in Hh. rewrite length_map, length_seq in Hw.
  rewrite length_map, length_seq in Hd.
  pose proof Hwf as (Hlen & Hpos & Hsh).
  destruct img as [sh dat]. cbn [shape data] in *.
  destruct sh as [|h [|w [|d [|? ?]]]]; try discriminate.
  cbn [nth] in Hw, Hd. destruct Hsh as [Hh' _].
  assert (Hh2 : Z.of_nat hi0 < h) by (rewrite <- Hh'; exact Hh).
  pose proof (Forall_inv Hpos) as Hh0.
  pose proof (Forall_inv (Forall_inv_tail Hpos)) as Hw0.
  pose proof (Forall_inv (Forall_inv_tail (Forall_inv_tail Hpos))) as Hd0.
  cbv beta in Hh0, Hw0, Hd0.
  rewrite Z2Nat.id in Hw, Hd by assumption.
  (* the tight extent is smaller than the target *)
  apply any_axis0_spec in L0, H0. destruct L0 as (? & ? & L0). destruct H0 as (? & ? & H0).
  apply any_axis1_spec in L1, H1; [|assumption..].
  destruct L1 as (? & ? & L1). destruct H1 as (? & ? & H1).
  apply any_axis2_spec in L2, H2; [|assumption..].
  destruct L2 as (? & ? & L2). destruct H2 as (? & ? & H2).
  destruct (Htight _ _ _ _ _ _ L0 H0) as (T0 & _ & _).
  destruct (Htight _ _ _ _ _ _ L1 H1) as (_ & T1 & _).
  destruct (Htight _ _ _ _ _ _ L2 H2) as (_ & _ & T2).
  pose proof (B0 x0 ltac:(apply any_axis0_spec; eauto)) as Bx.
  pose proof (B1 y0 ltac:(apply any_axis1_spec; eauto)) as By.
  pose proof (B2 z0 ltac:(apply any_axis2_spec; eauto)) as Bz.
  destruct (@expand_axis_bounds (Z.of_nat lo0) (Z.of_nat hi0) t0 h (Z.of_nat lo0))
    as (a0 & b0 & Ea0 & Ha0 & Hb0); try lia.
  destruct (@expand_axis_bounds (Z.of_nat lo1) (Z.of_nat hi1) t1 w (Z.of_nat lo1))
    as (a1 & b1 & Ea1 & Ha1 & Hb1); try lia.
  destruct (@expand_axis_bounds (Z.of_nat lo2) (Z.of_nat hi2) t2 d (Z.of_nat lo2))
    as (a2 & b2 & Ea2 & Ha2 & Hb2); try lia.
  exists h, w, d, a0, b0, a1, b1, a2, b2.
  cbn [tuple_index nth_error bind]. rewrite Ea0, Ea1, Ea2.
  split; [reflexivity|]. split; [reflexivity|].
  split; [lia|]. split; [lia|]. split; [lia|].
  intros px py pz Hxyz.
  pose proof (B0 px ltac:(apply any_axis0_spec; eauto)) as Cx.
  pose proof (B1 py ltac:(apply any_axis1_spec; eauto)) as Cy.
  pose proof (B2 pz ltac:(apply any_axis2_spec; eauto)) as Cz.
  destruct (@expand_axis_bounds (Z.of_nat lo0) (Z.of_nat hi0) t0 h (Z.of_nat px))
    as (a0' & b0' & Ea0' & Ha0' & Hb0'); try lia.
  destruct (@expand_axis_bounds (Z.of_nat lo1) (Z.of_nat hi1) t1 w (Z.of_nat py))
    as (a1' & b1' & Ea1' & Ha1' & Hb1'); try lia.
  destruct (@expand_axis_bounds (Z.of_nat lo2) (Z.of_nat hi2) t2 d (Z.of_nat pz))
    as (a2' & b2' & Ea2' & Ha2' & Hb2'); try lia.
  rewrite Ea0 in Ea0'. rewrite Ea1 in Ea1'. rewrite Ea2 in Ea2'.
  injection Ea0' as <- <-. injection Ea1' as <- <-. injection Ea2' as <- <-.
  lia.
Qed.

End BoundingFacts.

(** C7, refuted as stated: with non-zero voxels at 0 and 2 and target size
    1, the returned range on the first axis is [1, 2), which misses the
    voxel at index 0. *)
Lemma bounding_volume_misses_nonzero_voxel :
  bounding_volume int_nonzero vol_3x1x1_ends [1; 1; 1]
  = Ok (range 1 2, range 0 1, range 0 1)
  /\ occupied int_nonzero vol_3x1x1_ends 0 0 0
  /\ ~ (1 <= Z.of_nat 0 < 2).
Proof.
  split; [vm_compute; reflexivity|]. split; [|simpl; lia].
  exists 1. split; reflexivity.
Qed.


Lemma py_round_comp (x y : Q) : (x == y)%Q -> py_round x = py_round y.
Proof.
  intros H. unfold py_round. rewrite (Qfloor_comp _ _ H).
  assert (Hc : Qcompare (x - inject_Z (Qfloor y)) (1 # 2)
               = Qcompare (y - inject_Z (Qfloor y)) (1 # 2)).
  { apply Qcompare_comp; [|reflexivity]. now rewrite H. }
  now rewrite Hc.
Qed.

Lemma py_round_halves (s : Z) :
  py_round (s # 2)
  = if Z.even s then s / 2 else if Z.even (s / 2) then s / 2 else s / 2 + 1.
Proof.
  unfold py_round. change (Qfloor (s # 2)) with (s / 2).
  pose proof (Z.div_mod s 2 ltac:(lia)) as Hdm.
  pose proof (Z.mod_pos_bound s 2 ltac:(lia)) as Hb.
  rewrite Zmod_even in Hdm, Hb.
  unfold Qcompare, Qminus, Qplus, Qopp, inject_Z. cbn [Qnum Qden].
  destruct (Z.even s).
  - replace (_ ?= _) with Lt; [reflexivity|]. symmetry. apply Z.compare_lt_iff. lia.
  - replace (_ ?= _) with Eq; [reflexivity|]. symmetry. apply Z.compare_eq_iff. lia.
Qed.

Lemma centered_offset_integer (_min _max ts : Z) :
  centered_offset _min _max ts
  = Z.max 0 (round_half (_max + _min - ts)).
Proof.
  unfold centered_offset, round_half. cbv zeta. rewrite <- py_round_halves. f_equal.
  apply py_round_comp.
  unfold Qeq, Qminus, Qplus, Qopp, Qdiv, Qmult, Qinv, inject_Z. cbn [Qnum Qden].
  lia.
Qed.


Section OffsetFacts.
Variable A : Type.
Variable nonzero : A -> bool.
Variable n : nat.
Variable bbox_3d : ndarray bool n -> result (list Z).

Lemma clamp_offset_range (o ts imgs : Z) :
  ts <= imgs -> 0 <= clamp_offset o ts imgs /\ clamp_offset o ts imgs + ts <= imgs.
Proof. unfold clamp_offset. lia. Qed.

Lemma clamp_offset_negative (o ts imgs : Z) :
  imgs < ts -> clamp_offset o ts imgs < 0.
Proof. unfold clamp_offset. lia. Qed.

Lemma clamped_offsets_fit :
  forall offset ts sh : list Z,
    length offset = length ts -> length sh = length ts -> Forall2 Z.le ts sh ->
    existsb (fun o => o <? 0) (clamped_offsets offset ts sh) = false
    /\ length (clamped_offsets offset ts sh) = length ts
    /\ forall k o t s,
        nth_error (clamped_offsets offset ts sh) k = Some o ->
        nth_error ts k = Some t -> nth_error sh k = Some s ->
        0 <= o /\ o + t <= s.
Proof.
  unfold clamped_offsets.
  induction offset as [|o offset IH]; intros [|t ts] [|s sh] H1 H2 Hle;
    try discriminate.
  - split; [reflexivity|]. split; [reflexivity|]. intros [|k] ? ? ? H; discriminate.
  - inversion Hle as [|? ? ? ? Hts Hle']; subst.
    destruct (IH ts sh) as (He & Hl & Hk); [simpl in *; lia..|assumption|].
    cbn [zip3 map fst snd existsb length].
    destruct (@clamp_offset_range o t s Hts) as [Hc1 Hc2].
    split; [|split].
    + rewrite He. destruct (Z.ltb_spec (clamp_offset o t s) 0); [lia|reflexivity].
    + now rewrite Hl.
    + intros [|k] o' t' s' Ho Ht Hs; cbn [nth_error] in *.
      * injection Ho as <-. injection Ht as <-. injection Hs as <-. auto.
      * eapply Hk; eassumption.
Qed.

Lemma clamped_offsets_insufficient :
  forall offset ts sh : list Z,
    length offset = length ts -> length sh = length ts ->
    (exists k t s, nth_error ts k = Some t /\ nth_error sh k = Some s /\ s < t) ->
    existsb (fun o => o <? 0) (clamped_offsets offset ts sh) = true.
Proof.
  unfold clamped_offsets.
  induction offset as [|o offset IH]; intros [|t ts] [|s sh] H1 H2 (k & t' & s' & Ht & Hs & Hlt);
    try discriminate.
  - destruct k; discriminate.
  - cbn [zip3 map fst snd existsb]. destruct k as [|k]; cbn [nth_error] in *.
    + injection Ht as <-. injection Hs as <-.
      pose proof (@clamp_offset_negative o t s Hlt).
      destruct (Z.ltb_spec (clamp_offset o t s) 0); [reflexivity|lia].
    + rewrite IH; [apply orb_true_r|simpl in *; lia..|].
      exists k, t', s'. auto.
Qed.

Lemma centered_offsets_length (bbox ts : list Z) :
  length bbox = (2 * length ts)%nat -> length (centered_offsets bbox ts) = length ts.
Proof.
  intros H. unfold centered_offsets.
  rewrite length_map, !length_combine, length_firstn, length_skipn, H.
  replace (2 * length ts / 2)%nat with (length ts)
    by (rewrite Nat.mul_comm; now rewrite Nat.div_mul).
  lia.
Qed.

(** C8.  When the bounding box is available and the image shape is known
    (given, or taken from the array), with one target size and one image
    extent per axis: if every image extent is at least the target size, the
    returned offsets satisfy [0 <= o] and [o + target <= extent] on every
    axis; if some image extent is smaller than the target size, the
    insufficient-size error is raised. *)
Theorem bounding_volume_offset_clamped
    (img : img_or_bbox A n) (ts : list Z) (image_shape : option (list Z))
    (bbox img_shape : list Z) :
  bbox_of nonzero bbox_3d img = Ok bbox ->
  shape_of img image_shape = Some img_shape ->
  length bbox = (2 * length ts)%nat -> length img_shape = length ts ->
  (Forall2 Z.le ts img_shape ->
   exists offs,
     bounding_volume_offset nonzero bbox_3d img ts image_shape = Ok offs
     /\ length offs = length ts
     /\ forall k o t s,
         nth_error offs k = Some o -> nth_error ts k = Some t ->
         nth_error img_shape k = Some s -> 0 <= o /\ o + t <= s)
  /\ ((exists k t s, nth_error ts k = Some t /\ nth_error img_shape k = Some s /\ s < t) ->
      bounding_volume_offset nonzero bbox_3d img ts image_shape
      = Raise (RuntimeError "Insufficient image size for target image size")).
Proof.
  intros Hbbox Hshape Hlen Hlen'. unfold bounding_volume_offset.
  rewrite Hbbox, Hshape. cbn [bind].
  pose proof (centered_offsets_length bbox ts Hlen) as Hl.
  split.
  - intros Hle.
    destruct (@clamped_offsets_fit (centered_offsets bbox ts) ts img_shape Hl Hlen' Hle)
      as (He & Hl' & Hk).
    rewrite He. eexists. split; [reflexivity|]. split; assumption.
  - intros Hbad.
    now rewrite (@clamped_offsets_insufficient (centered_offsets bbox ts) ts img_shape).
Qed.

(** C10.  For a bounding box given as a sequence and no image shape, the
    call always returns, and the offset of an axis is
    [max 0 (round ((_max + _min - target) / 2))]: nothing clamps it from
    above and no error is raised. *)
Theorem bounding_volume_offset_of_bbox_is_not_clamped (bbox ts : list Z) :
  bounding_volume_offset nonzero bbox_3d (BBox bbox) ts None
  = Ok (map (fun mmt => Z.max 0 (round_half (snd (fst mmt) + fst (fst mmt) - snd mmt)))
            (combine (combine (firstn (length bbox / 2) bbox)
                              (skipn (length bbox / 2) bbox)) ts)).
Proof.
  unfold bounding_volume_offset, centered_offsets. cbn [bbox_of shape_of bind].
  f_equal. apply map_ext. intros [[_min _max] t]. apply centered_offset_integer.
Qed.

End OffsetFacts.


Section Assembly.

Lemma vox2ras_of_columns (x y z c : list Q) (m : matrix) :
  vox2ras_of x y z c = Ok m -> columns_over_bottom_row m x y z c.
Proof.
  unfold vox2ras_of.
  destruct (Nat.eqb_spec (length y) (length x)) as [Hy|]; [|discriminate].
  destruct (Nat.eqb_spec (length z) (length x)) as [Hz|]; [|discriminate].
  destruct (Nat.eqb_spec (length c) (length x)) as [Hc|]; [|discriminate].
  cbn [andb]. intros H. injection H as <-.
  unfold columns_over_bottom_row, mat_entry. cbn [shape data].
  repeat (split; [assumption || reflexivity|]).
  split.
  - intros i Hi.
    rewrite nth_error_app1 by (now rewrite length_map, length_seq).
    rewrite nth_error_map, nth_error_seq.
    destruct (Nat.ltb_spec i (length x)); [|lia]. cbn [option_map nth_error Nat.add].
    repeat split; symmetry; apply nth_error_nth'; lia.
  - rewrite nth_error_app2 by (rewrite length_map, length_seq; lia).
    rewrite length_map, length_seq, Nat.sub_diag. reflexivity.
Qed.

Lemma assemble_from (key : string) (v : volinfo) (m : matrix) :
  assemble key v = Ok m -> assembled_from m v.
Proof.
  unfold assemble, assembled_from, lookup.
  destruct (xras v) as [x|]; [|discriminate].
  destruct (yras v) as [y|]; [|discriminate].
  destruct (zras v) as [z|]; [|discriminate].
  destruct (cras v) as [c|]; [|discriminate].
  cbn [bind]. intros H. exists x, y, z, c.
  repeat (split; [reflexivity|]). now apply vox2ras_of_columns.
Qed.

(** C3 (amended).  The [src] and [dst] matrices returned by [readLTA] have
    the [xras], [yras], [zras] and [cras] vectors of their volume-info block
    as columns, as they were read and not scaled by the voxel size, over a
    bottom row [[0, 0, 0, 1]]. *)
Theorem readLTA_assembles_unscaled_matrices (lta_lines : list string) (d : lta_dict) :
  readLTA lta_lines = Ok d ->
  assembled_from (src d) (src_info (fields d))
  /\ assembled_from (dst d) (dst_info (fields d)).
Proof.
  unfold readLTA. destruct (scan lta_lines no_fields) as [f|]; [|discriminate].
  cbn [bind].
  destruct (assemble "src" (src_info f)) as [s|] eqn:Hs; [|discriminate].
  destruct (assemble "dst" (dst_info f)) as [t|] eqn:Ht; [|discriminate].
  cbn [bind]. intros H. injection H as <-. cbn [src dst fields].
  split; eapply assemble_from; eassumption.
Qed.

End Assembly.

(** C3, refuted as stated: for a file with source voxel size 2 and
    orientation vector [xras = (1, 0, 0)], the entry [(0, 0)] of [src] is 1,
    not 2. *)
Lemma readLTA_does_not_scale_by_voxelsize :
  exists d, readLTA lta_identity_file = Ok d
            /\ ~ scaled_by_voxelsize (src d) (src_info (fields d)).
Proof.
  eexists. split; [vm_compute; reflexivity|].
  intros (vs & x & y & z & Hvs & Hx & Hy & Hz & H).
  cbn in Hvs, Hx. injection Hvs as <-. injection Hx as <-.
  destruct (H 0%nat 0%nat ltac:(lia) ltac:(lia)) as (e & He & Heq).
  cbn in He. injection He as <-. cbn in Heq. discriminate.
Qed.

Lemma readLTA_assembles_unscaled_matrices_witness :
  exists d, readLTA lta_identity_file = Ok d
            /\ assembled_from (src d) (src_info (fields d))
            /\ assembled_from (dst d) (dst_info (fields d)).
Proof.
  eexists. split; [vm_compute; reflexivity|].
  apply (@readLTA_assembles_unscaled_matrices lta_identity_file). vm_compute. reflexivity.
Defined.


Section ListFacts.

Lemma map_nth_seq (X : Type) (l : list X) (d : X) :
  map (fun i => nth i l d) (seq 0 (length l)) = l.
Proof.
  induction l as [|x l IH]; [reflexivity|].
  cbn [length seq map nth]. f_equal. rewrite <- seq_shift, map_map. exact IH.
Qed.

Lemma map_seq_nth_map (X Y : Type) (f : X -> Y) (l : list X) (d : Y) :
  map (fun i => nth i (map f l) d) (seq 0 (length l)) = map f l.
Proof.
  rewrite <- (length_map f l). apply map_nth_seq.
Qed.

Lemma map_flat_map (X Y W : Type) (f : Y -> W) (g : X -> list Y) (l : list X) :
  map f (flat_map g l) = flat_map (fun x => map f (g x)) l.
Proof.
  induction l as [|x l IH]; [reflexivity|].
  cbn [flat_map]. now rewrite map_app, IH.
Qed.

Lemma concat_flat_map (X Y : Type) (g : X -> list (list Y)) (l : list X) :
  concat (flat_map g l) = flat_map (fun x => concat (g x)) l.
Proof.
  induction l as [|x l IH]; [reflexivity|].
  cbn [flat_map]. now rewrite concat_app, IH.
Qed.

Lemma chunks_flat_map (X Y : Type) (f : X -> list Y) (size : nat) (l : list X) :
  Forall (fun x => length (f x) = size) l ->
  chunks (length l) size (flat_map f l) = map f l.
Proof.
  induction 1 as [|x l Hx _ IH]; [reflexivity|].
  cbn [length chunks flat_map map].
  rewrite firstn_app, <- Hx, firstn_all, Nat.sub_diag. cbn [firstn].
  rewrite app_nil_r. f_equal.
  rewrite skipn_app, skipn_all, Nat.sub_diag. cbn [skipn app].
  rewrite Hx. exact IH.
Qed.

Lemma chunks_concat (X : Type) (size : nat) (rows : list (list X)) :
  Forall (fun r => length r = size) rows ->
  chunks (length rows) size (concat rows) = rows.
Proof.
  induction 1 as [|r rows Hr _ IH]; [reflexivity|].
  cbn [length chunks concat].
  rewrite firstn_app, <- Hr, firstn_all, Nat.sub_diag. cbn [firstn].
  rewrite app_nil_r. f_equal.
  rewrite skipn_app, skipn_all, Nat.sub_diag. cbn [skipn app].
  rewrite Hr. exact IH.
Qed.

Lemma length_flat_map_const (X Y : Type) (f : X -> list Y) (size : nat) (l : list X) :
  Forall (fun x => length (f x) = size) l ->
  length (flat_map f l) = (length l * size)%nat.
Proof.
  induction 1 as [|x l Hx _ IH]; [reflexivity|].
  cbn [flat_map length]. rewrite length_app, Hx, IH. lia.
Qed.

End ListFacts.

Section MatrixFacts.

Lemma nth_map_in (X Y : Type) (f : X -> Y) (l : list X) (q : nat) (d : Y) (d' : X) :
  (q < length l)%nat -> nth q (map f l) d = f (nth q l d').
Proof.
  intros H. rewrite (nth_indep _ d (f d')) by (now rewrite length_map).
  apply map_nth.
Qed.

Lemma nth_map_seq (Y : Type) (g : nat -> Y) (k q : nat) (d : Y) :
  (q < k)%nat -> nth q (map g (seq 0 k)) d = g q.
Proof.
  intros H. rewrite (nth_map_in g (seq 0 k) d 0%nat) by (now rewrite length_seq).
  now rewrite seq_nth.
Qed.

Lemma map_seq_nth (X Y : Type) (F : X -> Y) (l : list X) (d : X) :
  map (fun q => F (nth q l d)) (seq 0 (length l)) = map F l.
Proof.
  transitivity (map F (map (fun i => nth i l d) (seq 0 (length l)))).
  - now rewrite map_map.
  - now rewrite map_nth_seq.
Qed.

Lemma column_of_columns (pts : list (list Q)) (c q : nat) :
  (q < length pts)%nat -> length (nth q pts []) = c ->
  column q (map (fun j => column j pts) (seq 0 c)) = nth q pts [].
Proof.
  intros Hq Hc. unfold column. rewrite map_map.
  transitivity (map (fun j => nth j (nth q pts []) 0%Q) (seq 0 c));
    [|rewrite <- Hc; apply map_nth_seq].
  apply map_ext. intros j.
  now rewrite (nth_map_in (fun row => nth j row 0%Q) pts 0%Q []) by assumption.
Qed.

(** [matmul(m, p.transpose()).transpose()]: every row of [p] is
    multiplied by [m]. *)
Lemma matmul_transposed (m p : matrix) (r c npts : Z) :
  shape m = [r; c] -> shape p = [npts; c] ->
  Z.of_nat (length (data p)) = npts ->
  Forall (fun pt => length pt = Z.to_nat c) (data p) ->
  exists mp,
    matmul m (transpose p) = Ok mp
    /\ transpose mp
       = @NdArray Q 2 [npts; r]
           (map (fun pt => map (fun row => dot row pt) (data m)) (data p)).
Proof.
  intros Hm Hp Hn Hall.
  assert (Htp : transpose p
                = @NdArray Q 2 [c; npts]
                    (map (fun j => column j (data p)) (seq 0 (Z.to_nat c))))
    by (unfold transpose; now rewrite Hp).
  rewrite Htp. unfold matmul. rewrite Hm.
  cbn [shape data]. rewrite Z.eqb_refl. eexists. split; [reflexivity|].
  unfold transpose. cbn [shape data]. f_equal.
  rewrite <- Hn, Nat2Z.id.
  rewrite <- (map_seq_nth (fun pt => map (fun row => dot row pt) (data m)) (data p) []).
  apply map_ext_in. intros q Hq. apply in_seq in Hq.
  unfold column at 1. rewrite map_map. apply map_ext. intros row.
  rewrite nth_map_seq by lia. f_equal.
  apply column_of_columns; [lia|].
  rewrite Forall_forall in Hall. apply Hall. apply nth_In. lia.
Qed.

Lemma meshgrid_flat_grid (a b c : list Z) :
  meshgrid_flat a b c
  = (map (fun p => fst (fst p)) (grid a b c),
     map (fun p => snd (fst p)) (grid a b c),
     map (fun p => snd p) (grid a b c)).
Proof.
  unfold meshgrid_flat, grid.
  repeat f_equal; rewrite map_flat_map; apply flat_map_ext; intros i;
    rewrite map_flat_map; apply flat_map_ext; intros j;
    rewrite map_map; reflexivity.
Qed.

(** The homogeneous point matrix [p1] built from the grid. *)
Lemma points_of_grid (g : list (Z * Z * Z)) :
  append_ones
    (transpose
       (@NdArray Q 2 [3; Z.of_nat (length (map (fun p : Z * Z * Z => fst (fst p)) g))]
          [map inject_Z (map (fun p : Z * Z * Z => fst (fst p)) g);
           map inject_Z (map (fun p : Z * Z * Z => snd (fst p)) g);
           map inject_Z (map (fun p : Z * Z * Z => snd p) g)]))
  = @NdArray Q 2 [Z.of_nat (length g); 4] (map homogeneous g).
Proof.
  unfold transpose, append_ones. cbn [shape data]. rewrite length_map.
  f_equal. rewrite Nat2Z.id, map_map.
  rewrite <- (map_seq_nth homogeneous g (0, 0, 0)).
  apply map_ext_in. intros q Hq. apply in_seq in Hq.
  unfold column, homogeneous. cbn [map app].
  rewrite !map_map.
  rewrite !(nth_map_in _ g 0%Q (0, 0, 0)) by lia. reflexivity.
Qed.

End MatrixFacts.


Section Reshape.
Variable X : Type.
Variable dflt : X.

(** One level of [reshape]: a concatenation of equally long blocks is cut
    back into the blocks. *)
Lemma unflatten_blocks (W : Type) (n : nat) (k : Z) (rest : list Z)
    (f : W -> list X) (l : list W) :
  Z.to_nat k = length l ->
  Forall (fun x => length (f x) = Z.to_nat (prod_shape rest)) l ->
  unflatten (S n) (k :: rest) dflt (flat_map f l)
  = map (fun x => unflatten n rest dflt (f x)) l.
Proof.
  intros Hk Hall. cbn [unflatten]. rewrite Hk.
  rewrite (chunks_flat_map f Hall). apply map_map.
Qed.

Lemma unflatten_triple (r : list X) :
  length r = 3%nat -> unflatten 1 [3] dflt r = r.
Proof.
  destruct r as [|a [|b [|c [|? ?]]]]; try discriminate. reflexivity.
Qed.

Lemma unflatten_grid (g : Z * Z * Z -> list X) (a b c : list Z) (s0 s1 s2 : Z) :
  (forall p, length (g p) = 3%nat) ->
  s0 = Z.of_nat (length a) -> s1 = Z.of_nat (length b) -> s2 = Z.of_nat (length c) ->
  unflatten 4 [s0; s1; s2; 3] dflt (concat (map g (grid a b c)))
  = map (fun i => map (fun j => map (fun k => g (i, j, k)) c) b) a.
Proof.
  intros Hg -> -> ->. unfold grid.
  assert (Hrow : forall i j,
             length (concat (map g (map (fun k => (i, j, k)) c))) = (length c * 3)%nat).
  { intros i j. rewrite <- flat_map_concat_map.
    rewrite (@length_flat_map_const _ _ (fun x => g x) 3%nat).
    - now rewrite length_map.
    - apply Forall_forall. intros p _. apply Hg. }
  assert (Hplane : forall i,
             length (flat_map (fun j => concat (map g (map (fun k => (i, j, k)) c))) b)
             = (length b * (length c * 3))%nat).
  { intros i. apply length_flat_map_const. apply Forall_forall. intros j _. apply Hrow. }
  rewrite map_flat_map, concat_flat_map.
  rewrite unflatten_blocks.
  - apply map_ext. intros i.
    rewrite map_flat_map, concat_flat_map.
    rewrite unflatten_blocks.
    + apply map_ext. intros j.
      rewrite <- flat_map_concat_map.
      rewrite (@unflatten_blocks _ 1 (Z.of_nat (length c)) [3] (fun x => g x)).
      * rewrite !map_map. apply map_ext. intros k. apply unflatten_triple, Hg.
      * now rewrite length_map, Nat2Z.id.
      * apply Forall_forall. intros p _. rewrite Hg. reflexivity.
    + now rewrite Nat2Z.id.
    + apply Forall_forall. intros j _. rewrite Hrow.
      unfold prod_shape. cbn [fold_right]. lia.
  - now rewrite Nat2Z.id.
  - apply Forall_forall. intros i _. rewrite map_flat_map, concat_flat_map, Hplane.
    unfold prod_shape. cbn [fold_right]. lia.
Qed.

End Reshape.

Section CoordinateField.

Lemma length_grid (a b c : list Z) :
  length (grid a b c) = (length a * (length b * length c))%nat.
Proof.
  unfold grid. apply length_flat_map_const. apply Forall_forall. intros i _.
  rewrite (@length_flat_map_const _ _ _ (length c)); [reflexivity|].
  apply Forall_forall. intros j _. apply length_map.
Qed.

Lemma length_arange (k : Z) : 0 <= k -> Z.of_nat (length (arange k)) = k.
Proof. intros H. unfold arange. rewrite length_map, length_seq. lia. Qed.

(** The coordinate field holds, at every voxel, the binary16 rounding of
    the voxel index mapped by [lta * vox2ras]. *)
Lemma load_talairach_coordinates_field
    (tala_lines : list string) (d : lta_dict) (l vox2ras m : matrix) (s0 s1 s2 : Z) :
  readLTA tala_lines = Ok d ->
  type (fields d) = Some 1 -> lta (fields d) = Some l ->
  matmul l vox2ras = Ok m -> shape m = [4; 4] -> length (data m) = 4%nat ->
  0 <= s0 -> 0 <= s1 -> 0 <= s2 ->
  load_talairach_coordinates tala_lines (s0, s1, s2) vox2ras
  = Ok (@NdArray float16 4 [s0; s1; s2; 3]
          (map (fun i =>
                  map (fun j =>
                         map (fun k => map to_float16 (mapped m (i, j, k)))
                             (arange s2))
                      (arange s1))
               (arange s0))).
Proof.
  intros Hread Hty Hlta Hm Hsh Hrows H0 H1 H2.
  unfold load_talairach_coordinates. rewrite Hread. cbn [bind].
  rewrite meshgrid_flat_grid. cbv iota beta.
  set (g := grid (arange s0) (arange s1) (arange s2)).
  rewrite points_of_grid. rewrite Hty. cbn [lookup bind]. rewrite Z.eqb_refl.
  cbn [negb]. rewrite Hlta. cbn [lookup bind]. rewrite Hm. cbn [bind].
  destruct (@matmul_transposed m (@NdArray Q 2 [Z.of_nat (length g); 4] (map homogeneous g))
              4 4 (Z.of_nat (length g)) Hsh eq_refl) as (mp & Hmp & Htr).
  { cbn [data]. now rewrite length_map. }
  { cbn [data]. apply Forall_forall. intros pt Hpt. apply in_map_iff in Hpt.
    now destruct Hpt as (p & <- & _). }
  rewrite Hmp. cbn [bind]. rewrite Htr. cbn [data].
  destruct m as [msh mdat]. cbn [shape data] in *.
  destruct mdat as [|m0 [|m1 [|m2 [|m3 [|? ?]]]]]; try discriminate.
  assert (Hdata : getitem (@NdArray Q 2 [Z.of_nat (length g); 4]
                             (map (fun pt => map (fun row => dot row pt) [m0; m1; m2; m3])
                                  (map homogeneous g)))
                          [PySlice.all; Slice None (Some (-1))]
                  = @NdArray Q 2 [Z.of_nat (length g); 3]
                      (map (mapped (@NdArray Q 2 msh [m0; m1; m2; m3])) g)).
  { unfold getitem. cbn [shape data getitem_shape getitem_data]. f_equal.
    - f_equal. unfold length_on, indices, clip. cbn [start stop PySlice.all]. lia.
    - rewrite get_all, !map_map. apply map_ext. intros p. reflexivity. }
  rewrite Hdata. cbn [shape data].
  assert (Hlen : Z.of_nat (length g) = s0 * (s1 * s2)).
  { unfold g. rewrite length_grid, !Nat2Z.inj_mul, !length_arange by assumption.
    reflexivity. }
  assert (Hok : forallb (fun k => 0 <=? k) [s0; s1; s2; 3]
                && (prod_shape [Z.of_nat (length g); 3] =? prod_shape [s0; s1; s2; 3])
                = true).
  { apply andb_true_intro. split.
    - cbn [forallb]. rewrite !andb_true_r.
      repeat (apply andb_true_intro; split); apply Z.leb_le; lia.
    - apply Z.eqb_eq. unfold prod_shape. cbn [fold_right]. rewrite Hlen. ring. }
  rewrite Hok. f_equal. f_equal. unfold g.
  rewrite (@unflatten_grid Q 0%Q (mapped (@NdArray Q 2 msh [m0; m1; m2; m3]))
             (arange s0) (arange s1) (arange s2) s0 s1 s2)
    by (try (symmetry; now apply length_arange); intros p; reflexivity).
  cbn [nd_map]. rewrite map_map. apply map_ext. intros i.
  rewrite map_map. apply map_ext. intros j.
  rewrite map_map. reflexivity.
Qed.

End CoordinateField.


Section Float16.

Lemma to_float16_comp (x y : Q) : (x == y)%Q -> to_float16 x = to_float16 y.
Proof. intros H. unfold to_float16. now rewrite (Qred_complete _ _ H). Qed.

Lemma to_float16_small_nat_check :
  forallb (fun k => match to_float16 (inject_Z (Z.of_nat k)) with
                    | F16 q => (Qnum q =? Z.of_nat k) && (Qden q =? 1)%positive
                    | F16inf _ => false
                    end) (seq 0 2049) = true.
Proof. vm_compute. reflexivity. Qed.

(** The integers from 0 to 2048 are binary16 numbers. *)
Lemma to_float16_small_int (k : Z) :
  0 <= k <= 2048 -> to_float16 (inject_Z k) = F16 (inject_Z k).
Proof.
  intros Hk. pose proof to_float16_small_nat_check as H.
  rewrite forallb_forall in H. specialize (H (Z.to_nat k)).
  rewrite Z2Nat.id in H by lia.
  assert (Hin : In (Z.to_nat k) (seq 0 2049)) by (apply in_seq; lia).
  specialize (H Hin).
  destruct (to_float16 (inject_Z k)) as [[qn qd]|]; [|discriminate].
  apply andb_true_iff in H. cbn [Qnum Qden] in H. destruct H as [Hn Hd].
  apply Z.eqb_eq in Hn. apply Pos.eqb_eq in Hd. subst. reflexivity.
Qed.

Lemma mapped_identity (i j k : Z) :
  map to_float16 (mapped identity4 (i, j, k))
  = [to_float16 (inject_Z i); to_float16 (inject_Z j); to_float16 (inject_Z k)].
Proof.
  unfold mapped, identity4, homogeneous, dot.
  cbn [data firstn map combine fst snd fold_left].
  rewrite (@to_float16_comp _ (inject_Z i)) by ring.
  rewrite (@to_float16_comp (_ + 0 * 1) (inject_Z j)) by ring.
  rewrite (@to_float16_comp (_ + 0 * 1) (inject_Z k)) by ring.
  reflexivity.
Qed.

End Float16.

Section IdentityScenario.

(** C9 (amended).  For a transform file that [readLTA] accepts, of type 1
    and with the 4x4 identity as its matrix, and the identity as the
    voxel-to-world matrix, [load_talairach_coordinates] returns a field of
    shape [volume shape + [3]] whose entry at voxel [(x, y, z)] is the
    binary16 rounding of [(x, y, z)]; it is [(x, y, z)] itself for indices
    up to 2048. *)
Theorem talairach_identity_field_rounds_index_grid
    (tala_lines : list string) (d : lta_dict) (s0 s1 s2 : Z) :
  readLTA tala_lines = Ok d ->
  type (fields d) = Some 1 -> lta (fields d) = Some identity4 ->
  0 <= s0 -> 0 <= s1 -> 0 <= s2 ->
  exists field,
    load_talairach_coordinates tala_lines (s0, s1, s2) identity4 = Ok field
    /\ shape field = [s0; s1; s2; 3]
    /\ forall x y z : nat,
        Z.of_nat x < s0 -> Z.of_nat y < s1 -> Z.of_nat z < s2 ->
        field_at field x y z
        = [to_float16 (inject_Z (Z.of_nat x)); to_float16 (inject_Z (Z.of_nat y));
           to_float16 (inject_Z (Z.of_nat z))]
        /\ (Z.of_nat x <= 2048 -> Z.of_nat y <= 2048 -> Z.of_nat z <= 2048 ->
            field_at field x y z
            = [F16 (inject_Z (Z.of_nat x)); F16 (inject_Z (Z.of_nat y));
               F16 (inject_Z (Z.of_nat z))]).
Proof.
  intros Hread Hty Hlta H0 H1 H2.
  assert (Hm : matmul identity4 identity4 = Ok identity4) by (vm_compute; reflexivity).
  rewrite (@load_talairach_coordinates_field tala_lines d identity4 identity4 identity4
             s0 s1 s2 Hread Hty Hlta Hm eq_refl eq_refl H0 H1 H2).
  eexists. split; [reflexivity|]. split; [reflexivity|].
  intros x y z Hx Hy Hz.
  assert (Hentry : field_at
                     (@NdArray float16 4 [s0; s1; s2; 3]
                        (map (fun i =>
                                map (fun j =>
                                       map (fun k => map to_float16 (mapped identity4 (i, j, k)))
                                           (arange s2))
                                    (arange s1))
                             (arange s0))) x y z
                   = map to_float16
                       (mapped identity4 (Z.of_nat x, Z.of_nat y, Z.of_nat z))).
  { unfold field_at, arange. cbn [data]. rewrite !map_map.
    rewrite nth_map_seq by lia. rewrite !map_map.
    rewrite nth_map_seq by lia. rewrite !map_map.
    rewrite nth_map_seq by lia. reflexivity. }
  rewrite Hentry, mapped_identity. split; [reflexivity|].
  intros Bx By Bz. now rewrite !to_float16_small_int by lia.
Qed.

End IdentityScenario.

(** C9, refuted as stated: in a volume of extent 2050 the entry at index
    2049 holds 2048, the nearest binary16 number. *)
Lemma talairach_identity_field_misses_index_2049 :
  exists field,
    load_talairach_coordinates lta_identity_file (2050, 1, 1) identity4 = Ok field
    /\ field_at field 2049 0 0 = [F16 (inject_Z 2048); F16 0%Q; F16 0%Q]
    /\ F16 (inject_Z 2048) <> F16 (inject_Z 2049).
Proof.
  eexists. split; [vm_compute; reflexivity|].
  split; [vm_compute; reflexivity|]. discriminate.
Qed.

Lemma talairach_identity_field_rounds_index_grid_witness :
  exists field,
    load_talairach_coordinates lta_identity_file (2, 2, 3) identity4 = Ok field
    /\ shape field = [2; 2; 3; 3]
    /\ field_at field 1 0 2 = [F16 1%Q; F16 0%Q; F16 2%Q].
Proof.
  destruct (@talairach_identity_field_rounds_index_grid lta_identity_file
              _ 2 2 3 ltac:(vm_compute; reflexivity) eq_refl eq_refl
              ltac:(lia) ltac:(lia) ltac:(lia)) as (field & Hf & Hs & He).
  exists field. split; [exact Hf|]. split; [exact Hs|].
  destruct (He 1%nat 0%nat 2%nat ltac:(lia) ltac:(lia) ltac:(lia)) as [_ Hx].
  apply Hx; simpl; lia.
Defined.


Ltac solve_wf :=
  unfold wf; cbn; repeat (split || constructor); try reflexivity; try lia.

Lemma wf_vol_2x1x1 : wf vol_2x1x1.
Proof. solve_wf. Qed.

Lemma wf_vol_3x1x1_ends : wf vol_3x1x1_ends.
Proof. solve_wf. Qed.

Lemma map_size_roundtrip_when_padding_witness :
  wf vol_2x1x1 /\ Forall2 Z.le (shape vol_2x1x1) [3; 2; 1]
  /\ exists out borders,
      map_size 0 vol_2x1x1 [3; 2; 1] true = Ok (out, Some borders)
      /\ slice_at_borders out borders = vol_2x1x1.
Proof.
  assert (Hwf : wf vol_2x1x1) by solve_wf.
  assert (Hle : Forall2 Z.le (shape vol_2x1x1) [3; 2; 1])
    by (cbn; repeat constructor; lia).
  split; [exact Hwf|]. split; [exact Hle|].
  exact (@map_size_roundtrip_when_padding Z 0 vol_2x1x1 [3; 2; 1] Hwf Hle).
Defined.

Lemma map_size_agrees_with_centered_crop_transform_witness :
  exists out,
    map_size 0 vol_2x1x1 [4; 1; 1] false = Ok (out, None)
    /\ crop_transform vol_2x1x1 None (Some [4; 1; 1]) None 0 = Ok out.
Proof.
  apply (proj1 (@map_size_agrees_with_centered_crop_transform Z 0)).
  - solve_wf.
  - repeat constructor; lia.
  - cbn. repeat constructor; intros; try lia; reflexivity.
Defined.

Lemma occupied_vol_3x1x1_ends (x y z : nat) :
  occupied int_nonzero vol_3x1x1_ends x y z -> (x <= 2 /\ y = 0 /\ z = 0)%nat.
Proof.
  intros (v & Hv & _). unfold voxel in Hv. cbn [data vol_3x1x1_ends] in Hv.
  destruct x as [|[|[|x]]]; cbn [nth_error] in Hv;
    try (destruct x; discriminate);
    (destruct y as [|y]; cbn [nth_error] in Hv; [|destruct y; discriminate]);
    (destruct z as [|z]; cbn [nth_error] in Hv; [|destruct z; discriminate]); lia.
Qed.

Lemma bounding_volume_contains_nonzero_extent_witness :
  exists h w d a0 b0 a1 b1 a2 b2,
    shape vol_3x1x1_ends = [h; w; d]
    /\ bounding_volume int_nonzero vol_3x1x1_ends [3; 1; 1]
       = Ok (range a0 b0, range a1 b1, range a2 b2)
    /\ (0 <= a0 /\ b0 <= h) /\ (0 <= a1 /\ b1 <= w) /\ (0 <= a2 /\ b2 <= d)
    /\ forall x y z,
        occupied int_nonzero vol_3x1x1_ends x y z ->
        a0 <= Z.of_nat x < b0 /\ a1 <= Z.of_nat y < b1 /\ a2 <= Z.of_nat z < b2.
Proof.
  apply (@bounding_volume_contains_nonzero_extent Z int_nonzero vol_3x1x1_ends 3 1 1).
  - solve_wf.
  - exists 0%nat, 0%nat, 0%nat, 1. split; reflexivity.
  - intros x y z x' y' z' H H'.
    apply occupied_vol_3x1x1_ends in H, H'. lia.
Defined.

Lemma bounding_volume_offset_clamped_witness :
  exists offs,
    bounding_volume_offset int_nonzero bbox_3d_of_mask (Volume vol_2x2x2) [1; 1; 1] None
    = Ok offs
    /\ length offs = 3%nat.
Proof.
  destruct (@bounding_volume_offset_clamped Z int_nonzero 3 bbox_3d_of_mask
              (Volume vol_2x2x2) [1; 1; 1] None [0; 0; 0; 1; 1; 1] [2; 2; 2]
              ltac:(vm_compute; reflexivity) eq_refl eq_refl eq_refl) as [Hfit _].
  destruct (Hfit ltac:(repeat constructor; lia)) as (offs & Ho & Hl & _).
  exists offs. split; [exact Ho|exact Hl].
Defined.

(** A precomputed box near the far corner: without the image shape the
    window starts at 6, with an image of extent 8 it is moved back to 4, and
    an image of extent 3 is too small. *)
Lemma bounding_volume_offset_examples :
  bounding_volume_offset int_nonzero bbox_3d_of_mask (BBox [8; 8; 8; 9; 9; 9]) [4; 4; 4] None
  = Ok [6; 6; 6]
  /\ bounding_volume_offset int_nonzero bbox_3d_of_mask (BBox [8; 8; 8; 9; 9; 9]) [4; 4; 4]
       (Some [8; 8; 8])
     = Ok [4; 4; 4]
  /\ bounding_volume_offset int_nonzero bbox_3d_of_mask (BBox [8; 8; 8; 9; 9; 9]) [4; 4; 4]
       (Some [8; 3; 8])
     = Raise (RuntimeError "Insufficient image size for target image size").
Proof. repeat split; vm_compute; reflexivity. Qed.

Section Elementwise.

Lemma for_each_map (X Y : Type) (f : X -> result Y) (g : X -> Y) (l : list X) :
  Forall (fun v => f v = Ok (g v)) l -> for_each f l = Ok (map g l).
Proof.
  induction 1 as [|v l Hv _ IH]; [reflexivity|].
  cbn [for_each map]. rewrite Hv. cbn [bind]. rewrite IH. reflexivity.
Qed.

Lemma for_each_raise (X Y : Type) (f : X -> result Y) (l : list X) (e : exn) :
  for_each f l = Raise e -> exists v, In v l /\ f v = Raise e.
Proof.
  induction l as [|v l IH]; cbn [for_each]; [discriminate|].
  destruct (f v) as [y|e'] eqn:Hv; cbn [bind].
  - destruct (for_each f l) as [ys|e'']; cbn [bind]; [discriminate|].
    intros H. injection H as ->. destruct (IH eq_refl) as (v' & Hin & Hv').
    exists v'. split; [now right|assumption].
  - intros H. injection H as ->. exists v. split; [now left|assumption].
Qed.

Lemma for_each_ok (X Y : Type) (f : X -> result Y) (l : list X) (ys : list Y) :
  for_each f l = Ok ys -> Forall (fun v => exists y, f v = Ok y) l.
Proof.
  revert ys. induction l as [|v l IH]; intros ys; cbn [for_each]; [constructor|].
  destruct (f v) as [y|e] eqn:Hv; cbn [bind]; [|discriminate].
  destruct (for_each f l) as [ys'|e] eqn:Hl; cbn [bind]; [|discriminate].
  intros _. constructor; [now exists y|]. eapply IH. reflexivity.
Qed.

Lemma unflatten_row (X : Type) (dflt : X) (l : list X) :
  unflatten 1 [Z.of_nat (length l)] dflt l = l.
Proof.
  cbn [unflatten prod_shape fold_right]. rewrite Nat2Z.id.
  change (Z.to_nat 1) with 1%nat.
  induction l as [|x l IH]; [reflexivity|].
  cbn [length chunks map firstn skipn hd]. f_equal. exact IH.
Qed.

Lemma concat_concat_flat (X : Type) (dat : list (list (list X))) :
  concat (concat dat) = flat_map (@concat X) dat.
Proof.
  induction dat as [|p dat IH]; [reflexivity|].
  cbn [concat flat_map]. now rewrite concat_app, IH.
Qed.

Lemma length_concat_const (X : Type) (rows : list (list X)) (size : nat) :
  Forall (fun r => length r = size) rows ->
  length (concat rows) = (length rows * size)%nat.
Proof.
  induction 1 as [|r rows Hr _ IH]; [reflexivity|].
  cbn [concat length]. rewrite length_app, Hr, IH. lia.
Qed.

(** Reshaping the flattened, elementwise mapped values of a volume to its
    own shape gives the mapped volume. *)
Lemma unflatten_map_ravel (X Y : Type) (g : X -> Y) (dflt : Y)
    (h w d : Z) (dat : nd X 3) :
  has_shape X 3 [h; w; d] dat -> 0 <= h -> 0 <= w -> 0 <= d ->
  unflatten 3 [h; w; d] dflt (map g (concat (concat dat))) = nd_map g 3 dat.
Proof.
  intros [Hh Hall] H0 H1 H2.
  assert (Hplane : Forall (fun plane : list (list X) =>
                             length plane = Z.to_nat w
                             /\ Forall (fun row => length row = Z.to_nat d) plane) dat).
  { apply Forall_forall. intros plane Hin. rewrite Forall_forall in Hall.
    destruct (Hall plane Hin) as [Hw Hrows]. split; [lia|].
    apply Forall_forall. intros row Hr. rewrite Forall_forall in Hrows.
    destruct (Hrows row Hr) as [Hd _]. lia. }
  rewrite concat_concat_flat, map_flat_map.
  rewrite (@unflatten_blocks Y dflt _ 2 h [w; d]).
  - cbn [nd_map]. apply map_ext_in. intros plane Hin.
    rewrite Forall_forall in Hplane. destruct (Hplane plane Hin) as [Hw Hrows].
    rewrite <- (map_id plane) at 1. rewrite <- flat_map_concat_map, map_flat_map.
    rewrite (@unflatten_blocks Y dflt _ 1 w [d]).
    + apply map_ext_in. intros row Hr. rewrite Forall_forall in Hrows.
      specialize (Hrows row Hr).
      replace d with (Z.of_nat (length (map g row))) by (rewrite length_map; lia).
      apply unflatten_row.
    + lia.
    + apply Forall_forall. intros row Hr. rewrite Forall_forall in Hrows.
      rewrite length_map, (Hrows row Hr). unfold prod_shape. cbn [fold_right]. lia.
  - lia.
  - apply Forall_forall. intros plane Hin.
    rewrite Forall_forall in Hplane. destruct (Hplane plane Hin) as [Hw Hrows].
    rewrite length_map, (length_concat_const Hrows), Hw.
    unfold prod_shape. cbn [fold_right]. lia.
Qed.

Lemma length_ravel (X : Type) (h w d : Z) (dat : nd X 3) :
  has_shape X 3 [h; w; d] dat -> 0 <= h -> 0 <= w -> 0 <= d ->
  Z.of_nat (length (concat (concat dat))) = h * w * d.
Proof.
  intros [Hh Hall] H0 H1 H2.
  rewrite concat_concat_flat, flat_map_concat_map.
  rewrite (@length_concat_const _ (map (@concat _) dat) (Z.to_nat w * Z.to_nat d)).
  - rewrite length_map. lia.
  - apply Forall_map. apply Forall_forall. intros plane Hin. rewrite Forall_forall in Hall.
    destruct (Hall plane Hin) as [Hw Hrows].
    rewrite (@length_concat_const _ plane (Z.to_nat d)); [lia|].
    apply Forall_forall. intros row Hr. rewrite Forall_forall in Hrows.
    destruct (Hrows row Hr) as [Hd _]. lia.
Qed.

(** A look-up that succeeds on every voxel maps the volume elementwise. *)
Lemma take_volume_map (table : list Z) (g : Z -> Z) (a : ndarray Z 3) :
  wf a -> Forall (fun v => np_take table v = Ok (g v)) (ravel a) ->
  take_volume table a = Ok (@NdArray Z 3 (shape a) (nd_map g 3 (data a))).
Proof.
  intros (Hlen & Hpos & Hsh) Hall. unfold take_volume.
  destruct a as [sh dat]. cbn [shape data] in *.
  destruct sh as [|h [|w [|d [|? ?]]]]; try discriminate.
  pose proof (Forall_inv Hpos) as H0.
  pose proof (Forall_inv (Forall_inv_tail Hpos)) as H1.
  pose proof (Forall_inv (Forall_inv_tail (Forall_inv_tail Hpos))) as H2.
  cbv beta in H0, H1, H2.
  rewrite (@for_each_map _ _ _ g _ Hall). cbn [bind]. unfold ravel. cbn [data].
  rewrite length_map, (@length_ravel _ h w d dat Hsh H0 H1 H2), Z.eqb_refl.
  now rewrite (@unflatten_map_ravel _ _ g 0 h w d dat Hsh H0 H1 H2).
Qed.

End Elementwise.

Section LookupTables.

Lemma for_each_exists_raise (X Y : Type) (f : X -> result Y) (l : list X) (e0 : exn) :
  (forall v e, f v = Raise e -> e = e0) ->
  Exists (fun v => exists e, f v = Raise e) l -> for_each f l = Raise e0.
Proof.
  intros Hone. induction l as [|v l IH]; intros Hex.
  - inversion Hex.
  - cbn [for_each]. destruct (f v) as [y|e] eqn:Hv; cbn [bind].
    + inversion Hex as [? ? [e He]|? ? Hex']; subst; [congruence|].
      now rewrite (IH Hex').
    + now rewrite (Hone v e Hv).
Qed.

Lemma np_take_in_range (table : list Z) (i : Z) :
  0 <= i < Z.of_nat (length table) ->
  np_take table i = Ok (nth (Z.to_nat i) table 0).
Proof.
  intros Hi. unfold np_take, np_index.
  destruct (Z.leb_spec 0 i); [|lia].
  destruct (Z.ltb_spec i (Z.of_nat (length table))); [|lia]. reflexivity.
Qed.

Lemma np_take_raises (table : list Z) (i : Z) :
  (exists e, np_take table i = Raise e)
  <-> i < - Z.of_nat (length table) \/ Z.of_nat (length table) <= i.
Proof.
  unfold np_take, np_index.
  destruct (Z.leb_spec 0 i); destruct (Z.ltb_spec i (Z.of_nat (length table)));
    destruct (Z.leb_spec (- Z.of_nat (length table)) i); destruct (Z.ltb_spec i 0);
    cbn [andb bind]; split; try lia; try (intros [e He]; discriminate);
    try (intros _; eexists; reflexivity).
Qed.

Lemma np_take_only_index_error (table : list Z) (i : Z) (e : exn) :
  np_take table i = Raise e -> e = IndexError "index is out of bounds".
Proof.
  unfold np_take, np_index.
  destruct ((0 <=? i) && (i <? Z.of_nat (length table))); cbn [bind]; [discriminate|].
  destruct ((- Z.of_nat (length table) <=? i) && (i <? 0)); cbn [bind]; [discriminate|].
  now intros [= <-].
Qed.

(** The look-up of a well-formed volume fails, with an [IndexError], when
    and only when some voxel lies outside the table, counting from either
    end. *)
Lemma take_volume_index_error (table : list Z) (a : ndarray Z 3) :
  wf a ->
  (exists e, take_volume table a = Raise e)
  <-> some_voxel (fun v => v < - Z.of_nat (length table) \/ Z.of_nat (length table) <= v) a.
Proof.
  intros Hwf. pose proof Hwf as (Hlen & Hpos & Hsh).
  unfold some_voxel. split.
  - intros [e He]. apply Exists_exists.
    destruct (for_each (np_take table) (ravel a)) as [flat|e'] eqn:Hf.
    + exfalso. pose proof (@for_each_ok _ _ _ _ _ Hf) as Hall.
      assert (Hg : Forall (fun v => np_take table v
                                    = Ok (match np_take table v with Ok y => y | Raise _ => 0 end))
                          (ravel a)).
      { eapply Forall_impl; [|exact Hall]. cbv beta. intros v [y ->]. reflexivity. }
      rewrite (@take_volume_map table _ a Hwf Hg) in He. discriminate.
    + destruct (@for_each_raise _ _ _ _ _ Hf) as (v & Hin & Hv).
      exists v. split; [assumption|]. apply np_take_raises. now exists e'.
  - intros Hex. exists (IndexError "index is out of bounds").
    unfold take_volume. destruct a as [sh dat]. cbn [shape data] in *.
    destruct sh as [|h [|w [|d [|? ?]]]]; try discriminate.
    rewrite (@for_each_exists_raise _ _ (np_take table) _ (IndexError "index is out of bounds")).
    + reflexivity.
    + intros v e. apply np_take_only_index_error.
    + eapply Exists_impl; [|exact Hex]. cbv beta. intros v Hv. now apply np_take_raises.
Qed.

Lemma take_volume_raise_is_index_error (table : list Z) (a : ndarray Z 3) (e : exn) :
  wf a -> take_volume table a = Raise e -> e = IndexError "index is out of bounds".
Proof.
  intros Hwf He.
  destruct (for_each (np_take table) (ravel a)) as [flat|e'] eqn:Hf.
  - exfalso. pose proof (@for_each_ok _ _ _ _ _ Hf) as Hall.
    assert (Hg : Forall (fun v => np_take table v
                                  = Ok (match np_take table v with Ok y => y | Raise _ => 0 end))
                        (ravel a)).
    { eapply Forall_impl; [|exact Hall]. cbv beta. intros v [y ->]. reflexivity. }
    rewrite (@take_volume_map table _ a Hwf Hg) in He. discriminate.
  - destruct (@for_each_raise _ _ _ _ _ Hf) as (v & _ & Hv).
    pose proof (@np_take_only_index_error _ _ _ Hv) as ->.
    destruct Hwf as (Hlen & _ & _).
    unfold take_volume in He. destruct a as [sh dat]. cbn [shape data] in *.
    destruct sh as [|h [|w [|d [|? ?]]]]; try discriminate.
    rewrite Hf in He. cbn [bind] in He. now injection He as <-.
Qed.

(** *** Elementwise maps of a volume *)

Lemma nd_map_3_ext_in (X Y : Type) (f g : X -> Y) (dat : nd X 3) :
  Forall (fun v => f v = g v) (concat (concat dat)) ->
  nd_map f 3 dat = nd_map g 3 dat.
Proof.
  intros H. rewrite Forall_forall in H. cbn [nd_map].
  apply map_ext_in. intros plane Hp. apply map_ext_in. intros row Hr.
  apply map_ext_in. intros v Hv. apply H.
  apply in_concat. exists row. split; [|assumption].
  apply in_concat. exists plane. split; assumption.
Qed.

Lemma nd_map_3_id (X : Type) (dat : nd X 3) : nd_map (fun v : X => v) 3 dat = dat.
Proof.
  cbn [nd_map]. rewrite <- (map_id dat) at 2. apply map_ext. intros plane.
  rewrite <- (map_id plane) at 2. apply map_ext. intros row. apply map_id.
Qed.

Lemma nd_map_3_comp (X Y W : Type) (f : Y -> W) (g : X -> Y) (dat : nd X 3) :
  nd_map f 3 (nd_map g 3 dat) = nd_map (fun v => f (g v)) 3 dat.
Proof.
  cbn [nd_map]. rewrite map_map. apply map_ext. intros plane.
  rewrite map_map. apply map_ext. intros row. apply map_map.
Qed.

Lemma ravel_nd_map (X Y : Type) (g : X -> Y) (dat : nd X 3) :
  concat (concat (nd_map g 3 dat)) = map g (concat (concat dat)).
Proof.
  cbn [nd_map]. rewrite !concat_concat_flat, map_flat_map, flat_map_concat_map.
  rewrite map_map, <- flat_map_concat_map. apply flat_map_ext. intros plane.
  now rewrite concat_map.
Qed.

Lemma has_shape_nd_map (X Y : Type) (g : X -> Y) (n : nat) :
  forall (sh : list Z) (x : nd X n),
    has_shape X n sh x -> has_shape Y n sh (nd_map g n x).
Proof.
  induction n as [|m IH]; intros sh x; [exact (fun H => H)|].
  cbn [has_shape nd_map]. destruct sh as [|k rest]; [exact (fun H => H)|].
  intros [Hk Hall]. split; [now rewrite length_map|].
  apply Forall_map. eapply Forall_impl; [|exact Hall]. intros y. apply IH.
Qed.

Lemma wf_nd_map (X Y : Type) (g : X -> Y) (n : nat) (a : ndarray X n) :
  wf a -> wf (@NdArray Y n (shape a) (nd_map g n (data a))).
Proof.
  intros (Hlen & Hpos & Hsh). unfold wf. cbn [shape data].
  split; [assumption|]. split; [assumption|]. now apply has_shape_nd_map.
Qed.

(** *** The two tables *)

Lemma lut_of_label_values : lut_of label_values = Ok lut_subseg.
Proof. vm_compute. reflexivity. Qed.

Lemma lut_subseg_classes (v : Z) :
  0 <= v <= 38 -> np_take lut_subseg v = Ok (class_of v).
Proof.
  intros Hv.
  assert (H : forallb (fun k => match np_take lut_subseg (Z.of_nat k) with
                                | Ok c => c =? class_of (Z.of_nat k)
                                | Raise _ => false
                                end) (seq 0 39) = true) by (vm_compute; reflexivity).
  rewrite forallb_forall in H. specialize (H (Z.to_nat v)).
  rewrite Z2Nat.id in H by lia.
  assert (Hin : In (Z.to_nat v) (seq 0 39)) by (apply in_seq; lia).
  specialize (H Hin). destruct (np_take lut_subseg v) as [c|e]; [|discriminate].
  apply Z.eqb_eq in H. now subst.
Qed.

Lemma label_values_facts (v : Z) :
  In v label_values ->
  0 <= v <= 38 /\ 0 <= class_of v < 28 /\ label_at (class_of v) = v.
Proof.
  intros Hin.
  assert (H : forallb (fun v => (0 <=? v) && (v <=? 38) && (0 <=? class_of v)
                                && (class_of v <? 28) && (label_at (class_of v) =? v))
                      label_values = true) by (vm_compute; reflexivity).
  rewrite forallb_forall in H. specialize (H v Hin).
  rewrite !andb_true_iff in H. destruct H as ((((H1 & H2) & H3) & H4) & H5).
  apply Z.eqb_eq in H5. lia.
Qed.

Lemma label_at_facts (i : Z) :
  0 <= i < 28 ->
  In (label_at i) label_values /\ class_of (label_at i) = i.
Proof.
  intros Hi.
  assert (H : forallb (fun k => class_of (label_at (Z.of_nat k)) =? Z.of_nat k) (seq 0 28)
              = true) by (vm_compute; reflexivity).
  rewrite forallb_forall in H. specialize (H (Z.to_nat i)).
  rewrite Z2Nat.id in H by lia.
  split.
  - unfold label_at. apply nth_In. change (length label_values) with 28%nat. lia.
  - apply Z.eqb_eq, H, in_seq. lia.
Qed.

Lemma shape_3 (X : Type) (a : ndarray X 3) :
  wf a -> exists h w d, shape a = [h; w; d].
Proof.
  intros (Hlen & _ & _). destruct (shape a) as [|h [|w [|d [|? ?]]]]; try discriminate.
  now exists h, w, d.
Qed.

Lemma map_subseg2label_as_take (subseg : ndarray Z 3) :
  wf subseg ->
  map_subseg2label subseg "cereb_subseg" = take_volume lut_subseg subseg.
Proof.
  intros Hwf. destruct (shape_3 Hwf) as (h & w & d & Hs).
  unfold map_subseg2label. rewrite Hs.
  change (subseg_labels "cereb_subseg") with (Ok label_values). cbn [bind].
  rewrite lut_of_label_values. reflexivity.
Qed.

Lemma map_label2subseg_as_take (mapped_subseg : ndarray Z 3) :
  map_label2subseg mapped_subseg "cereb_subseg" = take_volume label_values mapped_subseg.
Proof. reflexivity. Qed.

(** Every label value 0..38 becomes its class: the position of the value
    in [CLASS_NAMES], and Background (0) for a value that is none of its
    labels (9, 15, 21, 29..36). *)
Theorem map_subseg2label_classes (subseg : ndarray Z 3) :
  wf subseg -> all_voxels (fun v => 0 <= v <= 38) subseg ->
  map_subseg2label subseg "cereb_subseg"
  = Ok (@NdArray Z 3 (shape subseg) (nd_map class_of 3 (data subseg))).
Proof.
  intros Hwf Hall. rewrite map_subseg2label_as_take by assumption.
  apply take_volume_map; [assumption|].
  eapply Forall_impl; [|exact Hall]. intros v. apply lut_subseg_classes.
Qed.

(** Labels to classes and back: on a volume of [CLASS_NAMES] labels,
    [map_label2subseg] undoes [map_subseg2label]. *)
Theorem map_label2subseg_inverts_map_subseg2label (subseg : ndarray Z 3) :
  wf subseg -> all_voxels (fun v => In v label_values) subseg ->
  exists mapped,
    map_subseg2label subseg "cereb_subseg" = Ok mapped
    /\ all_voxels (fun c => 0 <= c < 28) mapped
    /\ map_label2subseg mapped "cereb_subseg" = Ok subseg.
Proof.
  intros Hwf Hall. unfold all_voxels in *.
  exists (@NdArray Z 3 (shape subseg) (nd_map class_of 3 (data subseg))).
  split; [|split].
  - rewrite map_subseg2label_as_take by assumption.
    apply take_volume_map; [assumption|].
    eapply Forall_impl; [|exact Hall]. intros v Hv.
    apply lut_subseg_classes. now apply label_values_facts.
  - unfold ravel. cbn [data]. rewrite ravel_nd_map. apply Forall_map.
    eapply Forall_impl; [|exact Hall]. intros v Hv. now apply label_values_facts.
  - rewrite map_label2subseg_as_take.
    rewrite (@take_volume_map label_values label_at).
    + cbn [shape data]. rewrite nd_map_3_comp.
      rewrite (@nd_map_3_ext_in _ _ (fun v => label_at (class_of v)) (fun v => v)).
      * rewrite nd_map_3_id. now destruct subseg.
      * eapply Forall_impl; [|exact Hall]. intros v Hv. now apply label_values_facts.
    + now apply wf_nd_map.
    + unfold ravel. cbn [data]. rewrite ravel_nd_map. apply Forall_map.
      eapply Forall_impl; [|exact Hall]. intros v Hv. cbv beta.
      apply np_take_in_range. change (Z.of_nat (length label_values)) with 28.
      now apply label_values_facts.
Qed.

(** Classes to labels and back: on a volume of classes 0..27,
    [map_subseg2label] undoes [map_label2subseg]. *)
Theorem map_subseg2label_inverts_map_label2subseg (mapped_subseg : ndarray Z 3) :
  wf mapped_subseg -> all_voxels (fun c => 0 <= c < 28) mapped_subseg ->
  exists subseg,
    map_label2subseg mapped_subseg "cereb_subseg" = Ok subseg
    /\ all_voxels (fun v => In v label_values) subseg
    /\ map_subseg2label subseg "cereb_subseg" = Ok mapped_subseg.
Proof.
  intros Hwf Hall. unfold all_voxels in *.
  exists (@NdArray Z 3 (shape mapped_subseg) (nd_map label_at 3 (data mapped_subseg))).
  split; [|split].
  - rewrite map_label2subseg_as_take.
    apply take_volume_map; [assumption|].
    eapply Forall_impl; [|exact Hall]. intros c Hc. cbv beta.
    apply np_take_in_range. change (Z.of_nat (length label_values)) with 28. exact Hc.
  - unfold ravel. cbn [data]. rewrite ravel_nd_map. apply Forall_map.
    eapply Forall_impl; [|exact Hall]. intros c Hc. now apply label_at_facts.
  - rewrite map_subseg2label_as_take by now apply wf_nd_map.
    rewrite (@take_volume_map lut_subseg class_of).
    + cbn [shape data]. rewrite nd_map_3_comp.
      rewrite (@nd_map_3_ext_in _ _ (fun c => class_of (label_at c)) (fun c => c)).
      * rewrite nd_map_3_id. now destruct mapped_subseg.
      * eapply Forall_impl; [|exact Hall]. intros c Hc. now apply label_at_facts.
    + now apply wf_nd_map.
    + unfold ravel. cbn [data]. rewrite ravel_nd_map. apply Forall_map.
      eapply Forall_impl; [|exact Hall]. intros c Hc. cbv beta.
      apply lut_subseg_classes. apply label_values_facts. now apply label_at_facts.
Qed.

(** [map_subseg2label] fails exactly on a volume with a voxel below -39 or
    above 38, and then with an [IndexError]; values -39..-1 are not
    rejected, they index the table from its end. *)
Theorem map_subseg2label_index_error (subseg : ndarray Z 3) :
  wf subseg ->
  ((exists e, map_subseg2label subseg "cereb_subseg" = Raise e)
   <-> some_voxel (fun v => v < -39 \/ 38 < v) subseg)
  /\ (forall e, map_subseg2label subseg "cereb_subseg" = Raise e ->
                e = IndexError "index is out of bounds").
Proof.
  intros Hwf. rewrite map_subseg2label_as_take by assumption. split.
  - rewrite (@take_volume_index_error lut_subseg _ Hwf).
    change (Z.of_nat (length lut_subseg)) with 39. unfold some_voxel.
    split; intros H; (eapply Exists_impl; [|exact H]); cbv beta; intros v Hv; lia.
  - intros e. now apply take_volume_raise_is_index_error.
Qed.

(** [map_label2subseg] fails exactly on a volume with a class below -28 or
    above 27, and then with an [IndexError]. *)
Theorem map_label2subseg_index_error (mapped_subseg : ndarray Z 3) :
  wf mapped_subseg ->
  ((exists e, map_label2subseg mapped_subseg "cereb_subseg" = Raise e)
   <-> some_voxel (fun c => c < -28 \/ 27 < c) mapped_subseg)
  /\ (forall e, map_label2subseg mapped_subseg "cereb_subseg" = Raise e ->
                e = IndexError "index is out of bounds").
Proof.
  intros Hwf. rewrite map_label2subseg_as_take. split.
  - rewrite (@take_volume_index_error label_values _ Hwf).
    change (Z.of_nat (length label_values)) with 28. unfold some_voxel.
    split; intros H; (eapply Exists_impl; [|exact H]); cbv beta; intros v Hv; lia.
  - intros e. now apply take_volume_raise_is_index_error.
Qed.

End LookupTables.

Section PlanVoxels.
Variable A : Type.

Lemma axis_nth_error (X Y : Type) (f : X -> Y) (blk : Y) (p : slice * (Z * Z))
    (l : list X) (k : nat) (i t o : Z) :
  Z.of_nat (length l) = i -> axis_shift p i t o -> Z.of_nat k < t ->
  nth_error (repeat blk (Z.to_nat (fst (snd p)))
               ++ map f (get (fst p) l)
               ++ repeat blk (Z.to_nat (snd (snd p)))) k
  = Some (if 0 <=? Z.of_nat k + o
          then match nth_error l (Z.to_nat (Z.of_nat k + o)) with
               | Some v => f v
               | None => blk
               end
          else blk).
Proof.
  intros Hl (Hlo & Hhi & Hb & Ha & Ht & Ho & Hbl & Hah) Hk.
  unfold get. rewrite Hl.
  destruct (indices (fst p) i) as [lo hi] eqn:Hind. cbn [fst snd] in *.
  destruct p as [s [b a]]. cbn [fst snd] in *.
  destruct (Z.ltb_spec (Z.of_nat k) b) as [Hkb|Hkb].
  - rewrite nth_error_app1 by (rewrite repeat_length; lia).
    rewrite nth_error_repeat by lia.
    destruct (Z.leb_spec 0 (Z.of_nat k + o)); [lia|reflexivity].
  - rewrite nth_error_app2 by (rewrite repeat_length; lia).
    rewrite repeat_length.
    destruct (Z.ltb_spec (Z.of_nat k) (b + (hi - lo))) as [Hkh|Hkh].
    + rewrite nth_error_app1
        by (rewrite length_map, length_firstn, length_skipn; lia).
      rewrite nth_error_map, nth_error_firstn, nth_error_skipn.
      destruct (Nat.ltb_spec (k - Z.to_nat b) (Z.to_nat (hi - lo))); [|lia].
      destruct (Z.leb_spec 0 (Z.of_nat k + o)); [|lia].
      replace (Z.to_nat lo + (k - Z.to_nat b))%nat with (Z.to_nat (Z.of_nat k + o)) by lia.
      destruct (nth_error l (Z.to_nat (Z.of_nat k + o))) as [v|] eqn:Hv; [reflexivity|].
      apply nth_error_None in Hv. lia.
    + rewrite nth_error_app2
        by (rewrite length_map, length_firstn, length_skipn; lia).
      rewrite nth_error_repeat
        by (rewrite length_map, length_firstn, length_skipn; lia).
      destruct (Z.leb_spec 0 (Z.of_nat k + o)); [|reflexivity].
      destruct (nth_error l (Z.to_nat (Z.of_nat k + o))) as [v|] eqn:Hv; [|reflexivity].
      assert (Hlt : (Z.to_nat (Z.of_nat k + o) < length l)%nat)
        by (apply nth_error_Some; congruence).
      lia.
Qed.

Lemma axis_shift_extent (p : slice * (Z * Z)) (i t o : Z) :
  axis_shift p i t o ->
  fst (snd p) + length_on (fst p) i + snd (snd p) = t
  /\ 0 <= fst (snd p) /\ 0 <= snd (snd p).
Proof.
  intros (Hlo & Hhi & Hb & Ha & Ht & _). unfold length_on.
  destruct (indices (fst p) i) as [lo hi]. cbn [fst snd] in *. lia.
Qed.

Lemma make_indices_axis_shift (o t i : Z) :
  0 <= i -> 0 <= t -> - t <= o <= i ->
  axis_shift (make_indices_axis o t i) i t o.
Proof.
  intros Hi Ht Ho. unfold axis_shift, make_indices_axis, indices, clip, range.
  cbn [fst snd start stop].
  destruct (Z.ltb_spec (Z.max 0 o) 0); [lia|].
  destruct (Z.ltb_spec (Z.min (o + t) i) 0); [lia|].
  lia.
Qed.

Lemma map_size_axis_shift (i j : Z) :
  0 <= i -> 0 <= j ->
  axis_shift (fst (map_size_axis i j)) i j ((i - j) / 2).
Proof.
  intros Hi Hj. unfold axis_shift, map_size_axis.
  pose proof (Z.div_mod (i - j) 2 ltac:(lia)) as Hdm.
  pose proof (Z.mod_pos_bound (i - j) 2 ltac:(lia)) as Hm.
  set (left := (i - j) / 2) in *.
  destruct (Z.ltb_spec 0 (i - j)) as [Hd|Hd];
    unfold indices, clip, range, PySlice.all; cbn [fst snd start stop].
  - destruct (Z.ltb_spec left 0); [lia|].
    destruct (Z.ltb_spec (left + j) 0); [lia|]. lia.
  - lia.
Qed.

(** The array a plan produces. *)
Lemma apply_plan_data (n : nat) (image : ndarray A n)
    (plan : list (slice * (Z * Z))) (pad : A) :
  wf image -> length plan = n ->
  Forall (fun p => 0 <= fst (snd p) /\ 0 <= snd (snd p)) plan ->
  apply_plan image plan pad
  = Ok (NdArray (plan_shape plan (shape image))
          (pad_data n (map snd plan) (getitem_shape (map fst plan) (shape image)) pad
             (getitem_data A n (map fst plan) (data image)))).
Proof.
  intros Hwf Hlen Hnn. unfold apply_plan, plan_shape.
  destruct (any_nonzero (map snd plan)) eqn:Hany.
  - unfold np_pad. rewrite as_pairs_ok.
    + reflexivity.
    + now rewrite length_map.
    + apply Forall_map. exact Hnn.
  - apply any_nonzero_false in Hany. unfold getitem.
    now rewrite pad_shape_zero, pad_data_zero.
Qed.

(** What a plan leaves of a volume, voxel by voxel. *)
Lemma plan_voxels (image : ndarray A 3) (p0 p1 p2 : slice * (Z * Z)) (pad : A)
    (i0 i1 i2 t0 t1 t2 o0 o1 o2 : Z) :
  wf image -> shape image = [i0; i1; i2] ->
  axis_shift p0 i0 t0 o0 -> axis_shift p1 i1 t1 o1 -> axis_shift p2 i2 t2 o2 ->
  exists out,
    apply_plan image [p0; p1; p2] pad = Ok out
    /\ shape out = [t0; t1; t2]
    /\ forall x y z : nat,
        Z.of_nat x < t0 -> Z.of_nat y < t1 -> Z.of_nat z < t2 ->
        voxel out x y z
        = Some (voxel_or image pad (Z.of_nat x + o0) (Z.of_nat y + o1) (Z.of_nat z + o2)).
Proof.
  intros Hwf Hshape H0 H1 H2.
  destruct (axis_shift_extent H0) as (E0 & B0 & A0).
  destruct (axis_shift_extent H1) as (E1 & B1 & A1).
  destruct (axis_shift_extent H2) as (E2 & B2 & A2).
  rewrite apply_plan_data; [|assumption|reflexivity|].
  2:{ repeat constructor; assumption. }
  eexists. split; [reflexivity|].
  destruct Hwf as (_ & _ & Hsh).
  destruct image as [sh dat]. cbn [shape data] in *. subst sh.
  destruct p0 as [s0 [b0 a0]], p1 as [s1 [b1 a1]], p2 as [s2 [b2 a2]].
  cbn [fst snd] in *.
  unfold plan_shape. cbn [map fst snd getitem_shape pad_shape shape].
  split; [now rewrite E0, E1, E2|].
  intros x y z Hx Hy Hz.
  destruct Hsh as [Hl0 Hplanes].
  unfold voxel_or, voxel.
  cbn [data pad_data getitem_data full pad_shape]. rewrite !map_map.
  rewrite E1, E2.
  set (blk1 := repeat pad (Z.to_nat t2)).
  set (blk2 := repeat blk1 (Z.to_nat t1)).
  assert (Hblk1 : nth_error blk1 z = Some pad)
    by (unfold blk1; apply nth_error_repeat; lia).
  assert (Hblk2 : nth_error blk2 y = Some blk1)
    by (unfold blk2; apply nth_error_repeat; lia).
  pose proof (fun f => @axis_nth_error _ _ f blk2 (s0, (b0, a0)) dat x i0 t0 o0 Hl0 H0 Hx)
    as Hax0.
  cbn [fst snd] in Hax0. rewrite Hax0. clear Hax0.
  destruct (Z.leb_spec 0 (Z.of_nat x + o0)) as [Hx0|Hx0]; cbn [andb];
    [|now rewrite Hblk2, Hblk1].
  destruct (nth_error dat (Z.to_nat (Z.of_nat x + o0))) as [plane|] eqn:Hplane.
  2:{ rewrite Hblk2, Hblk1. now destruct ((0 <=? Z.of_nat y + o1) && (0 <=? Z.of_nat z + o2)). }
  rewrite Forall_forall in Hplanes.
  destruct (Hplanes plane (nth_error_In _ _ Hplane)) as [Hl1 Hrows].
  pose proof (fun f => @axis_nth_error _ _ f blk1 (s1, (b1, a1)) plane y i1 t1 o1 Hl1 H1 Hy)
    as Hax1.
  cbn [fst snd] in Hax1. unfold blk1 in Hax1. rewrite !map_map, Hax1. clear Hax1. fold blk1.
  destruct (Z.leb_spec 0 (Z.of_nat y + o1)) as [Hy0|Hy0]; cbn [andb];
    [|now rewrite Hblk1].
  destruct (nth_error plane (Z.to_nat (Z.of_nat y + o1))) as [row|] eqn:Hrow.
  2:{ rewrite Hblk1. now destruct (0 <=? Z.of_nat z + o2). }
  rewrite Forall_forall in Hrows.
  destruct (Hrows row (nth_error_In _ _ Hrow)) as [Hl2 _].
  pose proof (fun f => @axis_nth_error _ _ f pad (s2, (b2, a2)) row z i2 t2 o2 Hl2 H2 Hz)
    as Hax2.
  cbn [fst snd] in Hax2. rewrite !map_map, Hax2. clear Hax2.
  destruct (Z.leb_spec 0 (Z.of_nat z + o2)) as [Hz0|Hz0]; [|reflexivity].
  now destruct (nth_error row (Z.to_nat (Z.of_nat z + o2))).
Qed.

End PlanVoxels.

Section Voxelwise.
Variable A : Type.

(** [crop_transform] with explicit offsets, voxel by voxel: entry
    [(x, y, z)] of the result is entry [(x + o0, y + o1, z + o2)] of the
    image where the image has one, and the pad value elsewhere, for every
    window that starts no earlier than [- target] and no later than the
    extent of its axis. *)
Theorem crop_transform_offsets_voxels (image : ndarray A 3) (pad : A)
    (i0 i1 i2 o0 o1 o2 t0 t1 t2 : Z) :
  wf image -> shape image = [i0; i1; i2] ->
  0 <= t0 -> 0 <= t1 -> 0 <= t2 ->
  - t0 <= o0 <= i0 -> - t1 <= o1 <= i1 -> - t2 <= o2 <= i2 ->
  exists out,
    crop_transform image (Some [o0; o1; o2]) (Some [t0; t1; t2]) None pad = Ok out
    /\ shape out = [t0; t1; t2]
    /\ forall x y z : nat,
        Z.of_nat x < t0 -> Z.of_nat y < t1 -> Z.of_nat z < t2 ->
        voxel out x y z
        = Some (voxel_or image pad (Z.of_nat x + o0) (Z.of_nat y + o1) (Z.of_nat z + o2)).
Proof.
  intros Hwf Hs T0 T1 T2 O0 O1 O2. pose proof Hwf as (Hlen & Hpos & _).
  rewrite crop_transform_offsets; [|assumption|reflexivity|reflexivity|].
  2:{ repeat constructor; assumption. }
  rewrite Hs in Hpos |- *.
  pose proof (Forall_inv Hpos) as I0.
  pose proof (Forall_inv (Forall_inv_tail Hpos)) as I1.
  pose proof (Forall_inv (Forall_inv_tail (Forall_inv_tail Hpos))) as I2.
  cbv beta in I0, I1, I2.
  cbn [zip3 map fst snd].
  apply (@plan_voxels A image _ _ _ pad i0 i1 i2 t0 t1 t2 o0 o1 o2 Hwf Hs);
    apply make_indices_axis_shift; assumption.
Qed.

(** [crop_transform] with its default offsets, voxel by voxel: the window
    starts at [int((extent - target) / 2)] on every axis. *)
Theorem crop_transform_default_voxels (image : ndarray A 3) (pad : A)
    (i0 i1 i2 t0 t1 t2 : Z) :
  wf image -> shape image = [i0; i1; i2] ->
  0 <= t0 -> 0 <= t1 -> 0 <= t2 ->
  exists out,
    crop_transform image None (Some [t0; t1; t2]) None pad = Ok out
    /\ shape out = [t0; t1; t2]
    /\ forall x y z : nat,
        Z.of_nat x < t0 -> Z.of_nat y < t1 -> Z.of_nat z < t2 ->
        voxel out x y z
        = Some (voxel_or image pad (Z.of_nat x + Z.quot (i0 - t0) 2)
                                   (Z.of_nat y + Z.quot (i1 - t1) 2)
                                   (Z.of_nat z + Z.quot (i2 - t2) 2)).
Proof.
  intros Hwf Hs T0 T1 T2. pose proof Hwf as (Hlen & Hpos & _).
  rewrite crop_transform_default; [|assumption|cbn; lia].
  rewrite Hs in Hpos |- *.
  pose proof (Forall_inv Hpos) as I0.
  pose proof (Forall_inv (Forall_inv_tail Hpos)) as I1.
  pose proof (Forall_inv (Forall_inv_tail (Forall_inv_tail Hpos))) as I2.
  cbv beta in I0, I1, I2.
  cbn [length Nat.sub firstn app]. unfold centered_plan. cbn [combine map fst snd].
  assert (Hq : forall i t, 0 <= i -> 0 <= t -> - t <= default_offset t i <= i).
  { intros i t Hi Ht. unfold default_offset.
    destruct (Z.le_ge_cases t i).
    - pose proof (Z.quot_pos (i - t) 2 ltac:(lia) ltac:(lia)).
      pose proof (Z.quot_le_upper_bound (i - t) 2 (i - t) ltac:(lia) ltac:(lia)). lia.
    - replace (i - t) with (- (t - i)) by lia. rewrite Z.quot_opp_l by lia.
      pose proof (Z.quot_pos (t - i) 2 ltac:(lia) ltac:(lia)).
      pose proof (Z.quot_le_upper_bound (t - i) 2 (t - i) ltac:(lia) ltac:(lia)). lia. }
  apply (@plan_voxels A image _ _ _ pad i0 i1 i2 t0 t1 t2 _ _ _ Hwf Hs);
    apply make_indices_axis_shift; try assumption; apply Hq; assumption.
Qed.

Variable zero : A.

(** [map_size], voxel by voxel: entry [(x, y, z)] of the result is entry
    [(x + d0, y + d1, z + d2)] of the input, with [d = (extent - base) // 2]
    on every axis, where the input has one, and zero elsewhere. *)
Theorem map_size_voxels (arr : ndarray A 3) (i0 i1 i2 j0 j1 j2 : Z) :
  wf arr -> shape arr = [i0; i1; i2] ->
  0 <= j0 -> 0 <= j1 -> 0 <= j2 ->
  exists out,
    map_size zero arr [j0; j1; j2] false = Ok (out, None)
    /\ shape out = [j0; j1; j2]
    /\ forall x y z : nat,
        Z.of_nat x < j0 -> Z.of_nat y < j1 -> Z.of_nat z < j2 ->
        voxel out x y z
        = Some (voxel_or arr zero (Z.of_nat x + (i0 - j0) / 2)
                                  (Z.of_nat y + (i1 - j1) / 2)
                                  (Z.of_nat z + (i2 - j2) / 2)).
Proof.
  intros Hwf Hs J0 J1 J2. pose proof Hwf as (Hlen & Hpos & _).
  rewrite map_size_as_plan by assumption.
  rewrite Hs in Hpos |- *.
  pose proof (Forall_inv Hpos) as I0.
  pose proof (Forall_inv (Forall_inv_tail Hpos)) as I1.
  pose proof (Forall_inv (Forall_inv_tail (Forall_inv_tail Hpos))) as I2.
  cbv beta in I0, I1, I2.
  unfold map_size_plan. cbn [combine map fst snd].
  destruct (@plan_voxels A arr (fst (map_size_axis i0 j0)) (fst (map_size_axis i1 j1))
              (fst (map_size_axis i2 j2)) zero i0 i1 i2 j0 j1 j2
              ((i0 - j0) / 2) ((i1 - j1) / 2) ((i2 - j2) / 2) Hwf Hs)
    as (out & Hout & Hshape & Hvox); try (apply map_size_axis_shift; assumption).
  exists out. rewrite Hout. cbn [bind]. auto.
Qed.

End Voxelwise.

Section BoundingWindow.
Variable A : Type.
Variable nonzero : A -> bool.

Lemma np_where_nil (v : list bool) :
  (forall i, nth_error v i <> Some true) -> np_where v = [].
Proof.
  intros H. destruct (np_where v) as [|k l] eqn:Hw; [reflexivity|].
  assert (Hin : In k (np_where v)) by (rewrite Hw; now left).
  apply np_where_spec in Hin. destruct Hin as (i & Hi & _). now destruct (H i).
Qed.

(** On a volume with a non-zero voxel [bounding_volume] returns the three
    windows around the first and last occupied index of each axis. *)
Lemma bounding_volume_runs (img : ndarray A 3) (t0 t1 t2 : Z) :
  wf img -> (exists x y z, occupied nonzero img x y z) ->
  exists (h w d : Z) (lo0 hi0 lo1 hi1 lo2 hi2 : nat),
    shape img = [h; w; d]
    /\ bounding_volume nonzero img [t0; t1; t2]
       = Ok (expand_axis (Z.of_nat lo0) (Z.of_nat hi0) t0 h,
             expand_axis (Z.of_nat lo1) (Z.of_nat hi1) t1 w,
             expand_axis (Z.of_nat lo2) (Z.of_nat hi2) t2 d).
Proof.
  intros Hwf (x0 & y0 & z0 & Hocc).
  destruct (@first_last_np_where (any_axis0 nonzero img)) as (lo0 & hi0 & E0 & _).
  { exists x0. apply any_axis0_spec. eauto. }
  destruct (@first_last_np_where (any_axis1 nonzero img)) as (lo1 & hi1 & E1 & _).
  { exists y0. apply any_axis1_spec; eauto. }
  destruct (@first_last_np_where (any_axis2 nonzero img)) as (lo2 & hi2 & E2 & _).
  { exists z0. apply any_axis2_spec; eauto. }
  unfold bounding_volume. rewrite E0, E1, E2. cbn [bind fst snd].
  destruct Hwf as (Hlen & _ & _).
  destruct (shape img) as [|h [|w [|d [|? ?]]]]; try discriminate.
  exists h, w, d, lo0, hi0, lo1, hi1, lo2, hi2. split; reflexivity.
Qed.

Lemma expand_axis_width (lo hi tgt ext : Z) :
  exists a b,
    expand_axis lo hi tgt ext = range a b
    /\ b - a <= tgt /\ (0 < a -> b < ext -> b - a = tgt).
Proof.
  unfold expand_axis. eexists. eexists. split; [reflexivity|]. lia.
Qed.

(** [bounding_volume] fails exactly on a volume without a non-zero voxel,
    and then with the [IndexError] of indexing an empty [np.where]. *)
Theorem bounding_volume_fails_on_blank_volume (img : ndarray A 3) (t0 t1 t2 : Z) :
  wf img ->
  ((exists e, bounding_volume nonzero img [t0; t1; t2] = Raise e)
   <-> forall x y z, ~ occupied nonzero img x y z)
  /\ (forall e, bounding_volume nonzero img [t0; t1; t2] = Raise e ->
                e = IndexError "index 0 is out of bounds for axis 0 with size 0").
Proof.
  intros Hwf.
  assert (Hblank : (forall x y z, ~ occupied nonzero img x y z) ->
                   bounding_volume nonzero img [t0; t1; t2]
                   = Raise (IndexError "index 0 is out of bounds for axis 0 with size 0")).
  { intros Hb. unfold bounding_volume. rewrite np_where_nil; [reflexivity|].
    intros i Hi. apply any_axis0_spec in Hi. destruct Hi as (y & z & Hocc).
    exact (Hb _ _ _ Hocc). }
  assert (Hfull : forall e, bounding_volume nonzero img [t0; t1; t2] = Raise e ->
                            forall x y z, ~ occupied nonzero img x y z).
  { intros e He x y z Hocc.
    destruct (@bounding_volume_runs img t0 t1 t2 Hwf) as (h & w & d & l0 & h0 & l1 & h1 & l2 & h2 & _ & Hok);
      [now exists x, y, z|].
    rewrite Hok in He. discriminate. }
  split; [split|].
  - intros [e He]. exact (Hfull e He).
  - intros Hb. eexists. exact (Hblank Hb).
  - intros e He. pose proof (Hblank (Hfull e He)) as H. rewrite H in He. now injection He.
Qed.

(** The ranges [bounding_volume] returns never hold more than the target
    number of indices, and hold exactly that many on an axis where neither
    end of the window was clamped to the volume. *)
Theorem bounding_volume_window_size (img : ndarray A 3) (t0 t1 t2 : Z) :
  wf img -> (exists x y z, occupied nonzero img x y z) ->
  exists h w d a0 b0 a1 b1 a2 b2,
    shape img = [h; w; d]
    /\ bounding_volume nonzero img [t0; t1; t2]
       = Ok (range a0 b0, range a1 b1, range a2 b2)
    /\ (b0 - a0 <= t0 /\ (0 < a0 -> b0 < h -> b0 - a0 = t0))
    /\ (b1 - a1 <= t1 /\ (0 < a1 -> b1 < w -> b1 - a1 = t1))
    /\ (b2 - a2 <= t2 /\ (0 < a2 -> b2 < d -> b2 - a2 = t2)).
Proof.
  intros Hwf Hocc.
  destruct (@bounding_volume_runs img t0 t1 t2 Hwf Hocc)
    as (h & w & d & l0 & h0 & l1 & h1 & l2 & h2 & Hs & Hok).
  destruct (expand_axis_width (Z.of_nat l0) (Z.of_nat h0) t0 h) as (a0 & b0 & E0 & W0).
  destruct (expand_axis_width (Z.of_nat l1) (Z.of_nat h1) t1 w) as (a1 & b1 & E1 & W1).
  destruct (expand_axis_width (Z.of_nat l2) (Z.of_nat h2) t2 d) as (a2 & b2 & E2 & W2).
  exists h, w, d, a0, b0, a1, b1, a2, b2.
  rewrite Hok, E0, E1, E2. auto.
Qed.

End BoundingWindow.

Section PadThenCrop.
Variable A : Type.

Lemma quot_half_bounds (k : Z) : 0 <= k -> 0 <= Z.quot k 2 <= k.
Proof.
  intros Hk. pose proof (Z.quot_pos k 2 ltac:(lia) ltac:(lia)).
  pose proof (Z.quot_le_upper_bound k 2 k ltac:(lia) ltac:(lia)). lia.
Qed.

Lemma default_offset_pad (i t : Z) :
  i <= t -> default_offset t i = - Z.quot (t - i) 2.
Proof.
  intros H. unfold default_offset. replace (i - t) with (- (t - i)) by lia.
  apply Z.quot_opp_l. lia.
Qed.

Lemma centered_axis_pad (i t : Z) :
  0 <= i <= t ->
  let p := make_indices_axis (default_offset t i) t i in
  let ax := centered_pad_axis (i, t) in
  snd p = ax_pad ax /\ same_on i (fst p) PySlice.all
  /\ (0 <= snd (fst ax) /\ 0 <= snd ax)
  /\ snd (fst ax) + i + snd ax = t.
Proof.
  intros Hit.
  pose proof (@quot_half_bounds (t - i) ltac:(lia)) as Hq.
  pose proof (@default_offset_pad i t ltac:(lia)) as Ho.
  unfold make_indices_axis, centered_pad_axis, ax_pad. cbn [fst snd].
  rewrite Ho. split; [|split; [|split]].
  - f_equal; lia.
  - unfold same_on, indices, clip, range, PySlice.all. cbn [start stop].
    destruct (Z.ltb_spec (Z.max 0 (- Z.quot (t - i) 2)) 0); [lia|].
    destruct (Z.ltb_spec (Z.min (- Z.quot (t - i) 2 + t) i) 0); [lia|].
    f_equal; lia.
  - lia.
  - lia.
Qed.

Lemma centered_axis_crop_back (i t : Z) :
  0 <= i <= t ->
  make_indices_axis (default_offset i t) i t
  = (border_slice (ax_border (centered_pad_axis (i, t))), (0, 0)).
Proof.
  intros Hit.
  pose proof (@quot_half_bounds (t - i) ltac:(lia)) as Hq.
  pose proof (@default_offset_pad i t ltac:(lia)) as Ho.
  unfold make_indices_axis, centered_pad_axis, ax_border, border_slice. cbn [fst snd].
  rewrite Ho. unfold default_offset, range.
  f_equal; [f_equal; f_equal; lia|f_equal; lia].
Qed.

(** Padding with default offsets: every axis is taken whole and padded by
    the widths of [centered_pad_axis]. *)
Lemma centered_plan_pad_only (sh ts : list Z) :
  Forall2 Z.le sh ts -> Forall (fun k => 0 <= k) sh ->
  let axes := map centered_pad_axis (combine sh ts) in
  map snd (centered_plan ts sh) = map ax_pad axes
  /\ same_selection sh (map fst (centered_plan ts sh)) (map (fun _ => PySlice.all) sh)
  /\ map ax_extent axes = sh
  /\ Forall (fun t => 0 <= snd (fst t) /\ 0 <= snd t) axes
  /\ pad_shape (map ax_pad axes) sh = ts.
Proof.
  intros H. induction H as [|i t sh ts Hit H IH]; intros Hpos axes.
  - cbn. repeat split; constructor.
  - pose proof (Forall_inv Hpos) as Hi. cbv beta in Hi.
    destruct (IH (Forall_inv_tail Hpos)) as (IH1 & IH2 & IH3 & IH4 & IH5).
    destruct (@centered_axis_pad i t ltac:(lia)) as (C1 & C2 & C3 & C4).
    unfold axes.
    change (centered_plan (t :: ts) (i :: sh))
      with (make_indices_axis (default_offset t i) t i :: centered_plan ts sh).
    cbn [combine map].
    split; [|split; [|split; [|split]]].
    + now rewrite C1, IH1.
    + constructor; assumption.
    + now rewrite IH3.
    + constructor; assumption.
    + cbn [pad_shape]. unfold ax_pad at 1. rewrite IH5. f_equal. exact C4.
Qed.

(** Cropping the padded shape back with default offsets: no pad, and on
    every axis the range the input was put at. *)
Lemma centered_plan_crop_back (sh ts : list Z) :
  Forall2 Z.le sh ts -> Forall (fun k => 0 <= k) sh ->
  let axes := map centered_pad_axis (combine sh ts) in
  map snd (centered_plan sh ts) = map (fun _ => (0, 0)) sh
  /\ map fst (centered_plan sh ts) = map border_slice (map ax_border axes).
Proof.
  intros H. induction H as [|i t sh ts Hit H IH]; intros Hpos axes.
  - split; reflexivity.
  - pose proof (Forall_inv Hpos) as Hi. cbv beta in Hi.
    destruct (IH (Forall_inv_tail Hpos)) as (IH1 & IH2).
    unfold axes.
    change (centered_plan (i :: sh) (t :: ts))
      with (make_indices_axis (default_offset i t) i t :: centered_plan sh ts).
    rewrite centered_axis_crop_back by lia.
    cbn [combine map fst snd]. now rewrite IH1, IH2.
Qed.

Lemma any_nonzero_zeros (X : Type) (l : list X) :
  any_nonzero (map (fun _ => (0, 0)) l) = false.
Proof. unfold any_nonzero. induction l; cbn; auto. Qed.

(** The centered plan that pads to [ts], followed by the centered plan
    that crops back, gives the input. *)
Lemma centered_plans_pad_then_crop (n : nat) (image : ndarray A n)
    (ts : list Z) (pad : A) :
  wf image -> Forall2 Z.le (shape image) ts ->
  exists padded,
    apply_plan image (centered_plan ts (shape image)) pad = Ok padded
    /\ shape padded = ts /\ wf padded
    /\ apply_plan padded (centered_plan (shape image) ts) pad = Ok image.
Proof.
  intros Hwf Hle. pose proof Hwf as (Hlen & Hpos & Hsh).
  pose proof (Forall2_length Hle) as Hl.
  destruct (centered_plan_pad_only Hle Hpos) as (P1 & P2 & P3 & P4 & P5).
  destruct (centered_plan_crop_back Hle Hpos) as (Q1 & Q2).
  set (axes := map centered_pad_axis (combine (shape image) ts)) in *.
  set (padded := @NdArray A n (pad_shape (map ax_pad axes) (shape image))
                   (pad_data n (map ax_pad axes) (shape image) pad (data image))).
  assert (Hla : length (map ax_pad axes) = n).
  { unfold axes. rewrite !length_map, length_combine. lia. }
  assert (Hpw : Forall (fun p : Z * Z => 0 <= fst p /\ 0 <= snd p) (map ax_pad axes)).
  { apply Forall_map. exact P4. }
  exists padded. split; [|split; [exact P5|split]].
  - unfold apply_plan. rewrite P1.
    rewrite (getitem_same Hwf P2).
    rewrite getitem_all;
      [|assumption|apply Forall_forall; intros s Hs; apply in_map_iff in Hs;
                   now destruct Hs as (? & <- & _)].
    destruct (any_nonzero (map ax_pad axes)) eqn:Hany.
    + unfold np_pad. now rewrite as_pairs_ok.
    + apply any_nonzero_false in Hany. unfold padded.
      rewrite pad_shape_zero, pad_data_zero by assumption. now destruct image.
  - destruct (@np_pad_wf A n image (map ax_pad axes) pad Hwf Hla Hpw) as (b & Hb & _ & Hw).
    unfold np_pad in Hb. rewrite as_pairs_ok in Hb by assumption.
    cbn [bind] in Hb. injection Hb as <-. exact Hw.
  - unfold apply_plan. rewrite Q1, any_nonzero_zeros, Q2.
    f_equal. apply (@slice_pad_roundtrip A pad n image axes Hwf P3 P4).
Qed.

(** Padding an array to a larger shape with the default offsets and
    cropping the result back to the shape of the input gives the input. *)
Theorem crop_transform_pad_then_crop (n : nat) (image : ndarray A n)
    (ts : list Z) (pad : A) :
  wf image -> (1 <= n)%nat -> Forall2 Z.le (shape image) ts ->
  exists padded,
    crop_transform image None (Some ts) None pad = Ok padded
    /\ shape padded = ts
    /\ crop_transform padded None (Some (shape image)) None pad = Ok image.
Proof.
  intros Hwf Hn Hle. pose proof Hwf as (Hlen & _ & _).
  pose proof (Forall2_length Hle) as Hl.
  destruct (@centered_plans_pad_then_crop n image ts pad Hwf Hle)
    as (padded & H1 & H2 & (Hlp & _ & _) & H3).
  exists padded. split; [|split; [exact H2|]].
  - rewrite crop_transform_default by (try assumption; lia).
    replace (n - length ts)%nat with 0%nat by lia. exact H1.
  - rewrite crop_transform_default by (try assumption; lia).
    replace (n - length (shape image))%nat with 0%nat by lia.
    cbn [firstn app]. rewrite H2. exact H3.
Qed.

Variable zero : A.

(** [map_size] to a larger shape and back to the shape of the input gives
    the input when every axis grows by an even amount. *)
Theorem map_size_pad_then_crop_even (arr : ndarray A 3) (base_shape : list Z) :
  wf arr ->
  Forall2 (fun i j => i <= j /\ Z.even (j - i) = true) (shape arr) base_shape ->
  exists out,
    map_size zero arr base_shape false = Ok (out, None)
    /\ shape out = base_shape
    /\ map_size zero out (shape arr) false = Ok (arr, None).
Proof.
  intros Hwf Hev. pose proof Hwf as (Hlen & Hpos & _).
  assert (Hle : Forall2 Z.le (shape arr) base_shape).
  { eapply Forall2_impl; [|exact Hev]. cbv beta. tauto. }
  assert (Hev1 : Forall2 (fun i j => i < j -> Z.even (j - i) = true) (shape arr) base_shape).
  { eapply Forall2_impl; [|exact Hev]. cbv beta. tauto. }
  assert (Hev2 : Forall2 (fun i j => i < j -> Z.even (j - i) = true) base_shape (shape arr)).
  { apply Forall2_flip. eapply Forall2_impl; [|exact Hev]. cbv beta. intros; lia. }
  assert (Hb : Forall (fun k => 0 <= k) base_shape).
  { clear - Hle Hpos. induction Hle as [|i j sh bs Hij _ IH]; [constructor|].
    constructor; [pose proof (Forall_inv Hpos); cbv beta in *; lia|].
    apply IH. exact (Forall_inv_tail Hpos). }
  destruct (@centered_plans_pad_then_crop 3 arr base_shape zero Hwf Hle)
    as (out & H1 & H2 & Hwo & H3).
  exists out. split; [|split; [exact H2|]].
  - rewrite map_size_as_plan by assumption.
    destruct (plans_agree Hpos Hb Hev1) as [Hp Hsel].
    rewrite (@apply_plan_same A zero 3 arr _ _ Hwf Hp Hsel), H1. reflexivity.
  - rewrite map_size_as_plan by assumption. rewrite H2.
    destruct (plans_agree Hb Hpos Hev2) as [Hp Hsel].
    rewrite <- H2 in Hsel at 1.
    rewrite (@apply_plan_same A zero 3 out _ _ Hwo Hp Hsel), H3. reflexivity.
Qed.

End PadThenCrop.

(** With an odd difference the way back cuts at another place: the volume
    [7, 9] padded to extent 3 is [0, 7, 9], which [map_size] crops to
    [0, 7]. *)
Lemma map_size_pad_then_crop_odd :
  exists out back,
    map_size 0 vol_2x1x1 [3; 1; 1] false = Ok (out, None)
    /\ map_size 0 out [2; 1; 1] false = Ok (back, None)
    /\ back = @NdArray Z 3 [2; 1; 1] [[[0]]; [[7]]]
    /\ back <> vol_2x1x1.
Proof.
  eexists. eexists. split; [vm_compute; reflexivity|].
  split; [vm_compute; reflexivity|]. split; [reflexivity|]. discriminate.
Qed.

Section ReaderBlocks.
Import Text.

Ltac scan_step IH :=
  match goal with
  | H : bind ?c _ = Ok _ |- _ =>
      destruct c eqn:?; cbn [bind] in H; [|discriminate]
  end;
  match goal with
  | H : scan _ _ = Ok _ |- _ => apply IH in H; [exact H|cbn [length] in *; lia|assumption]
  end.

Lemma scan_keeps_src :
  forall (n : nat) (lines : list string) (d d' : lta_fields),
    (length lines <= n)%nat ->
    Forall (fun l => prefix "src volume info" l = false) lines ->
    scan lines d = Ok d' -> src_info d' = src_info d.
Proof.
  induction n as [|n IH]; intros lines d d' Hn Hno Hs.
  - destruct lines; [|cbn in Hn; lia]. cbn in Hs. now injection Hs as <-.
  - destruct lines as [|l rest]; [cbn in Hs; now injection Hs as <-|].
    pose proof (Forall_inv Hno) as Hl. pose proof (Forall_inv_tail Hno) as Hrest.
    cbv beta in Hl. cbn [scan] in Hs. cbn [length] in Hn.
    destruct (prefix "type" l); [scan_step IH|].
    destruct (prefix "nxforms" l); [scan_step IH|].
    destruct (prefix "mean" l); [scan_step IH|].
    destruct (prefix "sigma" l); [scan_step IH|].
    destruct (re_match matrix_line_re l).
    { destruct (floats_of (strip l)); cbn [bind] in Hs; [|discriminate].
      destruct rest as [|l1 [|l2 [|l3 rest']]]; try discriminate.
      destruct (matrix_row l1); cbn [bind] in Hs; [|discriminate].
      destruct (matrix_row l2); cbn [bind] in Hs; [|discriminate].
      destruct (matrix_row l3); cbn [bind] in Hs; [|discriminate].
      destruct (np_array2 _); cbn [bind] in Hs; [|discriminate].
      apply IH in Hs; [exact Hs|cbn [length] in *; lia|].
      exact (Forall_inv_tail (Forall_inv_tail (Forall_inv_tail Hrest))). }
    rewrite Hl in Hs.
    destruct (prefix "dst volume info" l).
    { destruct (info_line (dst_info d) l) as [v|]; cbn [bind] in Hs; [|discriminate].
      revert v Hs.
      assert (Hlen : (length rest <= n)%nat) by lia. clear Hn Hno Hl.
      induction rest as [|x ls IHls]; intros v Hs.
      - now injection Hs as <-.
      - pose proof (Forall_inv Hrest) as Hx. cbv beta in Hx. rewrite Hx in Hs.
        destruct (info_line v x) as [v'|]; cbn [bind] in Hs; [|discriminate].
        apply (IHls (Forall_inv_tail Hrest) ltac:(cbn [length] in Hlen; lia) v' Hs). }
    apply IH in Hs; [exact Hs|lia|assumption].
Qed.

Lemma scan_keeps_dst :
  forall (n : nat) (lines : list string) (d d' : lta_fields),
    (length lines <= n)%nat ->
    Forall (fun l => prefix "dst volume info" l = false) lines ->
    scan lines d = Ok d' -> dst_info d' = dst_info d.
Proof.
  induction n as [|n IH]; intros lines d d' Hn Hno Hs.
  - destruct lines; [|cbn in Hn; lia]. cbn in Hs. now injection Hs as <-.
  - destruct lines as [|l rest]; [cbn in Hs; now injection Hs as <-|].
    pose proof (Forall_inv Hno) as Hl. pose proof (Forall_inv_tail Hno) as Hrest.
    cbv beta in Hl. cbn [scan] in Hs. cbn [length] in Hn.
    destruct (prefix "type" l); [scan_step IH|].
    destruct (prefix "nxforms" l); [scan_step IH|].
    destruct (prefix "mean" l); [scan_step IH|].
    destruct (prefix "sigma" l); [scan_step IH|].
    destruct (re_match matrix_line_re l).
    { destruct (floats_of (strip l)); cbn [bind] in Hs; [|discriminate].
      destruct rest as [|l1 [|l2 [|l3 rest']]]; try discriminate.
      destruct (matrix_row l1); cbn [bind] in Hs; [|discriminate].
      destruct (matrix_row l2); cbn [bind] in Hs; [|discriminate].
      destruct (matrix_row l3); cbn [bind] in Hs; [|discriminate].
      destruct (np_array2 _); cbn [bind] in Hs; [|discriminate].
      apply IH in Hs; [exact Hs|cbn [length] in *; lia|].
      exact (Forall_inv_tail (Forall_inv_tail (Forall_inv_tail Hrest))). }
    rewrite Hl in Hs.
    destruct (prefix "src volume info" l).
    { destruct (info_line (src_info d) l) as [v|]; cbn [bind] in Hs; [|discriminate].
      revert v Hs.
      assert (Hlen : (length rest <= n)%nat) by lia. clear Hn Hno Hl.
      induction rest as [|x ls IHls]; intros v Hs.
      - now injection Hs as <-.
      - pose proof (Forall_inv Hrest) as Hx. cbv beta in Hx. rewrite Hx in Hs.
        destruct (info_line v x) as [v'|]; cbn [bind] in Hs; [|discriminate].
        apply (IHls (Forall_inv_tail Hrest) ltac:(cbn [length] in Hlen; lia) v' Hs). }
    apply IH in Hs; [exact Hs|lia|assumption].
Qed.

(** A file that has no line starting with [src volume info], or none
    starting with [dst volume info], cannot be read: the orientation
    vectors of that block are never stored, and [readLTA] raises. *)
Theorem readLTA_needs_both_volume_infos (lta_lines : list string) :
  Forall (fun l => prefix "src volume info" l = false) lta_lines
  \/ Forall (fun l => prefix "dst volume info" l = false) lta_lines ->
  exists e, readLTA lta_lines = Raise e.
Proof.
  intros H. unfold readLTA.
  destruct (scan lta_lines no_fields) as [d|e] eqn:Hs; [|now exists e].
  cbn [bind]. destruct H as [H|H].
  - rewrite (@scan_keeps_src (length lta_lines) lta_lines no_fields d (le_n _) H Hs).
    eexists. reflexivity.
  - rewrite (@scan_keeps_dst (length lta_lines) lta_lines no_fields d (le_n _) H Hs).
    destruct (assemble "src" (src_info d)); cbn [bind]; eexists; reflexivity.
Qed.

End ReaderBlocks.

Section GeneralField.


End GeneralField.

Section BlankSlices.

Lemma select_map (X Y : Type) (g : X -> Y) (m : list bool) :
  forall l : list X, select m (map g l) = map g (select m l).
Proof.
  induction m as [|b m IH]; intros [|x l]; cbn [select map]; try reflexivity.
  destruct b; cbn [map]; now rewrite IH.
Qed.

Lemma select_of_map (X : Type) (p : X -> bool) (l : list X) :
  select (map p l) l = filter p l.
Proof.
  induction l as [|x l IH]; [reflexivity|]. cbn [map select filter].
  destruct (p x); now rewrite IH.
Qed.

Lemma length_select (X : Type) (m : list bool) :
  forall l : list X,
    length l = length m -> length (select m l) = length (filter (fun b : bool => b) m).
Proof.
  induction m as [|b m IH]; intros [|x l] H; cbn in H; try discriminate; [reflexivity|].
  cbn [select filter]. destruct b; cbn [length]; rewrite IH by lia; reflexivity.
Qed.

Lemma in_select (X : Type) (m : list bool) :
  forall (l : list X) (x : X), In x (select m l) -> In x l.
Proof.
  induction m as [|b m IH]; intros [|y l] x; cbn [select]; try (intros []).
  destruct b; cbn [In]; intros H.
  - destruct H as [H|H]; [now left|right; now apply IH].
  - right. now apply IH.
Qed.

(** Selecting by a mask reads the entries at the selected positions. *)
Lemma select_nth_from (X : Type) (dflt : X) (m : list bool) :
  forall (s : nat) (row : list X),
    length row = length m ->
    select m row = map (fun k => nth (k - s) row dflt) (select m (seq s (length m))).
Proof.
  induction m as [|b m IH]; intros s [|x row] H; cbn in H; try discriminate; [reflexivity|].
  cbn [length seq select].
  assert (Htail : select m row
                  = map (fun k => nth (k - s) (x :: row) dflt) (select m (seq (S s) (length m)))).
  { rewrite (IH (S s) row) by lia. apply map_ext_in. intros k Hk.
    assert (Hin : In k (seq (S s) (length m))) by (eapply in_select; exact Hk).
    apply in_seq in Hin. replace (k - s)%nat with (S (k - S s)) by lia. reflexivity. }
  destruct b; cbn [map]; rewrite Htail; [|reflexivity].
  now rewrite Nat.sub_diag.
Qed.

Lemma select_nth (X : Type) (dflt : X) (m : list bool) (row : list X) :
  length row = length m ->
  select m row = map (fun k => nth k row dflt) (select m (seq 0 (length m))).
Proof.
  intros H. rewrite (@select_nth_from X dflt m 0 row H).
  apply map_ext. intros k. now rewrite Nat.sub_0_r.
Qed.

Lemma dict_get_in (d : data_dict) (key : string) (v : dict_volume) :
  dict_get d key = Ok v -> In (key, v) d.
Proof.
  induction d as [|[k w] d IH]; cbn [dict_get]; [discriminate|].
  destruct (String.eqb_spec k key) as [->|Hne].
  - intros H. injection H as ->. now left.
  - intros H. right. now apply IH.
Qed.

Lemma dict_get_map (d : data_dict) (key : string) (v : dict_volume) (f : dict_volume -> dict_volume) :
  dict_get d key = Ok v ->
  dict_get (map (fun e => (fst e, f (snd e))) d) key = Ok (f v).
Proof.
  induction d as [|[k w] d IH]; cbn [dict_get map fst snd]; [discriminate|].
  destruct (String.eqb k key); [|exact IH]. intros H. now injection H as ->.
Qed.

(** The mask of a label volume and the indices it selects. *)
Lemma mask_of_subseg (a : ndarray Z 3) (threshold : Z) :
  let m1 := map (fun s => threshold <? s) (sum_axes01_3 a) in
  select_slices_of (Vol3 a) threshold = Mask1 m1
  /\ length m1 = Z.to_nat (nth 2 (shape a) 0)
  /\ select m1 (seq 0 (length m1)) = kept_slices a threshold.
Proof.
  cbn zeta. split; [reflexivity|].
  unfold sum_axes01_3, kept_slices. rewrite !length_map, length_seq.
  split; [reflexivity|].
  rewrite map_map. apply (select_of_map (fun k => threshold <? slice_sum a k)).
Qed.

Lemma count_true_select (m : list bool) :
  count_true m = Z.of_nat (length (select m (seq 0 (length m)))).
Proof.
  unfold count_true. rewrite length_select; [reflexivity|apply length_seq].
Qed.

(** On a usual entry the indexing succeeds and takes the selected slices. *)
Lemma take_slices_usual (d : Z) (e : string * dict_volume) (m1 : list bool) :
  usual_entry d e -> Z.of_nat (length m1) = d ->
  take_slices (snd e) (Mask1 m1)
              (String.eqb (fst e) "orig" || String.eqb (fst e) "native_img")
  = Ok (take_axis2 (select m1 (seq 0 (length m1))) (snd e)).
Proof.
  destruct e as [name [a|a]]; unfold usual_entry; cbn [fst snd].
  - intros ((Hlen & Hpos & Hsh) & Hd & Hname) Hm. rewrite Hname.
    destruct a as [sh dat]. cbn [shape data] in *.
    destruct sh as [|h [|w [|d' [|? ?]]]]; try discriminate.
    cbn [nth] in Hd. subst d'. cbn [take_slices shape data take_axis2 nth].
    rewrite Hm, Z.eqb_refl. f_equal. f_equal. f_equal.
    + now rewrite count_true_select.
    + destruct Hsh as [_ Hplanes]. apply map_ext_in. intros plane Hp.
      rewrite Forall_forall in Hplanes. destruct (Hplanes plane Hp) as [_ Hrows].
      apply map_ext_in. intros row Hr. rewrite Forall_forall in Hrows.
      destruct (Hrows row Hr) as [Hl _]. apply select_nth. lia.
  - intros ((Hlen & Hpos & Hsh) & Hd) Hm.
    destruct a as [sh dat]. cbn [shape data] in *.
    destruct sh as [|h [|w [|d' [|c [|? ?]]]]]; try discriminate.
    cbn [nth] in Hd. subst d'. cbn [take_slices shape data take_axis2 nth].
    rewrite Hm, Z.eqb_refl. f_equal. f_equal. f_equal.
    + now rewrite count_true_select.
    + destruct Hsh as [_ Hplanes]. apply map_ext_in. intros plane Hp.
      rewrite Forall_forall in Hplanes. destruct (Hplanes plane Hp) as [_ Hrows].
      apply map_ext_in. intros row Hr. rewrite Forall_forall in Hrows.
      destruct (Hrows row Hr) as [Hl _]. apply select_nth. lia.
Qed.

Lemma filter_items_usual (d : Z) (m1 : list bool) (items : data_dict) :
  Forall (usual_entry d) items -> Z.of_nat (length m1) = d ->
  filter_items items (Mask1 m1)
  = Ok (map (fun e => (fst e, take_axis2 (select m1 (seq 0 (length m1))) (snd e))) items).
Proof.
  intros Hall Hm. induction Hall as [|[name vol] items He _ IH]; [reflexivity|].
  cbn [filter_items map].
  pose proof (@take_slices_usual d (name, vol) m1 He Hm) as Ht. cbn [fst snd] in Ht |- *.
  rewrite Ht, IH. reflexivity.
Qed.

(** [filter_blank_slices_thick] on a dictionary of the usual kind: every
    volume is replaced by its slices at the indices, in ascending order, at
    which the sum of the label volume exceeds the threshold; the keys and
    their order are kept. *)
Theorem filter_blank_slices_thick_takes_kept_slices
    (d : data_dict) (threshold : Z) (subseg : ndarray Z 3) :
  dict_get d "cereb_subseg" = Ok (Vol3 subseg) ->
  Forall (usual_entry (nth 2 (shape subseg) 0)) d ->
  filter_blank_slices_thick d threshold
  = Ok (map (fun e => (fst e, take_axis2 (kept_slices subseg threshold) (snd e))) d).
Proof.
  intros Hget Hall. unfold filter_blank_slices_thick. rewrite Hget. cbn [bind].
  destruct (mask_of_subseg subseg threshold) as (Hmask & Hlen & Hsel).
  rewrite Hmask.
  assert (Hwf : wf subseg).
  { apply dict_get_in in Hget. rewrite Forall_forall in Hall.
    specialize (Hall _ Hget). unfold usual_entry in Hall. cbn [snd] in Hall. tauto. }
  assert (Hd : 0 <= nth 2 (shape subseg) 0).
  { destruct Hwf as (Hl & Hpos & _).
    destruct (shape subseg) as [|h [|w [|d' [|? ?]]]]; try discriminate.
    cbn [nth]. exact (Forall_inv (Forall_inv_tail (Forall_inv_tail Hpos))). }
  rewrite (@filter_items_usual (nth 2 (shape subseg) 0) _ d Hall) by (rewrite Hlen; lia).
  now rewrite Hsel.
Qed.

Lemma usual_entry_take (d : Z) (e : string * dict_volume) (idx : list nat) :
  usual_entry d e -> Forall (fun k => Z.of_nat k < d) idx ->
  usual_entry (Z.of_nat (length idx)) (fst e, take_axis2 idx (snd e)).
Proof.
  destruct e as [name [a|a]]; unfold usual_entry; cbn [fst snd take_axis2].
  - intros ((Hlen & Hpos & Hsh) & Hd & Hname) Hidx.
    destruct a as [sh dat]. cbn [shape data] in *.
    destruct sh as [|h [|w [|d' [|? ?]]]]; try discriminate.
    cbn [nth] in *. split; [|split; [reflexivity|exact Hname]].
    unfold wf. cbn [shape data]. split; [reflexivity|]. split.
    + pose proof (Forall_inv Hpos). pose proof (Forall_inv (Forall_inv_tail Hpos)).
      repeat constructor; try assumption. lia.
    + destruct Hsh as [Hh Hplanes]. split; [now rewrite length_map|].
      apply Forall_map. eapply Forall_impl; [|exact Hplanes].
      intros plane [Hw Hrows]. split; [now rewrite length_map|].
      apply Forall_map. eapply Forall_impl; [|exact Hrows].
      intros row _. split; [now rewrite length_map|].
      apply Forall_forall. intros v _. reflexivity.
  - intros ((Hlen & Hpos & Hsh) & Hd) Hidx.
    destruct a as [sh dat]. cbn [shape data] in *.
    destruct sh as [|h [|w [|d' [|c [|? ?]]]]]; try discriminate.
    cbn [nth] in *. subst d'. split; [|reflexivity].
    unfold wf. cbn [shape data]. split; [reflexivity|]. split.
    + pose proof (Forall_inv Hpos). pose proof (Forall_inv (Forall_inv_tail Hpos)).
      pose proof (Forall_inv (Forall_inv_tail (Forall_inv_tail (Forall_inv_tail Hpos)))).
      repeat constructor; try assumption. lia.
    + destruct Hsh as [Hh Hplanes]. split; [now rewrite length_map|].
      apply Forall_map. eapply Forall_impl; [|exact Hplanes].
      intros plane [Hw Hrows]. split; [now rewrite length_map|].
      apply Forall_map. eapply Forall_impl; [|exact Hrows].
      intros row [Hd Hcols]. split; [now rewrite length_map|].
      apply Forall_map. rewrite Forall_forall in Hidx, Hcols |- *.
      intros k Hk. apply Hcols. apply nth_In. specialize (Hidx k Hk). lia.
Qed.

(** Taking every slice of a volume leaves it as it is. *)
Lemma take_axis2_all (e : string * dict_volume) (idx : list nat) :
  usual_entry (Z.of_nat (length idx)) e -> idx = seq 0 (length idx) ->
  take_axis2 idx (snd e) = snd e.
Proof.
  destruct e as [name [a|a]]; unfold usual_entry; cbn [fst snd take_axis2].
  - intros ((Hlen & Hpos & Hsh) & Hd & _) Hidx.
    destruct a as [sh dat]. cbn [shape data] in *.
    destruct sh as [|h [|w [|d' [|? ?]]]]; try discriminate.
    cbn [nth] in *. subst d'. f_equal. f_equal.
    destruct Hsh as [_ Hplanes]. apply map_id_in.
    eapply Forall_impl; [|exact Hplanes]. intros plane [_ Hrows].
    apply map_id_in. eapply Forall_impl; [|exact Hrows]. intros row [Hl _].
    rewrite Hidx. replace (length idx) with (length row) by lia. apply map_nth_seq.
  - intros ((Hlen & Hpos & Hsh) & Hd) Hidx.
    destruct a as [sh dat]. cbn [shape data] in *.
    destruct sh as [|h [|w [|d' [|c [|? ?]]]]]; try discriminate.
    cbn [nth] in *. subst d'. f_equal. f_equal.
    destruct Hsh as [_ Hplanes]. apply map_id_in.
    eapply Forall_impl; [|exact Hplanes]. intros plane [_ Hrows].
    apply map_id_in. eapply Forall_impl; [|exact Hrows]. intros row [Hl _].
    rewrite Hidx. replace (length idx) with (length row) by lia. apply map_nth_seq.
Qed.

Lemma filter_all (X : Type) (p : X -> bool) (l : list X) :
  Forall (fun x => p x = true) l -> filter p l = l.
Proof.
  induction 1 as [|x l Hx _ IH]; [reflexivity|]. cbn [filter]. now rewrite Hx, IH.
Qed.

(** The kept slices of a label volume all exceed the threshold, so that
    every slice of the filtered label volume is kept. *)
Lemma kept_slices_of_taken (a : ndarray Z 3) (threshold : Z) :
  let idx := kept_slices a threshold in
  forall a', take_axis2 idx (Vol3 a) = Vol3 a' ->
             kept_slices a' threshold = seq 0 (length idx).
Proof.
  intros idx a' Ha'. cbn [take_axis2] in Ha'. injection Ha' as <-.
  unfold kept_slices at 1. cbn [shape nth]. rewrite Nat2Z.id.
  apply filter_all. apply Forall_forall. intros j Hj. apply in_seq in Hj.
  assert (Hin : In (nth j idx 0%nat) idx) by (apply nth_In; lia).
  unfold idx, kept_slices in Hin. apply filter_In in Hin. destruct Hin as [_ Hgt].
  fold (kept_slices a threshold) in Hgt. fold idx in Hgt.
  replace (slice_sum _ j) with (slice_sum a (nth j idx 0%nat)); [exact Hgt|].
  unfold slice_sum. cbn [data]. rewrite map_map. f_equal. apply map_ext. intros plane.
  rewrite map_map. f_equal. apply map_ext. intros row.
  symmetry. apply (@nth_map_in nat Z (fun k => nth k row 0) idx j 0 0%nat). lia.
Qed.

Lemma kept_slices_bound (a : ndarray Z 3) (threshold : Z) :
  0 <= nth 2 (shape a) 0 ->
  Forall (fun k => Z.of_nat k < nth 2 (shape a) 0) (kept_slices a threshold).
Proof.
  intros Hd. apply Forall_forall. intros k Hk. unfold kept_slices in Hk.
  apply filter_In in Hk. destruct Hk as [Hk _]. apply in_seq in Hk. lia.
Qed.

(** Filtering a second time changes nothing: every slice that was kept
    is kept again. *)
Theorem filter_blank_slices_thick_idempotent
    (d : data_dict) (threshold : Z) (subseg : ndarray Z 3) :
  dict_get d "cereb_subseg" = Ok (Vol3 subseg) ->
  Forall (usual_entry (nth 2 (shape subseg) 0)) d ->
  exists out,
    filter_blank_slices_thick d threshold = Ok out
    /\ filter_blank_slices_thick out threshold = Ok out.
Proof.
  intros Hget Hall.
  set (idx := kept_slices subseg threshold).
  set (out := map (fun e => (fst e, take_axis2 idx (snd e))) d).
  assert (Hwf : wf subseg).
  { pose proof (dict_get_in _ _ Hget) as Hin. rewrite Forall_forall in Hall.
    specialize (Hall _ Hin). unfold usual_entry in Hall. cbn [snd] in Hall. tauto. }
  assert (Hd : 0 <= nth 2 (shape subseg) 0).
  { destruct Hwf as (Hl & Hpos & _).
    destruct (shape subseg) as [|h [|w [|d' [|? ?]]]]; try discriminate.
    cbn [nth]. exact (Forall_inv (Forall_inv_tail (Forall_inv_tail Hpos))). }
  pose proof (kept_slices_bound subseg threshold Hd) as Hidx. fold idx in Hidx.
  assert (Hfirst : filter_blank_slices_thick d threshold = Ok out).
  { unfold filter_blank_slices_thick. rewrite Hget. cbn [bind].
    destruct (mask_of_subseg subseg threshold) as (Hmask & Hlen & Hsel).
    rewrite Hmask.
    rewrite (@filter_items_usual (nth 2 (shape subseg) 0) _ d Hall) by (rewrite Hlen; lia).
    now rewrite Hsel. }
  exists out. split; [exact Hfirst|].
  destruct (take_axis2 idx (Vol3 subseg)) as [subseg'|] eqn:Hsub; [|discriminate].
  assert (Hget' : dict_get out "cereb_subseg" = Ok (Vol3 subseg')).
  { unfold out. rewrite (dict_get_map _ _ (take_axis2 idx) Hget). now rewrite Hsub. }
  assert (Hdepth : nth 2 (shape subseg') 0 = Z.of_nat (length idx)).
  { cbn [take_axis2] in Hsub. injection Hsub as <-. reflexivity. }
  assert (Hall' : Forall (usual_entry (Z.of_nat (length idx))) out).
  { unfold out. apply Forall_map. eapply Forall_impl; [|exact Hall].
    intros e He. apply (@usual_entry_take (nth 2 (shape subseg) 0)); assumption. }
  pose proof (@kept_slices_of_taken subseg threshold subseg' Hsub) as Hkept.
  fold idx in Hkept.
  unfold filter_blank_slices_thick. rewrite Hget'. cbn [bind].
  destruct (mask_of_subseg subseg' threshold) as (Hmask & Hlen & Hsel).
  rewrite Hmask.
  rewrite (@filter_items_usual (Z.of_nat (length idx)) _ out Hall')
    by (rewrite Hlen, Hdepth; lia).
  rewrite Hsel, Hkept. f_equal.
  rewrite <- (map_id out) at 2. apply map_ext_in. intros e He.
  rewrite Forall_forall in Hall'. specialize (Hall' e He).
  destruct e as [name vol]. cbn [fst snd]. f_equal.
  apply (@take_axis2_all (name, vol) (seq 0 (length idx))).
  - now rewrite length_seq.
  - now rewrite length_seq.
Qed.

(** A volume whose depth differs from the depth of the label volume, or a
    3-D volume stored under ["orig"] or ["native_img"], makes the call
    fail with an [IndexError]. *)
Theorem filter_blank_slices_thick_rejects_other_depth
    (d : data_dict) (threshold : Z) (subseg : ndarray Z 3) (name : string) (vol : dict_volume) :
  dict_get d "cereb_subseg" = Ok (Vol3 subseg) ->
  wf subseg -> In (name, vol) d ->
  match vol with
  | Vol3 a => wf a /\ (nth 2 (shape a) 0 <> nth 2 (shape subseg) 0
                       \/ String.eqb name "orig" || String.eqb name "native_img" = true)
  | Vol4 a => wf a /\ nth 2 (shape a) 0 <> nth 2 (shape subseg) 0
  end ->
  exists msg, filter_blank_slices_thick d threshold = Raise (IndexError msg).
Proof.
  intros Hget Hwf Hin Hbad. unfold filter_blank_slices_thick. rewrite Hget. cbn [bind].
  destruct (mask_of_subseg subseg threshold) as (Hmask & Hlen & _).
  rewrite Hmask. set (m1 := map _ (sum_axes01_3 subseg)) in *. clearbody m1.
  assert (Hd : 0 <= nth 2 (shape subseg) 0).
  { destruct Hwf as (Hl & Hpos & _).
    destruct (shape subseg) as [|h [|w [|d' [|? ?]]]]; try discriminate.
    cbn [nth]. exact (Forall_inv (Forall_inv_tail (Forall_inv_tail Hpos))). }
  assert (Hone : forall trailing,
             (trailing = String.eqb name "orig" || String.eqb name "native_img") ->
             exists msg, take_slices vol (Mask1 m1) trailing = Raise (IndexError msg)).
  { intros trailing Ht. destruct vol as [a|a]; destruct Hbad as [(Hl & Hpos & _) Hbad].
    - cbn [take_slices]. destruct trailing; [eexists; reflexivity|].
      destruct Hbad as [Hbad|Hbad]; [|congruence].
      destruct (shape a) as [|h [|w [|d' [|? ?]]]]; try discriminate.
      cbn [nth] in Hbad.
      destruct (Z.eqb_spec (Z.of_nat (length m1)) d'); [lia|eexists; reflexivity].
    - cbn [take_slices].
      destruct (shape a) as [|h [|w [|d' [|c [|? ?]]]]]; try discriminate.
      cbn [nth] in Hbad.
      destruct (Z.eqb_spec (Z.of_nat (length m1)) d'); [lia|eexists; reflexivity]. }
  clear Hget Hbad.
  induction d as [|[k v] d IH]; [destruct Hin|].
  cbn [filter_items].
  destruct (take_slices v (Mask1 m1) _) as [v'|e] eqn:Hv.
  - cbn [bind]. destruct Hin as [Heq|Hin].
    + injection Heq as -> ->. destruct (Hone _ eq_refl) as [msg Hmsg]. congruence.
    + destruct (IH Hin) as [msg Hmsg]. rewrite Hmsg. now exists msg.
  - cbn [bind]. clear - Hv.
    destruct v as [a|a]; cbn [take_slices] in Hv.
    + destruct (_ || _); [injection Hv as <-; eexists; reflexivity|].
      destruct (shape a) as [|h [|w [|d' [|? ?]]]];
        try (injection Hv as <-; eexists; reflexivity).
      destruct (_ =? _); [discriminate|injection Hv as <-; eexists; reflexivity].
    + destruct (shape a) as [|h [|w [|d' [|c [|? ?]]]]];
        try (injection Hv as <-; eexists; reflexivity).
      destruct (_ =? _); [discriminate|injection Hv as <-; eexists; reflexivity].
Qed.

End BlankSlices.

Section LegacyResize.
Variable A : Type.
Variable zero : A.

Lemma firstn_app_len (X : Type) (n : nat) (l1 l2 : list X) :
  length l1 = n -> firstn n (l1 ++ l2) = l1.
Proof.
  intros <-. rewrite firstn_app, Nat.sub_diag, firstn_all. cbn. apply app_nil_r.
Qed.

Lemma skipn_app_len (X : Type) (n : nat) (l1 l2 : list X) :
  length l1 = n -> skipn n (l1 ++ l2) = l2.
Proof.
  intros <-. rewrite skipn_app, Nat.sub_diag, skipn_all. reflexivity.
Qed.

Lemma skipn_app_len2 (X : Type) (n1 n2 : nat) (l1 l2 l3 : list X) :
  length l1 = n1 -> length l2 = n2 -> skipn (n1 + n2) (l1 ++ l2 ++ l3) = l3.
Proof.
  intros H1 H2. rewrite app_assoc. apply skipn_app_len.
  rewrite length_app. lia.
Qed.

Lemma broadcast_data_id (n : nat) :
  forall (sh : list Z) (v : nd A n), has_shape A n sh v -> broadcast_data A n sh v = v.
Proof.
  induction n as [|m IH]; intros sh v Hv; [reflexivity|].
  cbn [broadcast_data]. destruct sh as [|k rest]; [reflexivity|].
  destruct Hv as [Hk Hall].
  assert (Hmap : map (broadcast_data A m rest) v = v).
  { apply map_id_in. eapply Forall_impl; [|exact Hall]. intros y. apply IH. }
  rewrite Hmap. destruct v as [|x [|y v]]; try reflexivity.
  cbn [length] in Hk. subst k. reflexivity.
Qed.

Lemma broadcastable_refl (sh : list Z) : broadcastable sh sh = true.
Proof. induction sh as [|k sh IH]; [reflexivity|]. cbn. now rewrite Z.eqb_refl, IH. Qed.

(** Writing an array into a block of fill values is padding it. *)
Lemma setitem_data_full (n : nat) :
  forall (axes : list (Z * Z * Z)) (v : nd A n),
    length axes = n ->
    Forall (fun t => 0 <= fst (fst t) /\ 0 <= snd (fst t) /\ 0 <= snd t) axes ->
    has_shape A n (map ax_extent axes) v ->
    setitem_data A n (map border_slice (map ax_border axes))
      (full n (pad_shape (map ax_pad axes) (map ax_extent axes)) zero) v
    = pad_data n (map ax_pad axes) (map ax_extent axes) zero v.
Proof.
  induction n as [|m IH]; intros axes v Hlen Hax Hv; [reflexivity|].
  destruct axes as [|[[k b] a] axes']; [discriminate|].
  pose proof (Forall_inv Hax) as (Hk & Hb & Ha). cbn [fst snd] in Hk, Hb, Ha.
  pose proof (Forall_inv_tail Hax) as Hax'.
  cbn [map] in Hv |- *. unfold ax_extent at 1 in Hv. cbn [fst] in Hv.
  destruct Hv as [Hl Hall].
  change (ax_pad (k, b, a)) with (b, a).
  change (ax_extent (k, b, a)) with k.
  change (border_slice (ax_border (k, b, a))) with (range b (b + k)).
  cbn [pad_shape full pad_data setitem_data].
  set (blk := full m (pad_shape (map ax_pad axes') (map ax_extent axes')) zero).
  rewrite repeat_length.
  assert (Hind : indices (range b (b + k)) (Z.of_nat (Z.to_nat (b + k + a))) = (b, b + k)).
  { unfold indices, clip, range. cbn [start stop].
    destruct (Z.ltb_spec b 0); [lia|]. destruct (Z.ltb_spec (b + k) 0); [lia|].
    f_equal; lia. }
  rewrite Hind. cbn [fst snd].
  replace (Z.to_nat (b + k + a)) with (Z.to_nat b + (Z.to_nat k + Z.to_nat a))%nat by lia.
  rewrite !repeat_app.
  replace (Z.to_nat (b + k - b)) with (Z.to_nat k) by lia.
  rewrite (firstn_app_len _ _ (repeat_length blk (Z.to_nat b))).
  rewrite (skipn_app_len _ _ (repeat_length blk (Z.to_nat b))).
  rewrite (firstn_app_len _ _ (repeat_length blk (Z.to_nat k))).
  rewrite (skipn_app_len2 _ _ _ (repeat_length blk (Z.to_nat b))
             (repeat_length blk (Z.to_nat k))).
  f_equal. f_equal.
  assert (Hlv : length v = Z.to_nat k) by lia.
  clear Hl Hind Hk. revert Hlv. generalize (Z.to_nat k) as kk.
  induction v as [|x v IHv]; intros kk Hlv.
  - destruct kk; [reflexivity|discriminate].
  - destruct kk as [|kk']; [discriminate|].
    cbn [repeat combine map fst snd]. f_equal.
    + apply IH; [cbn in Hlen; lia|assumption|exact (Forall_inv Hall)].
    + apply IHv; [exact (Forall_inv_tail Hall)|cbn in Hlv; lia].
Qed.

Lemma window_nth_error (X Y : Type) (f : X -> Y) (blk : Y) (l : list X)
    (k : nat) (b i a low t o : Z) :
  Z.of_nat (length l) = i -> axis_window b i a low t o -> Z.of_nat k < t ->
  nth_error (get (range low (low + t))
               (repeat blk (Z.to_nat b) ++ map f l ++ repeat blk (Z.to_nat a))) k
  = Some (if 0 <=? Z.of_nat k + o
          then match nth_error l (Z.to_nat (Z.of_nat k + o)) with
               | Some v => f v
               | None => blk
               end
          else blk).
Proof.
  intros Hl (Hb & Hi & Ha & Hlow & Ht & Hfit & Ho) Hk. subst o.
  unfold get.
  assert (Hlen : Z.of_nat (length (repeat blk (Z.to_nat b) ++ map f l
                                     ++ repeat blk (Z.to_nat a))) = b + i + a).
  { rewrite !length_app, !repeat_length, length_map. lia. }
  rewrite Hlen.
  assert (Hind : indices (range low (low + t)) (b + i + a) = (low, low + t)).
  { unfold indices, clip, range. cbn [start stop].
    destruct (Z.ltb_spec low 0); [lia|]. destruct (Z.ltb_spec (low + t) 0); [lia|].
    f_equal; lia. }
  rewrite Hind. rewrite nth_error_firstn, nth_error_skipn.
  destruct (Nat.ltb_spec k (Z.to_nat (low + t - low))); [|lia].
  destruct (Z.ltb_spec (low + Z.of_nat k) b) as [Hkb|Hkb].
  - rewrite nth_error_app1 by (rewrite repeat_length; lia).
    rewrite nth_error_repeat by lia.
    destruct (Z.leb_spec 0 (Z.of_nat k + (low - b))); [lia|reflexivity].
  - rewrite nth_error_app2 by (rewrite repeat_length; lia).
    rewrite repeat_length.
    destruct (Z.leb_spec 0 (Z.of_nat k + (low - b))); [|lia].
    replace (Z.to_nat low + k - Z.to_nat b)%nat with (Z.to_nat (Z.of_nat k + (low - b)))
      by lia.
    destruct (Z.ltb_spec (Z.of_nat k + (low - b)) i) as [Hki|Hki].
    + rewrite nth_error_app1 by (rewrite length_map; lia).
      rewrite nth_error_map.
      destruct (nth_error l (Z.to_nat (Z.of_nat k + (low - b)))) as [v|] eqn:Hv;
        [reflexivity|].
      apply nth_error_None in Hv. lia.
    + rewrite nth_error_app2 by (rewrite length_map; lia).
      rewrite nth_error_repeat by (rewrite length_map; lia).
      destruct (nth_error l (Z.to_nat (Z.of_nat k + (low - b)))) as [v|] eqn:Hv;
        [|reflexivity].
      assert (Hlt : (Z.to_nat (Z.of_nat k + (low - b)) < length l)%nat)
        by (apply nth_error_Some; congruence).
      lia.
Qed.

Lemma window_length (b i a low t o : Z) :
  axis_window b i a low t o -> length_on (range low (low + t)) (b + i + a) = t.
Proof.
  intros (Hb & Hi & Ha & Hlow & Ht & Hfit & Ho).
  unfold length_on, indices, clip, range. cbn [start stop].
  destruct (Z.ltb_spec low 0); [lia|]. destruct (Z.ltb_spec (low + t) 0); lia.
Qed.

(** A window cut from a padded volume, voxel by voxel. *)
Lemma window_voxels (arr : ndarray A 3)
    (i0 i1 i2 b0 b1 b2 a0 a1 a2 low0 low1 low2 t0 t1 t2 o0 o1 o2 : Z) :
  wf arr -> shape arr = [i0; i1; i2] ->
  axis_window b0 i0 a0 low0 t0 o0 -> axis_window b1 i1 a1 low1 t1 o1 ->
  axis_window b2 i2 a2 low2 t2 o2 ->
  let pads := [(b0, a0); (b1, a1); (b2, a2)] in
  let padded := @NdArray A 3 (pad_shape pads (shape arr))
                  (pad_data 3 pads (shape arr) zero (data arr)) in
  let out := getitem padded [range low0 (low0 + t0); range low1 (low1 + t1);
                             range low2 (low2 + t2)] in
  shape out = [t0; t1; t2] /\ wf out
  /\ forall x y z : nat,
      Z.of_nat x < t0 -> Z.of_nat y < t1 -> Z.of_nat z < t2 ->
      voxel out x y z
      = Some (voxel_or arr zero (Z.of_nat x + o0) (Z.of_nat y + o1) (Z.of_nat z + o2)).
Proof.
  intros Hwf Hs W0 W1 W2 pads padded out.
  pose proof (window_length W0) as L0. pose proof (window_length W1) as L1.
  pose proof (window_length W2) as L2.
  pose proof W0 as (B0 & I0 & A0 & _). pose proof W1 as (B1 & I1 & A1 & _).
  pose proof W2 as (B2 & I2 & A2 & _).
  assert (Hwp : wf padded).
  { destruct (@np_pad_wf A 3 arr pads zero Hwf eq_refl) as (p & Hp & _ & Hw).
    - unfold pads. repeat constructor; assumption.
    - unfold np_pad in Hp. rewrite as_pairs_ok in Hp;
        [|reflexivity|unfold pads; repeat constructor; assumption].
      cbn [bind] in Hp. injection Hp as <-. exact Hw. }
  split; [|split].
  - unfold out, padded, pads. cbn [getitem shape]. rewrite Hs.
    cbn [pad_shape getitem_shape]. now rewrite L0, L1, L2.
  - apply getitem_wf. exact Hwp.
  - intros x y z Hx Hy Hz.
    destruct Hwf as (_ & _ & Hsh).
    destruct arr as [sh dat]. cbn [shape data] in *. subst sh.
    destruct Hsh as [Hl0 Hplanes].
    unfold voxel_or, voxel, out, padded, pads.
    cbn [getitem data shape pad_data getitem_data full pad_shape].
    set (n2 := b2 + i2 + a2). set (n1 := b1 + i1 + a1).
    set (blk1 := repeat zero (Z.to_nat n2)).
    set (blk2 := repeat blk1 (Z.to_nat n1)).
    (* a block of fill values, read through the windows of the inner axes *)
    assert (Hrow : forall row : list A,
               Z.of_nat (length row) = i2 ->
               nth_error (map (fun a : A => a)
                            (get (range low2 (low2 + t2))
                               (repeat zero (Z.to_nat b2) ++ map (fun a : A => a) row
                                  ++ repeat zero (Z.to_nat a2)))) z
               = Some (if 0 <=? Z.of_nat z + o2
                       then match nth_error row (Z.to_nat (Z.of_nat z + o2)) with
                            | Some v => v
                            | None => zero
                            end
                       else zero)).
    { intros row Hrow. rewrite map_id.
      exact (@window_nth_error A A (fun a => a) zero row z b2 i2 a2 low2 t2 o2 Hrow W2 Hz). }
    assert (Hfill1 : nth_error (map (fun a : A => a) (get (range low2 (low2 + t2)) blk1)) z
                     = Some zero).
    { rewrite map_id.
      pose proof (@window_nth_error A A (fun a => a) zero [] z n2 0 0 low2 t2 (low2 - n2)) as H.
      cbn [map repeat Z.to_nat app] in H. rewrite app_nil_r in H.
      unfold blk1. rewrite H; try assumption; try reflexivity.
      - destruct (0 <=? Z.of_nat z + (low2 - n2)); [|reflexivity].
        now destruct (Z.to_nat (Z.of_nat z + (low2 - n2))).
      - destruct W2 as (? & ? & ? & ? & ? & ? & ?). unfold axis_window, n2. lia. }
    pose proof (fun f => @window_nth_error _ _ f blk2 dat x b0 i0 a0 low0 t0 o0 Hl0 W0 Hx)
      as Hax0.
    rewrite nth_error_map, Hax0. clear Hax0. cbn [option_map].
    destruct (Z.leb_spec 0 (Z.of_nat x + o0)) as [Hx0|Hx0]; cbn [andb].
    2:{ (* a plane of fill values *)
      pose proof (@window_nth_error (list A) (list A) (fun r => r) blk1 [] y n1 0 0
                    low1 t1 (low1 - n1)) as H.
      cbn [map repeat Z.to_nat app] in H. rewrite app_nil_r in H.
      cbn [getitem_data]. rewrite nth_error_map. unfold blk2. cbn [nd]. rewrite H;
        try assumption; try reflexivity.
      - cbn [option_map].
        replace (if 0 <=? Z.of_nat y + (low1 - n1)
                 then match nth_error [] (Z.to_nat (Z.of_nat y + (low1 - n1))) with
                      | Some v => v
                      | None => blk1
                      end
                 else blk1) with blk1.
        + exact Hfill1.
        + destruct (0 <=? Z.of_nat y + (low1 - n1)); [|reflexivity].
          now destruct (Z.to_nat (Z.of_nat y + (low1 - n1))).
      - destruct W1 as (? & ? & ? & ? & ? & ? & ?). unfold axis_window, n1. lia. }
    destruct (nth_error dat (Z.to_nat (Z.of_nat x + o0))) as [plane|] eqn:Hplane.
    2:{ pose proof (@window_nth_error (list A) (list A) (fun r => r) blk1 [] y n1 0 0
                      low1 t1 (low1 - n1)) as H.
      cbn [map repeat Z.to_nat app] in H. rewrite app_nil_r in H.
      cbn [getitem_data]. rewrite nth_error_map. unfold blk2. cbn [nd]. rewrite H;
        try assumption; try reflexivity.
      - cbn [option_map].
        replace (if 0 <=? Z.of_nat y + (low1 - n1)
                 then match nth_error [] (Z.to_nat (Z.of_nat y + (low1 - n1))) with
                      | Some v => v
                      | None => blk1
                      end
                 else blk1) with blk1.
        + rewrite Hfill1.
          now destruct ((0 <=? Z.of_nat y + o1) && (0 <=? Z.of_nat z + o2)).
        + destruct (0 <=? Z.of_nat y + (low1 - n1)); [|reflexivity].
          now destruct (Z.to_nat (Z.of_nat y + (low1 - n1))).
      - destruct W1 as (? & ? & ? & ? & ? & ? & ?). unfold axis_window, n1. lia. }
    rewrite Forall_forall in Hplanes.
    destruct (Hplanes plane (nth_error_In _ _ Hplane)) as [Hl1 Hrows].
    cbn [getitem_data pad_data full pad_shape]. fold blk1. cbn [nd].
    pose proof (fun f => @window_nth_error _ _ f blk1 plane y b1 i1 a1 low1 t1 o1 Hl1 W1 Hy)
      as Hax1.
    rewrite nth_error_map, Hax1. clear Hax1. cbn [option_map].
    destruct (Z.leb_spec 0 (Z.of_nat y + o1)) as [Hy0|Hy0]; cbn [andb];
      [|exact Hfill1].
    destruct (nth_error plane (Z.to_nat (Z.of_nat y + o1))) as [row|] eqn:Hrw.
    2:{ cbn [nd]. rewrite Hfill1. now destruct (0 <=? Z.of_nat z + o2). }
    rewrite Forall_forall in Hrows.
    destruct (Hrows row (nth_error_In _ _ Hrw)) as [Hl2 _].
    cbn [nd]. rewrite (Hrow row Hl2).
    destruct (Z.leb_spec 0 (Z.of_nat z + o2)) as [Hz0|Hz0]; [|reflexivity].
    now destruct (nth_error row (Z.to_nat (Z.of_nat z + o2))).
Qed.

Lemma half_of_double_max (i j : Z) : Z.max (2 * i) (2 * j) / 2 = Z.max i j.
Proof.
  replace (Z.max (2 * i) (2 * j)) with (Z.max i j * 2) by lia.
  apply Z.div_mul. lia.
Qed.

Lemma leg_axis_window (i j : Z) :
  0 <= i -> 0 <= j ->
  axis_window (snd (fst (leg_axis (i, j)))) i (snd (leg_axis (i, j)))
              (leg_low (i, j)) j (i / 2 - j / 2).
Proof.
  intros Hi Hj. unfold axis_window, leg_axis, leg_low. cbn [fst snd].
  rewrite half_of_double_max, Z.quot_div_nonneg by lia.
  pose proof (Z.div_mod i 2 ltac:(lia)). pose proof (Z.mod_pos_bound i 2 ltac:(lia)).
  pose proof (Z.div_mod j 2 ltac:(lia)). pose proof (Z.mod_pos_bound j 2 ltac:(lia)).
  lia.
Qed.

Lemma existsb_negative (l : list Z) :
  Forall (fun k => 0 <= k) l -> existsb (fun k => k <? 0) l = false.
Proof.
  induction 1 as [|k l Hk _ IH]; [reflexivity|]. cbn [existsb].
  destruct (Z.ltb_spec k 0); [lia|exact IH].
Qed.

Variable elt_eqb : A -> A -> bool.

(** The general branch of [map_size_leg]: the input is put into a block
    of zeros and the window of the base shape is cut from it. *)
Lemma map_size_leg_window (arr : ndarray A 3) (i0 i1 i2 j0 j1 j2 : Z)
    (return_border : bool) :
  wf arr -> shape arr = [i0; i1; i2] ->
  0 <= j0 -> 0 <= j1 -> 0 <= j2 ->
  list_Z_eqb (shape arr) [j0; j1; j2] = false ->
  let axes := [leg_axis (i0, j0); leg_axis (i1, j1); leg_axis (i2, j2)] in
  let padded := @NdArray A 3 (pad_shape (map ax_pad axes) (shape arr))
                  (pad_data 3 (map ax_pad axes) (shape arr) zero (data arr)) in
  let final_arr := getitem padded
                     [range (leg_low (i0, j0)) (leg_low (i0, j0) + j0);
                      range (leg_low (i1, j1)) (leg_low (i1, j1) + j1);
                      range (leg_low (i2, j2)) (leg_low (i2, j2) + j2)] in
  let back_borders := [leg_border (i0, j0); leg_border (i1, j1); leg_border (i2, j2)] in
  map_size_leg zero elt_eqb arr [j0; j1; j2] return_border
  = if return_border then
      bind (all_equal elt_eqb (slice_at_borders final_arr back_borders) arr)
           (fun ok => if ok then Ok (final_arr, Some back_borders)
                      else Raise (AssertionError "Borders for unpadding are not correct"))
    else Ok (final_arr, None).
Proof.
  intros Hwf Hs J0 J1 J2 Hne axes padded final_arr back_borders.
  pose proof Hwf as (Hlen & Hpos & Hsh). rewrite Hs in Hpos, Hsh.
  pose proof (Forall_inv Hpos) as I0.
  pose proof (Forall_inv (Forall_inv_tail Hpos)) as I1.
  pose proof (Forall_inv (Forall_inv_tail (Forall_inv_tail Hpos))) as I2.
  cbv beta in I0, I1, I2.
  unfold map_size_leg. rewrite Hne. rewrite Hs.
  cbn [define_size for_each seq length nth_error nth bind map fst snd].
  rewrite existsb_negative by (repeat constructor; assumption).
  cbn [border_row nth_error bind fst snd].
  set (n0 := Z.max (2 * i0) (2 * j0)). set (n1 := Z.max (2 * i1) (2 * j1)).
  set (n2 := Z.max (2 * i2) (2 * j2)).
  assert (Hext : map ax_extent axes = [i0; i1; i2]) by reflexivity.
  assert (Hps : pad_shape (map ax_pad axes) (map ax_extent axes) = [n0; n1; n2]).
  { unfold axes, leg_axis, ax_pad, ax_extent. cbn [map pad_shape fst snd].
    fold n0 n1 n2. f_equal; [lia|]. f_equal; [lia|]. f_equal. lia. }
  assert (Hax : Forall (fun t => 0 <= fst (fst t) /\ 0 <= snd (fst t) /\ 0 <= snd t) axes).
  { unfold axes.
    destruct (leg_axis_window I0 J0) as (? & _ & ? & _).
    destruct (leg_axis_window I1 J1) as (? & _ & ? & _).
    destruct (leg_axis_window I2 J2) as (? & _ & ? & _).
    repeat constructor; cbn [leg_axis fst snd]; assumption. }
  assert (Hset : setitem (@NdArray A 3 [n0; n1; n2] (full 3 [n0; n1; n2] zero))
                   [range (n0 / 2 - i0 / 2) (n0 / 2 - i0 / 2 + i0);
                    range (n1 / 2 - i1 / 2) (n1 / 2 - i1 / 2 + i1);
                    range (n2 / 2 - i2 / 2) (n2 / 2 - i2 / 2 + i2)] arr
                 = Ok (@NdArray A 3 [n0; n1; n2]
                         (pad_data 3 (map ax_pad axes) (map ax_extent axes) zero (data arr)))).
  { unfold setitem. cbn [shape].
    assert (Hsel : getitem_shape
                     [range (n0 / 2 - i0 / 2) (n0 / 2 - i0 / 2 + i0);
                      range (n1 / 2 - i1 / 2) (n1 / 2 - i1 / 2 + i1);
                      range (n2 / 2 - i2 / 2) (n2 / 2 - i2 / 2 + i2)] [n0; n1; n2]
                   = [i0; i1; i2]).
    { change [range (n0 / 2 - i0 / 2) (n0 / 2 - i0 / 2 + i0);
              range (n1 / 2 - i1 / 2) (n1 / 2 - i1 / 2 + i1);
              range (n2 / 2 - i2 / 2) (n2 / 2 - i2 / 2 + i2)]
        with (map border_slice (map ax_border axes)).
      rewrite <- Hps, <- Hext. apply unpad_pad_shape.
      eapply Forall_impl; [|exact Hax]. cbv beta. tauto. }
    rewrite Hsel, Hs, broadcastable_refl.
    rewrite broadcast_data_id by (rewrite <- Hs; destruct Hwf as (_ & _ & H); exact H).
    f_equal. f_equal.
    change [range (n0 / 2 - i0 / 2) (n0 / 2 - i0 / 2 + i0);
            range (n1 / 2 - i1 / 2) (n1 / 2 - i1 / 2 + i1);
            range (n2 / 2 - i2 / 2) (n2 / 2 - i2 / 2 + i2)]
      with (map border_slice (map ax_border axes)).
    rewrite <- Hps. apply setitem_data_full; [reflexivity|exact Hax|].
    rewrite Hext. exact Hsh. }
  rewrite Hext in Hset, Hps.
  rewrite Hset. cbn [bind shape tuple_index nth_error length Nat.eqb negb].
  unfold final_arr, back_borders, padded. rewrite Hs, Hps.
  destruct return_border; reflexivity.
Qed.

End LegacyResize.

Section LegacyAgreement.
Variable A : Type.
Variable zero : A.
Variable elt_eqb : A -> A -> bool.

Lemma voxel_or_some (img : ndarray A 3) (pad v : A) (x y z : Z) :
  0 <= x -> 0 <= y -> 0 <= z ->
  voxel img (Z.to_nat x) (Z.to_nat y) (Z.to_nat z) = Some v ->
  voxel_or img pad x y z = v.
Proof.
  intros Hx Hy Hz Hv. unfold voxel_or. rewrite Hv.
  destruct (Z.leb_spec 0 x); [|lia]. destruct (Z.leb_spec 0 y); [|lia].
  destruct (Z.leb_spec 0 z); [|lia]. reflexivity.
Qed.

(** Inside a well-formed volume every voxel holds a value. *)
Lemma voxel_in_range (img : ndarray A 3) (pad : A) (e0 e1 e2 : Z) (x y z : nat) :
  wf img -> shape img = [e0; e1; e2] ->
  Z.of_nat x < e0 -> Z.of_nat y < e1 -> Z.of_nat z < e2 ->
  voxel img x y z = Some (voxel_or img pad (Z.of_nat x) (Z.of_nat y) (Z.of_nat z)).
Proof.
  intros (_ & _ & Hsh) Hs Hx Hy Hz. rewrite Hs in Hsh. destruct Hsh as [Hl0 Hplanes].
  unfold voxel_or. rewrite !Nat2Z.id.
  destruct (Z.leb_spec 0 (Z.of_nat x)); [|lia].
  destruct (Z.leb_spec 0 (Z.of_nat y)); [|lia].
  destruct (Z.leb_spec 0 (Z.of_nat z)); [|lia]. cbn [andb].
  unfold voxel.
  destruct (nth_error (data img) x) as [plane|] eqn:Hp;
    [|apply nth_error_None in Hp; lia].
  rewrite Forall_forall in Hplanes.
  destruct (Hplanes plane (nth_error_In _ _ Hp)) as [Hl1 Hrows].
  destruct (nth_error plane y) as [row|] eqn:Hr; [|apply nth_error_None in Hr; lia].
  rewrite Forall_forall in Hrows.
  destruct (Hrows row (nth_error_In _ _ Hr)) as [Hl2 _].
  destruct (nth_error row z) as [v|] eqn:Hv; [reflexivity|].
  apply nth_error_None in Hv. lia.
Qed.

(** Two well-formed volumes of one shape with the same voxels are equal. *)
Lemma voxel_ext (a b : ndarray A 3) (e0 e1 e2 : Z) :
  wf a -> wf b -> shape a = [e0; e1; e2] -> shape b = [e0; e1; e2] ->
  (forall x y z : nat,
      Z.of_nat x < e0 -> Z.of_nat y < e1 -> Z.of_nat z < e2 ->
      voxel a x y z = voxel b x y z) ->
  a = b.
Proof.
  intros (_ & _ & Ha) (_ & _ & Hb) Hsa Hsb Hv.
  destruct a as [sa da], b as [sb db]. cbn [shape data] in *. subst sa sb.
  f_equal. destruct Ha as [La Pa], Hb as [Lb Pb].
  rewrite Forall_forall in Pa, Pb.
  apply nth_error_ext. intros x.
  destruct (nth_error da x) as [pa|] eqn:Hpa.
  - assert (Hx : (x < length da)%nat) by (apply nth_error_Some; congruence).
    destruct (nth_error db x) as [pb|] eqn:Hpb; [|apply nth_error_None in Hpb; lia].
    f_equal.
    destruct (Pa pa (nth_error_In _ _ Hpa)) as [La1 Ra].
    destruct (Pb pb (nth_error_In _ _ Hpb)) as [Lb1 Rb].
    rewrite Forall_forall in Ra, Rb.
    apply nth_error_ext. intros y.
    destruct (nth_error pa y) as [ra|] eqn:Hra.
    + assert (Hy : (y < length pa)%nat) by (apply nth_error_Some; congruence).
      destruct (nth_error pb y) as [rb|] eqn:Hrb; [|apply nth_error_None in Hrb; lia].
      f_equal.
      destruct (Ra ra (nth_error_In _ _ Hra)) as [La2 _].
      destruct (Rb rb (nth_error_In _ _ Hrb)) as [Lb2 _].
      apply nth_error_ext. intros z.
      destruct (Nat.lt_ge_cases z (length ra)) as [Hz|Hz].
      * specialize (Hv x y z ltac:(lia) ltac:(lia) ltac:(lia)).
        unfold voxel in Hv. cbn [data] in Hv. now rewrite Hpa, Hpb, Hra, Hrb in Hv.
      * assert (Hna : nth_error ra z = None) by (apply nth_error_None; lia).
        assert (Hnb : nth_error rb z = None) by (apply nth_error_None; lia).
        congruence.
    + apply nth_error_None in Hra. symmetry. apply nth_error_None. lia.
  - apply nth_error_None in Hpa. symmetry. apply nth_error_None. lia.
Qed.

Lemma half_difference (i j : Z) :
  Z.even i = false \/ Z.even j = true -> i / 2 - j / 2 = (i - j) / 2.
Proof.
  intros H.
  pose proof (Z.div_mod i 2 ltac:(lia)) as Di. pose proof (Z.mod_pos_bound i 2 ltac:(lia)).
  pose proof (Z.div_mod j 2 ltac:(lia)) as Dj. pose proof (Z.mod_pos_bound j 2 ltac:(lia)).
  pose proof (Z.div_mod (i - j) 2 ltac:(lia)). pose proof (Z.mod_pos_bound (i - j) 2 ltac:(lia)).
  assert (Hi : Z.even i = false -> i mod 2 = 1).
  { intros He. rewrite Zmod_even, He. reflexivity. }
  assert (Hj : Z.even j = true -> j mod 2 = 0).
  { intros He. rewrite Zmod_even, He. reflexivity. }
  destruct H as [H|H]; [specialize (Hi H)|specialize (Hj H)]; lia.
Qed.

(** What [map_size_leg] returns without borders. *)
Lemma map_size_leg_result (arr : ndarray A 3) (i0 i1 i2 j0 j1 j2 : Z) :
  wf arr -> shape arr = [i0; i1; i2] ->
  0 <= j0 -> 0 <= j1 -> 0 <= j2 ->
  exists out,
    map_size_leg zero elt_eqb arr [j0; j1; j2] false = Ok (out, None)
    /\ shape out = [j0; j1; j2] /\ wf out
    /\ forall x y z : nat,
        Z.of_nat x < j0 -> Z.of_nat y < j1 -> Z.of_nat z < j2 ->
        voxel out x y z
        = Some (voxel_or arr zero (Z.of_nat x + (i0 / 2 - j0 / 2))
                                  (Z.of_nat y + (i1 / 2 - j1 / 2))
                                  (Z.of_nat z + (i2 / 2 - j2 / 2))).
Proof.
  intros Hwf Hs J0 J1 J2. pose proof Hwf as (_ & Hpos & _). rewrite Hs in Hpos.
  pose proof (Forall_inv Hpos) as I0.
  pose proof (Forall_inv (Forall_inv_tail Hpos)) as I1.
  pose proof (Forall_inv (Forall_inv_tail (Forall_inv_tail Hpos))) as I2.
  cbv beta in I0, I1, I2.
  destruct (list_Z_eqb (shape arr) [j0; j1; j2]) eqn:Heq.
  - apply list_Z_eqb_true in Heq. rewrite Hs in Heq. injection Heq as -> -> ->.
    exists arr. unfold map_size_leg. rewrite Hs.
    assert (Hrefl : list_Z_eqb [j0; j1; j2] [j0; j1; j2] = true).
    { unfold list_Z_eqb. destruct (list_eq_dec Z.eq_dec [j0; j1; j2] [j0; j1; j2]);
        [reflexivity|contradiction]. }
    rewrite Hrefl. split; [reflexivity|]. split; [reflexivity|]. split; [exact Hwf|].
    intros x y z Hx Hy Hz. rewrite !Z.sub_diag, !Z.add_0_r.
    apply (@voxel_in_range arr zero j0 j1 j2); assumption.
  - rewrite (@map_size_leg_window A zero elt_eqb arr i0 i1 i2 j0 j1 j2 false) by assumption.
    eexists. split; [reflexivity|].
    apply (@window_voxels A zero arr i0 i1 i2); try assumption;
      apply leg_axis_window; assumption.
Qed.

(** [map_size_leg], voxel by voxel: entry [(x, y, z)] of the result is
    entry [(x + d0, y + d1, z + d2)] of the input, with
    [d = extent // 2 - base // 2] on every axis, where the input has one,
    and zero elsewhere. *)
Theorem map_size_leg_voxels (arr : ndarray A 3) (i0 i1 i2 j0 j1 j2 : Z) :
  wf arr -> shape arr = [i0; i1; i2] ->
  0 <= j0 -> 0 <= j1 -> 0 <= j2 ->
  exists out,
    map_size_leg zero elt_eqb arr [j0; j1; j2] false = Ok (out, None)
    /\ shape out = [j0; j1; j2]
    /\ forall x y z : nat,
        Z.of_nat x < j0 -> Z.of_nat y < j1 -> Z.of_nat z < j2 ->
        voxel out x y z
        = Some (voxel_or arr zero (Z.of_nat x + (i0 / 2 - j0 / 2))
                                  (Z.of_nat y + (i1 / 2 - j1 / 2))
                                  (Z.of_nat z + (i2 / 2 - j2 / 2))).
Proof.
  intros Hwf Hs J0 J1 J2.
  destruct (@map_size_leg_result arr i0 i1 i2 j0 j1 j2 Hwf Hs J0 J1 J2)
    as (out & Hout & Hshape & _ & Hvox).
  exists out. auto.
Qed.

(** [map_size_leg] and [map_size] return the same array whenever no axis
    goes from an even extent to an odd one. *)
Theorem map_size_leg_agrees_with_map_size (arr : ndarray A 3) (i0 i1 i2 j0 j1 j2 : Z) :
  wf arr -> shape arr = [i0; i1; i2] ->
  0 <= j0 -> 0 <= j1 -> 0 <= j2 ->
  (Z.even i0 = false \/ Z.even j0 = true) ->
  (Z.even i1 = false \/ Z.even j1 = true) ->
  (Z.even i2 = false \/ Z.even j2 = true) ->
  map_size_leg zero elt_eqb arr [j0; j1; j2] false
  = map_size zero arr [j0; j1; j2] false.
Proof.
  intros Hwf Hs J0 J1 J2 E0 E1 E2. pose proof Hwf as (_ & Hpos & _).
  destruct (@map_size_leg_result arr i0 i1 i2 j0 j1 j2 Hwf Hs J0 J1 J2)
    as (out & Hout & Hshape & Hwo & Hvox).
  rewrite Hout. rewrite map_size_as_plan by assumption.
  rewrite Hs in Hpos |- *.
  pose proof (Forall_inv Hpos) as I0.
  pose proof (Forall_inv (Forall_inv_tail Hpos)) as I1.
  pose proof (Forall_inv (Forall_inv_tail (Forall_inv_tail Hpos))) as I2.
  cbv beta in I0, I1, I2.
  unfold map_size_plan. cbn [combine map fst snd].
  destruct (@plan_voxels A arr (fst (map_size_axis i0 j0)) (fst (map_size_axis i1 j1))
              (fst (map_size_axis i2 j2)) zero i0 i1 i2 j0 j1 j2
              ((i0 - j0) / 2) ((i1 - j1) / 2) ((i2 - j2) / 2) Hwf Hs)
    as (out' & Hout' & Hshape' & Hvox'); try (apply map_size_axis_shift; assumption).
  destruct (@apply_plan_ok A 3 arr
              [fst (map_size_axis i0 j0); fst (map_size_axis i1 j1);
               fst (map_size_axis i2 j2)] zero Hwf eq_refl) as (out'' & Hout'' & _ & Hwo').
  { repeat constructor; apply map_size_axis_extent; assumption. }
  rewrite Hout' in Hout'' |- *. injection Hout'' as <-. cbn [bind].
  f_equal. f_equal.
  apply (@voxel_ext out out' j0 j1 j2); try assumption.
  intros x y z Hx Hy Hz.
  rewrite Hvox, Hvox' by assumption.
  now rewrite !half_difference by assumption.
Qed.

End LegacyAgreement.

(** From an even extent to an odd one the two routines cut at different
    places: of [1, 2, 3, 4], [map_size] keeps [1, 2, 3] and [map_size_leg]
    keeps [2, 3, 4]. *)
Lemma map_size_leg_differs_on_even_to_odd :
  map_size 0 vol_4x1x1 [3; 1; 1] false
  = Ok (@NdArray Z 3 [3; 1; 1] [[[1]]; [[2]]; [[3]]], None)
  /\ map_size_leg 0 Z.eqb vol_4x1x1 [3; 1; 1] false
     = Ok (@NdArray Z 3 [3; 1; 1] [[[2]]; [[3]]; [[4]]], None).
Proof. split; vm_compute; reflexivity. Qed.

Section LegacyBorders.
Variable A : Type.
Variable zero : A.
Variable elt_eqb : A -> A -> bool.

(** A window inside a volume, voxel by voxel. *)
Lemma getitem_window_voxels (img : ndarray A 3)
    (e0 e1 e2 low0 low1 low2 t0 t1 t2 : Z) :
  wf img -> shape img = [e0; e1; e2] ->
  0 <= low0 -> 0 <= t0 -> low0 + t0 <= e0 ->
  0 <= low1 -> 0 <= t1 -> low1 + t1 <= e1 ->
  0 <= low2 -> 0 <= t2 -> low2 + t2 <= e2 ->
  let out := getitem img [range low0 (low0 + t0); range low1 (low1 + t1);
                          range low2 (low2 + t2)] in
  shape out = [t0; t1; t2] /\ wf out
  /\ forall x y z : nat,
      Z.of_nat x < t0 -> Z.of_nat y < t1 -> Z.of_nat z < t2 ->
      voxel out x y z
      = Some (voxel_or img zero (Z.of_nat x + low0) (Z.of_nat y + low1) (Z.of_nat z + low2)).
Proof.
  intros Hwf Hs L0 T0 F0 L1 T1 F1 L2 T2 F2.
  pose proof Hwf as (_ & Hpos & _). rewrite Hs in Hpos.
  pose proof (Forall_inv Hpos) as E0.
  pose proof (Forall_inv (Forall_inv_tail Hpos)) as E1.
  pose proof (Forall_inv (Forall_inv_tail (Forall_inv_tail Hpos))) as E2.
  cbv beta in E0, E1, E2.
  pose proof (@window_voxels A zero img e0 e1 e2 0 0 0 0 0 0 low0 low1 low2 t0 t1 t2
                low0 low1 low2 Hwf Hs) as H.
  cbv zeta in H.
  assert (Hz : Forall (fun p : Z * Z => p = (0, 0)) [(0, 0); (0, 0); (0, 0)])
    by (repeat constructor).
  rewrite (pad_shape_zero (shape img) Hz), (pad_data_zero zero 3 (shape img) (data img) Hz)
    in H.
  replace (@NdArray A 3 (shape img) (data img)) with img in H by now destruct img.
  apply H; unfold axis_window; lia.
Qed.

Lemma broadcast_shapes_refl (sh : list Z) : broadcast_shapes sh sh = Some sh.
Proof.
  induction sh as [|k sh IH]; [reflexivity|]. cbn [broadcast_shapes].
  now rewrite IH, Z.eqb_refl.
Qed.

Hypothesis elt_eqb_refl : forall v, elt_eqb v v = true.

Lemma nd_all2_refl (n : nat) : forall x : nd A n, nd_all2 elt_eqb n x x = true.
Proof.
  induction n as [|m IH]; intros x; [apply elt_eqb_refl|].
  cbn [nd_all2]. induction x as [|y x IHx]; [reflexivity|].
  cbn [combine forallb fst snd]. now rewrite IH, IHx.
Qed.

Lemma all_equal_refl (n : nat) (x : ndarray A n) :
  wf x -> all_equal elt_eqb x x = Ok true.
Proof.
  intros (_ & _ & Hsh). unfold all_equal.
  rewrite broadcast_shapes_refl, (@broadcast_data_id A n _ _ Hsh). now rewrite nd_all2_refl.
Qed.

Lemma leg_border_fits (i j : Z) :
  0 <= i <= j ->
  0 <= fst (leg_border (i, j))
  /\ snd (leg_border (i, j)) = fst (leg_border (i, j)) + i
  /\ fst (leg_border (i, j)) + i <= j
  /\ fst (leg_border (i, j)) + (i / 2 - j / 2) = 0.
Proof.
  intros Hij. unfold leg_border, leg_axis, leg_low. cbn [fst snd].
  rewrite half_of_double_max, Z.quot_div_nonneg by lia.
  pose proof (Z.div_mod i 2 ltac:(lia)). pose proof (Z.mod_pos_bound i 2 ltac:(lia)).
  pose proof (Z.div_mod j 2 ltac:(lia)). pose proof (Z.mod_pos_bound j 2 ltac:(lia)).
  lia.
Qed.

(** [map_size_leg] with [return_border=True] on a resize that crops no
    axis: the assertion on the borders holds, and cutting the result at the
    returned borders gives the input. *)
Theorem map_size_leg_roundtrip_when_padding (arr : ndarray A 3) (i0 i1 i2 j0 j1 j2 : Z) :
  wf arr -> shape arr = [i0; i1; i2] ->
  i0 <= j0 -> i1 <= j1 -> i2 <= j2 ->
  exists out borders,
    map_size_leg zero elt_eqb arr [j0; j1; j2] true = Ok (out, Some borders)
    /\ shape out = [j0; j1; j2]
    /\ slice_at_borders out borders = arr.
Proof.
  intros Hwf Hs Le0 Le1 Le2. pose proof Hwf as (_ & Hpos & _). rewrite Hs in Hpos.
  pose proof (Forall_inv Hpos) as I0.
  pose proof (Forall_inv (Forall_inv_tail Hpos)) as I1.
  pose proof (Forall_inv (Forall_inv_tail (Forall_inv_tail Hpos))) as I2.
  cbv beta in I0, I1, I2.
  destruct (list_Z_eqb (shape arr) [j0; j1; j2]) eqn:Heq.
  - apply list_Z_eqb_true in Heq. rewrite Hs in Heq. injection Heq as -> -> ->.
    exists arr, [(0, j0); (0, j1); (0, j2)].
    assert (Hrefl : list_Z_eqb [j0; j1; j2] [j0; j1; j2] = true).
    { unfold list_Z_eqb. destruct (list_eq_dec Z.eq_dec [j0; j1; j2] [j0; j1; j2]);
        [reflexivity|contradiction]. }
    split; [|split; [exact Hs|]].
    { unfold map_size_leg. rewrite Hs, Hrefl. reflexivity. }
    destruct (@getitem_window_voxels arr j0 j1 j2 0 0 0 j0 j1 j2 Hwf Hs)
      as (Hsb & Hwb & Hvb); try lia.
    unfold slice_at_borders. cbn [map fst snd].
    change (getitem arr [range 0 j0; range 0 j1; range 0 j2])
      with (getitem arr [range 0 (0 + j0); range 0 (0 + j1); range 0 (0 + j2)]).
    apply (@voxel_ext A _ arr j0 j1 j2); try assumption.
    intros x y z Hx Hy Hz. rewrite (Hvb x y z Hx Hy Hz), !Z.add_0_r.
    symmetry. apply (@voxel_in_range A arr zero j0 j1 j2); assumption.
  - pose proof (@map_size_leg_window A zero elt_eqb arr i0 i1 i2 j0 j1 j2 true
                  Hwf Hs ltac:(lia) ltac:(lia) ltac:(lia) Heq) as Hrun.
    cbv zeta in Hrun.
    set (axes := [leg_axis (i0, j0); leg_axis (i1, j1); leg_axis (i2, j2)]) in *.
    set (padded := @NdArray A 3 (pad_shape (map ax_pad axes) (shape arr))
                     (pad_data 3 (map ax_pad axes) (shape arr) zero (data arr))) in *.
    set (final_arr := getitem padded _) in *.
    assert (Hfin : shape final_arr = [j0; j1; j2] /\ wf final_arr
                   /\ forall x y z : nat,
                       Z.of_nat x < j0 -> Z.of_nat y < j1 -> Z.of_nat z < j2 ->
                       voxel final_arr x y z
                       = Some (voxel_or arr zero (Z.of_nat x + (i0 / 2 - j0 / 2))
                                 (Z.of_nat y + (i1 / 2 - j1 / 2))
                                 (Z.of_nat z + (i2 / 2 - j2 / 2)))).
    { apply (@window_voxels A zero arr i0 i1 i2
               (snd (fst (leg_axis (i0, j0)))) (snd (fst (leg_axis (i1, j1))))
               (snd (fst (leg_axis (i2, j2))))
               (snd (leg_axis (i0, j0))) (snd (leg_axis (i1, j1))) (snd (leg_axis (i2, j2)))
               (leg_low (i0, j0)) (leg_low (i1, j1)) (leg_low (i2, j2)) j0 j1 j2
               (i0 / 2 - j0 / 2) (i1 / 2 - j1 / 2) (i2 / 2 - j2 / 2) Hwf Hs);
        apply leg_axis_window; lia. }
    destruct Hfin as (Hsf & Hwff & Hvf).
    destruct (@leg_border_fits i0 j0 ltac:(lia)) as (B0 & S0 & F0 & Z0).
    destruct (@leg_border_fits i1 j1 ltac:(lia)) as (B1 & S1 & F1 & Z1).
    destruct (@leg_border_fits i2 j2 ltac:(lia)) as (B2 & S2 & F2 & Z2).
    assert (Hback : slice_at_borders final_arr
                      [leg_border (i0, j0); leg_border (i1, j1); leg_border (i2, j2)]
                    = arr).
    { unfold slice_at_borders. cbn [map]. rewrite S0, S1, S2.
      destruct (@getitem_window_voxels final_arr j0 j1 j2
                  (fst (leg_border (i0, j0))) (fst (leg_border (i1, j1)))
                  (fst (leg_border (i2, j2))) i0 i1 i2 Hwff Hsf)
        as (Hsb & Hwb & Hvb); try lia.
      apply (@voxel_ext A _ arr i0 i1 i2); try assumption.
      intros x y z Hx Hy Hz. rewrite (Hvb x y z Hx Hy Hz).
      rewrite (@voxel_in_range A arr zero i0 i1 i2) by assumption.
      f_equal.
      apply voxel_or_some; try lia.
      rewrite Hvf by lia. f_equal. f_equal; lia. }
    exists final_arr, [leg_border (i0, j0); leg_border (i1, j1); leg_border (i2, j2)].
    rewrite Hrun, Hback, (@all_equal_refl 3 arr Hwf). cbn [bind].
    split; [reflexivity|]. split; [exact Hsf|reflexivity].
Qed.

End LegacyBorders.

Section ScratchSize.

(** [define_size] for a reference with at least as many extents as the
    moving volume: the scratch extent is twice the larger extent, and the
    range given for the moving volume has its extent, lies within the
    scratch array and is centred in it, the odd voxel going before.  A
    shorter reference raises an [IndexError]. *)
Theorem define_size_centres_the_volume (mov_dim ref_dim : list Z) :
  Forall (fun k => 0 <= k) mov_dim -> Forall (fun k => 0 <= k) ref_dim ->
  ((length mov_dim <= length ref_dim)%nat ->
   exists new_dim borders,
     define_size mov_dim ref_dim = Ok (new_dim, borders)
     /\ length new_dim = length mov_dim /\ length borders = length mov_dim
     /\ forall k : nat,
         (k < length mov_dim)%nat ->
         let m := nth k mov_dim 0 in
         let n := nth k new_dim 0 in
         let b := nth k borders (0, 0) in
         n = 2 * Z.max m (nth k ref_dim 0)
         /\ snd b = fst b + m /\ 0 <= fst b /\ snd b <= n
         /\ fst b - (n - snd b) = m mod 2)
  /\ ((length ref_dim < length mov_dim)%nat ->
      define_size mov_dim ref_dim = Raise (IndexError "index is out of bounds for axis 0")).
Proof.
  intros Hm Hr. unfold define_size.
  set (f := fun i : nat =>
              match nth_error ref_dim i with
              | Some r =>
                  Ok (Z.max (2 * nth i mov_dim 0) (2 * r),
                      (Z.max (2 * nth i mov_dim 0) (2 * r) / 2 - nth i mov_dim 0 / 2,
                       Z.max (2 * nth i mov_dim 0) (2 * r) / 2 - nth i mov_dim 0 / 2
                       + nth i mov_dim 0))
              | None => Raise (IndexError "index is out of bounds for axis 0")
              end).
  set (g := fun i : nat =>
              (Z.max (2 * nth i mov_dim 0) (2 * nth i ref_dim 0),
               (Z.max (2 * nth i mov_dim 0) (2 * nth i ref_dim 0) / 2 - nth i mov_dim 0 / 2,
                Z.max (2 * nth i mov_dim 0) (2 * nth i ref_dim 0) / 2 - nth i mov_dim 0 / 2
                + nth i mov_dim 0))).
  split.
  - intros Hlen.
    assert (Hf : Forall (fun i => f i = Ok (g i)) (seq 0 (length mov_dim))).
    { apply Forall_forall. intros i Hi. apply in_seq in Hi. unfold f, g.
      rewrite (@nth_error_nth' _ ref_dim i 0) by lia. reflexivity. }
    rewrite (for_each_map f g Hf). cbn [bind].
    eexists. eexists. split; [reflexivity|].
    rewrite !length_map, length_seq. split; [reflexivity|]. split; [reflexivity|].
    intros k Hk. cbv zeta. rewrite !map_map.
    rewrite (@nth_map_seq _ (fun i => fst (g i)) (length mov_dim) k 0 Hk).
    rewrite (@nth_map_seq _ (fun i => snd (g i)) (length mov_dim) k (0, 0) Hk).
    unfold g. cbn [fst snd].
    assert (Hmk : 0 <= nth k mov_dim 0).
    { rewrite Forall_forall in Hm. apply Hm. apply nth_In. lia. }
    assert (Hrk : 0 <= nth k ref_dim 0).
    { rewrite Forall_forall in Hr. apply Hr. apply nth_In. lia. }
    set (m := nth k mov_dim 0) in *. set (r := nth k ref_dim 0) in *.
    replace (Z.max (2 * m) (2 * r)) with (Z.max m r * 2) by lia.
    rewrite Z.div_mul by lia.
    pose proof (Z.div_mod m 2 ltac:(lia)). pose proof (Z.mod_pos_bound m 2 ltac:(lia)).
    lia.
  - intros Hlen.
    rewrite (@for_each_exists_raise _ _ f (seq 0 (length mov_dim))
               (IndexError "index is out of bounds for axis 0")); [reflexivity| |].
    + intros i e. unfold f. destruct (nth_error ref_dim i); [discriminate|].
      now intros [= <-].
    + apply Exists_exists. exists (length ref_dim). split; [apply in_seq; lia|].
      unfold f. rewrite (proj2 (nth_error_None ref_dim (length ref_dim)) (le_n _)).
      eexists. reflexivity.
Qed.

End ScratchSize.

Section SymmetricCrop.
Variable A : Type.

(** With offsets only, [crop_transform] uses the target
    [extent - 2 * offset] on every axis. *)
Lemma crop_transform_offsets_only (n : nat) (image : ndarray A n)
    (offsets : list Z) (pad : A) :
  length (shape image) = n -> length offsets = n ->
  Forall (fun io => 0 <= fst io - 2 * snd io) (combine (shape image) offsets) ->
  crop_transform image (Some offsets) None None pad
  = crop_transform image (Some offsets)
      (Some (map (fun io => fst io - 2 * snd io) (combine (shape image) offsets)))
      None pad.
Proof.
  intros Hlen Hoff Hpos. unfold crop_transform.
  rewrite length_map, length_combine, Hlen, Hoff, Nat.min_id, Nat.eqb_refl.
  cbn [negb bind].
  assert (Htrail : get (Slice (Some (- Z.of_nat n)) None) (shape image) = shape image)
    by (generalize (get_trail (shape image)); now rewrite Hlen).
  rewrite Htrail.
  rewrite no_sentinel.
  - reflexivity.
  - rewrite length_map, length_combine. lia.
  - apply Forall_map. exact Hpos.
Qed.

(** [crop_transform] with offsets only (3-D): a non-negative offset removes
    that many voxels from both ends of its axis, a negative one pads by as
    many on both ends, and entry [(x, y, z)] of the result is entry
    [(x + o0, y + o1, z + o2)] of the image where the image has one. *)
Theorem crop_transform_offsets_only_voxels (image : ndarray A 3) (pad : A)
    (i0 i1 i2 o0 o1 o2 : Z) :
  wf image -> shape image = [i0; i1; i2] ->
  2 * o0 <= i0 -> 2 * o1 <= i1 -> 2 * o2 <= i2 ->
  exists out,
    crop_transform image (Some [o0; o1; o2]) None None pad = Ok out
    /\ shape out = [i0 - 2 * o0; i1 - 2 * o1; i2 - 2 * o2]
    /\ forall x y z : nat,
        Z.of_nat x < i0 - 2 * o0 -> Z.of_nat y < i1 - 2 * o1 -> Z.of_nat z < i2 - 2 * o2 ->
        voxel out x y z
        = Some (voxel_or image pad (Z.of_nat x + o0) (Z.of_nat y + o1) (Z.of_nat z + o2)).
Proof.
  intros Hwf Hs O0 O1 O2. pose proof Hwf as (Hlen & Hpos & _).
  rewrite crop_transform_offsets_only; [|assumption|reflexivity|].
  2:{ rewrite Hs. cbn [combine]. repeat constructor; cbn [fst snd]; lia. }
  rewrite crop_transform_offsets; [|assumption|reflexivity| |].
  2:{ rewrite Hs. reflexivity. }
  2:{ rewrite Hs. cbn [combine map fst snd]. repeat constructor; lia. }
  rewrite Hs in Hpos |- *.
  pose proof (Forall_inv Hpos) as I0.
  pose proof (Forall_inv (Forall_inv_tail Hpos)) as I1.
  pose proof (Forall_inv (Forall_inv_tail (Forall_inv_tail Hpos))) as I2.
  cbv beta in I0, I1, I2.
  cbn [combine zip3 map fst snd].
  apply (@plan_voxels A image _ _ _ pad i0 i1 i2 _ _ _ o0 o1 o2 Hwf Hs);
    apply make_indices_axis_shift; lia.
Qed.

End SymmetricCrop.

Lemma wf_vol_labels : wf vol_labels.
Proof. solve_wf. Qed.

Lemma wf_vol_classes : wf vol_classes.
Proof. solve_wf. Qed.

Lemma map_subseg2label_classes_witness :
  map_subseg2label vol_labels "cereb_subseg"
  = Ok (@NdArray Z 3 [2; 1; 2] [[[0; 27]]; [[9; 14]]]).
Proof.
  apply (@map_subseg2label_classes vol_labels).
  - solve_wf.
  - unfold all_voxels. cbn. repeat constructor; lia.
Defined.

Lemma map_label2subseg_inverts_map_subseg2label_witness :
  exists mapped,
    map_subseg2label vol_labels "cereb_subseg" = Ok mapped
    /\ all_voxels (fun c => 0 <= c < 28) mapped
    /\ map_label2subseg mapped "cereb_subseg" = Ok vol_labels.
Proof.
  apply (@map_label2subseg_inverts_map_subseg2label vol_labels).
  - solve_wf.
  - unfold all_voxels. cbn. repeat constructor; cbn; tauto.
Defined.

Lemma map_subseg2label_inverts_map_label2subseg_witness :
  exists subseg,
    map_label2subseg vol_classes "cereb_subseg" = Ok subseg
    /\ all_voxels (fun v => In v label_values) subseg
    /\ map_subseg2label subseg "cereb_subseg" = Ok vol_classes.
Proof.
  apply (@map_subseg2label_inverts_map_label2subseg vol_classes).
  - solve_wf.
  - unfold all_voxels. cbn. repeat constructor; lia.
Defined.

Lemma map_subseg2label_index_error_witness :
  map_subseg2label vol_label_39 "cereb_subseg"
  = Raise (IndexError "index is out of bounds").
Proof.
  assert (Hwf : wf vol_label_39) by solve_wf.
  destruct (@map_subseg2label_index_error vol_label_39 Hwf) as [Hiff Hkind].
  destruct (proj2 Hiff) as [e He].
  - unfold some_voxel. cbn. right. left. lia.
  - rewrite He. f_equal. now apply Hkind.
Defined.

Lemma map_label2subseg_index_error_witness :
  map_label2subseg vol_labels "cereb_subseg"
  = Raise (IndexError "index is out of bounds").
Proof.
  assert (Hwf : wf vol_labels) by solve_wf.
  destruct (@map_label2subseg_index_error vol_labels Hwf) as [Hiff Hkind].
  destruct (proj2 Hiff) as [e He].
  - unfold some_voxel. cbn. right. left. lia.
  - rewrite He. f_equal. now apply Hkind.
Defined.

Lemma map_size_shape_witness :
  exists out borders,
    map_size 0 vol_4x1x1 [3; 2; 1] true = Ok (out, borders)
    /\ shape out = [3; 2; 1] /\ wf out.
Proof.
  apply (@map_size_shape Z 0 vol_4x1x1 [3; 2; 1] true).
  - solve_wf.
  - reflexivity.
  - repeat constructor; lia.
Defined.

Lemma crop_transform_default_shape_witness :
  exists out,
    crop_transform vol_2x2x2 None (Some [3; 1]) None 0 = Ok out
    /\ shape out = [2; 3; 1] /\ wf out.
Proof.
  apply (@crop_transform_default_shape Z 3 vol_2x2x2 [3; 1] 0).
  - solve_wf.
  - cbn. lia.
  - repeat constructor; lia.
Defined.

Lemma crop_transform_offsets_shape_witness :
  exists out,
    crop_transform vol_4x1x1 (Some [-1; 0; 1]) (Some [3; 1; 2]) None 0 = Ok out
    /\ shape out = [3; 1; 2] /\ wf out.
Proof.
  apply (@crop_transform_offsets_shape Z 3 vol_4x1x1 [-1; 0; 1] [3; 1; 2] 0).
  - solve_wf.
  - reflexivity.
  - reflexivity.
  - repeat constructor; lia.
  - cbn. repeat constructor; cbn; lia.
Defined.

Lemma crop_transform_offsets_voxels_witness :
  exists out,
    crop_transform vol_2x2x2 (Some [-1; 1; 0]) (Some [2; 2; 1]) None 0 = Ok out
    /\ shape out = [2; 2; 1]
    /\ voxel out 0 0 0 = Some 0 /\ voxel out 1 0 0 = Some 3 /\ voxel out 1 1 0 = Some 0.
Proof.
  destruct (@crop_transform_offsets_voxels Z vol_2x2x2 0 2 2 2 (-1) 1 0 2 2 1)
    as (out & Hout & Hs & Hv); try lia; [solve_wf|reflexivity|].
  exists out. split; [exact Hout|]. split; [exact Hs|].
  split; [|split].
  - rewrite (Hv 0%nat 0%nat 0%nat) by lia. reflexivity.
  - rewrite (Hv 1%nat 0%nat 0%nat) by lia. reflexivity.
  - rewrite (Hv 1%nat 1%nat 0%nat) by lia. reflexivity.
Defined.

Lemma crop_transform_default_voxels_witness :
  exists out,
    crop_transform vol_4x1x1 None (Some [1; 1; 2]) None 0 = Ok out
    /\ shape out = [1; 1; 2]
    /\ voxel out 0 0 0 = Some 2 /\ voxel out 0 0 1 = Some 0.
Proof.
  destruct (@crop_transform_default_voxels Z vol_4x1x1 0 4 1 1 1 1 2)
    as (out & Hout & Hs & Hv); try lia; [solve_wf|reflexivity|].
  exists out. split; [exact Hout|]. split; [exact Hs|].
  split.
  - rewrite (Hv 0%nat 0%nat 0%nat) by lia. reflexivity.
  - rewrite (Hv 0%nat 0%nat 1%nat) by lia. reflexivity.
Defined.

Lemma map_size_voxels_witness :
  exists out,
    map_size 0 vol_4x1x1 [1; 1; 2] false = Ok (out, None)
    /\ shape out = [1; 1; 2]
    /\ voxel out 0 0 0 = Some 0 /\ voxel out 0 0 1 = Some 2.
Proof.
  destruct (@map_size_voxels Z 0 vol_4x1x1 4 1 1 1 1 2)
    as (out & Hout & Hs & Hv); try lia; [solve_wf|reflexivity|].
  exists out. split; [exact Hout|]. split; [exact Hs|].
  split.
  - rewrite (Hv 0%nat 0%nat 0%nat) by lia. reflexivity.
  - rewrite (Hv 0%nat 0%nat 1%nat) by lia. reflexivity.
Defined.

Lemma bounding_volume_fails_on_blank_volume_witness :
  bounding_volume int_nonzero vol_blank [1; 1; 1]
  = Raise (IndexError "index 0 is out of bounds for axis 0 with size 0").
Proof.
  assert (Hwf : wf vol_blank) by solve_wf.
  destruct (@bounding_volume_fails_on_blank_volume Z int_nonzero vol_blank 1 1 1 Hwf)
    as [Hiff Hkind].
  destruct (proj2 Hiff) as [e He].
  - intros x y z (v & Hv & Hnz). unfold voxel in Hv. cbn [data vol_blank] in Hv.
    destruct x as [|[|x]]; cbn [nth_error] in Hv;
      try (destruct x; discriminate);
      (destruct y as [|y]; cbn [nth_error] in Hv; [|destruct y; discriminate]);
      (destruct z as [|[|z]]; cbn [nth_error] in Hv; try (destruct z; discriminate));
      injection Hv as <-; discriminate.
  - rewrite He. f_equal. now apply Hkind.
Defined.

Lemma bounding_volume_window_size_witness :
  exists h w d a0 b0 a1 b1 a2 b2,
    shape vol_3x1x1_ends = [h; w; d]
    /\ bounding_volume int_nonzero vol_3x1x1_ends [2; 1; 1]
       = Ok (range a0 b0, range a1 b1, range a2 b2)
    /\ (b0 - a0 <= 2 /\ (0 < a0 -> b0 < h -> b0 - a0 = 2))
    /\ (b1 - a1 <= 1 /\ (0 < a1 -> b1 < w -> b1 - a1 = 1))
    /\ (b2 - a2 <= 1 /\ (0 < a2 -> b2 < d -> b2 - a2 = 1)).
Proof.
  apply (@bounding_volume_window_size Z int_nonzero vol_3x1x1_ends 2 1 1).
  - solve_wf.
  - exists 0%nat, 0%nat, 0%nat, 1. split; reflexivity.
Defined.

Lemma crop_transform_pad_then_crop_witness :
  exists padded,
    crop_transform vol_2x1x1 None (Some [5; 2; 1]) None 0 = Ok padded
    /\ shape padded = [5; 2; 1]
    /\ crop_transform padded None (Some (shape vol_2x1x1)) None 0 = Ok vol_2x1x1.
Proof.
  apply (@crop_transform_pad_then_crop Z 3 vol_2x1x1 [5; 2; 1] 0).
  - solve_wf.
  - lia.
  - cbn. repeat constructor; lia.
Defined.

Lemma map_size_pad_then_crop_even_witness :
  exists out,
    map_size 0 vol_2x1x1 [4; 3; 1] false = Ok (out, None)
    /\ shape out = [4; 3; 1]
    /\ map_size 0 out (shape vol_2x1x1) false = Ok (vol_2x1x1, None).
Proof.
  apply (@map_size_pad_then_crop_even Z 0 vol_2x1x1 [4; 3; 1]).
  - solve_wf.
  - cbn. repeat constructor; try lia; reflexivity.
Defined.

Lemma readLTA_needs_both_volume_infos_witness :
  exists e, readLTA lta_file_without_src = Raise e.
Proof.
  apply readLTA_needs_both_volume_infos. left.
  unfold lta_file_without_src. cbn [map]. repeat constructor.
Defined.


Lemma usual_dict_example : Forall (usual_entry (nth 2 (shape subseg_1x2x3) 0)) dict_example.
Proof.
  unfold dict_example, usual_entry. repeat constructor; cbn; try reflexivity; try lia.
Qed.

Lemma filter_blank_slices_thick_takes_kept_slices_witness :
  filter_blank_slices_thick dict_example 10
  = Ok [("cereb_subseg", Vol3 (@NdArray Z 3 [1; 2; 2] [[[5; 9]; [7; 3]]]));
        ("orig", Vol4 (@NdArray Z 4 [1; 1; 2; 2] [[[[1; 2]; [5; 6]]]]))]%string.
Proof.
  rewrite (@filter_blank_slices_thick_takes_kept_slices dict_example 10 subseg_1x2x3
             eq_refl usual_dict_example).
  reflexivity.
Defined.

Lemma filter_blank_slices_thick_idempotent_witness :
  exists out,
    filter_blank_slices_thick dict_example 10 = Ok out
    /\ filter_blank_slices_thick out 10 = Ok out.
Proof.
  exact (@filter_blank_slices_thick_idempotent dict_example 10 subseg_1x2x3
           eq_refl usual_dict_example).
Defined.

Lemma filter_blank_slices_thick_rejects_other_depth_witness :
  exists msg, filter_blank_slices_thick dict_other_depth 10 = Raise (IndexError msg).
Proof.
  apply (@filter_blank_slices_thick_rejects_other_depth dict_other_depth 10 subseg_1x2x3
           "weight" (Vol3 vol_2x2x2) eq_refl).
  - solve_wf.
  - right. left. reflexivity.
  - split; [solve_wf|]. left. cbn. lia.
Defined.

Lemma map_size_leg_voxels_witness :
  exists out,
    map_size_leg 0 Z.eqb vol_4x1x1 [3; 1; 2] false = Ok (out, None)
    /\ shape out = [3; 1; 2]
    /\ voxel out 0 0 1 = Some 2 /\ voxel out 2 0 0 = Some 0.
Proof.
  destruct (@map_size_leg_voxels Z 0 Z.eqb vol_4x1x1 4 1 1 3 1 2)
    as (out & Hout & Hs & Hv); try lia; [solve_wf|reflexivity|].
  exists out. split; [exact Hout|]. split; [exact Hs|].
  split.
  - rewrite (Hv 0%nat 0%nat 1%nat) by lia. reflexivity.
  - rewrite (Hv 2%nat 0%nat 0%nat) by lia. reflexivity.
Defined.

Lemma map_size_leg_agrees_with_map_size_witness :
  map_size_leg 0 Z.eqb vol_2x1x1 [4; 2; 1] false = map_size 0 vol_2x1x1 [4; 2; 1] false.
Proof.
  apply (@map_size_leg_agrees_with_map_size Z 0 Z.eqb vol_2x1x1 2 1 1 4 2 1);
    try lia; try reflexivity; try (left; reflexivity); try (right; reflexivity).
  solve_wf.
Defined.

Lemma map_size_leg_roundtrip_when_padding_witness :
  exists out borders,
    map_size_leg 0 Z.eqb vol_2x1x1 [3; 2; 1] true = Ok (out, Some borders)
    /\ shape out = [3; 2; 1]
    /\ slice_at_borders out borders = vol_2x1x1.
Proof.
  apply (@map_size_leg_roundtrip_when_padding Z 0 Z.eqb Z.eqb_refl vol_2x1x1 2 1 1 3 2 1);
    try lia; try reflexivity.
  solve_wf.
Defined.

Lemma define_size_centres_the_volume_witness :
  exists new_dim borders,
    define_size [4; 1; 1] [3; 1; 2] = Ok (new_dim, borders)
    /\ length new_dim = 3%nat /\ length borders = 3%nat
    /\ nth 0 new_dim 0 = 8 /\ nth 0 borders (0, 0) = (2, 6).
Proof.
  assert (Hm : Forall (fun k => 0 <= k) [4; 1; 1]) by (repeat constructor; lia).
  assert (Hr : Forall (fun k => 0 <= k) [3; 1; 2]) by (repeat constructor; lia).
  destruct (proj1 (@define_size_centres_the_volume [4; 1; 1] [3; 1; 2] Hm Hr)
              ltac:(cbn; lia)) as (new_dim & borders & Hd & Hl1 & Hl2 & Hk).
  exists new_dim, borders. split; [exact Hd|]. split; [exact Hl1|]. split; [exact Hl2|].
  destruct (Hk 0%nat ltac:(cbn; lia)) as (Hn & Hsnd & H0 & Hle & Hc).
  cbn [nth] in Hn, Hsnd, H0, Hle, Hc. split; [exact Hn|].
  destruct (nth 0 borders (0, 0)) as [b0 b1]. cbn [fst snd] in *.
  change (4 mod 2) with 0 in Hc. f_equal; lia.
Defined.

Lemma crop_transform_offsets_only_voxels_witness :
  exists out,
    crop_transform vol_4x1x1 (Some [1; 0; -1]) None None 0 = Ok out
    /\ shape out = [2; 1; 3]
    /\ voxel out 0 0 1 = Some 2 /\ voxel out 1 0 0 = Some 0.
Proof.
  destruct (@crop_transform_offsets_only_voxels Z vol_4x1x1 0 4 1 1 1 0 (-1))
    as (out & Hout & Hs & Hv); try lia; [solve_wf|reflexivity|].
  exists out. split; [exact Hout|]. split; [exact Hs|].
  split.
  - rewrite (Hv 0%nat 0%nat 1%nat) by lia. reflexivity.
  - rewrite (Hv 1%nat 0%nat 0%nat) by lia. reflexivity.
Defined.

